(** * kucoin_candle_trader: historical backfill, live candle merge and
      the socket message handler, embedded and checked against the
      specification.

    Conventions of the embedding.
    - A Python [str] is a [string]; comparison of two [str] is the
      lexicographic comparison of their characters.
    - A candle is the array KuCoin sends, a list of decimal strings
      [[timestamp, open, close, high, low, volume, turnover]].
    - A raised exception is the [Raise] case of [result]; a [while True]
      loop is run on a finite supply (fuel, or the list of values the
      queue delivered).
    - [print] and the sleeps are left out; log lines of the socket client
      are kept in a list. *)

From Stdlib Require Import List String Ascii ZArith Lia Bool Sorted Permutation.
From Stdlib Require Import QArith_base.
Import ListNotations.

Local Open Scope string_scope.
Local Open Scope list_scope.
Local Open Scope Z_scope.

(** ** Python values and builtins *)

Module Py.

Inductive exn : Type :=
| ValueError
| IndexError
| KeyError
| TypeError
| AttributeError
| OverflowError
| JSONDecodeError
| RequestError (what : string).

Inductive result (A : Type) : Type :=
| Ok (a : A)
| Raise (e : exn).

Arguments Ok {A} a.
Arguments Raise {A} e.

Definition bind {A B : Type} (r : result A) (k : A -> result B) : result B :=
  match r with
  | Ok a => k a
  | Raise e => Raise e
  end.

Notation "x <- r ;; k" := (bind r (fun x => k))
  (at level 100, r at next level, right associativity).

(** [l[-1]] *)
Fixpoint last_item {A : Type} (l : list A) : result A :=
  match l with
  | [] => Raise IndexError
  | [a] => Ok a
  | _ :: r => last_item r
  end.

(** [l[i]] for a non-negative literal index [i] *)
Definition item {A : Type} (i : nat) (l : list A) : result A :=
  match nth_error l i with
  | Some a => Ok a
  | None => Raise IndexError
  end.

(** [l[i:]], for any integer [i] *)
Definition slice_from {A : Type} (i : Z) (l : list A) : list A :=
  let n := Z.of_nat (List.length l) in
  let start := if i <? 0 then Z.max 0 (n + i) else Z.min i n in
  skipn (Z.to_nat start) l.

(** [l[-1] = x] *)
Definition set_last {A : Type} (x : A) (l : list A) : result (list A) :=
  match l with
  | [] => Raise IndexError
  | _ => Ok (removelast l ++ [x])
  end.

(** [s[:-k]] on a string *)
Definition drop_right (k : nat) (s : string) : string :=
  substring 0 (String.length s - k) s.

(** [s.endswith(suffix)] *)
Definition endswith (s suffix : string) : bool :=
  let n := String.length s in
  let m := String.length suffix in
  (m <=? n)%nat && (substring (n - m) m s =? suffix)%string.

(** *** [int(s)] on a string

    Surrounding white space is stripped, one sign is accepted, and the
    digits may be grouped by single underscores; a literal of more than
    4300 digits is refused (the interpreter's default limit).

    This is [int] on ASCII text.  The white space it strips there is
    tab, line feed, vertical tab, form feed, carriage return and space:
    the separators 28 to 31, which [str.strip] removes, are refused by
    [int].  On text outside ASCII Python also reads the decimal digits
    and the spaces of other scripts, which are not modelled: a statement
    that rests on [int] refusing a text is made for ASCII text. *)

Definition is_space (c : ascii) : bool :=
  let n := nat_of_ascii c in
  ((9 <=? n) && (n <=? 13) || (n =? 32))%nat.

Definition is_digit (c : ascii) : bool :=
  let n := nat_of_ascii c in
  ((48 <=? n) && (n <=? 57))%nat.

Definition digit_val (c : ascii) : Z := Z.of_nat (nat_of_ascii c) - 48.

Fixpoint lstrip (s : list ascii) : list ascii :=
  match s with
  | c :: r => if is_space c then lstrip r else s
  | [] => []
  end.

Definition strip (s : list ascii) : list ascii :=
  rev (lstrip (rev (lstrip s))).

(** The literal after its first digit: [acc] is the value read so far and
    [n] the number of digits read. *)
Fixpoint digits_from (acc : Z) (n : nat) (s : list ascii) : option (Z * nat) :=
  match s with
  | [] => Some (acc, n)
  | c :: r =>
      if is_digit c then digits_from (10 * acc + digit_val c) (S n) r
      else if Ascii.eqb c "_" then
        match r with
        | d :: r' =>
            if is_digit d then digits_from (10 * acc + digit_val d) (S n) r'
            else None
        | [] => None
        end
      else None
  end.

Definition int_max_str_digits : nat := 4300.

Definition magnitude (body : list ascii) : option Z :=
  match body with
  | d :: r =>
      if is_digit d then
        match digits_from (digit_val d) 1 r with
        | Some (v, n) => if (n <=? int_max_str_digits)%nat then Some v else None
        | None => None
        end
      else None
  | [] => None
  end.

Definition int_opt (s : string) : option Z :=
  match strip (list_ascii_of_string s) with
  | c :: r =>
      if Ascii.eqb c "-" then option_map Z.opp (magnitude r)
      else if Ascii.eqb c "+" then magnitude r
      else magnitude (c :: r)
  | [] => None
  end.

Definition int (s : string) : result Z :=
  match int_opt s with
  | Some z => Ok z
  | None => Raise ValueError
  end.

End Py.

Import Py.

(** ** Candles *)

Definition candle : Type := list string.

(** [c[0]], the timestamp string *)
Definition timestamp_of (c : candle) : result string := item 0 c.

(** [int(c[0])], the open time in epoch seconds *)
Definition openTime (c : candle) : result Z :=
  t <- timestamp_of c ;; int t.

(** A bar of the feed, for the examples. *)
Definition bar (t : string) (close : string) : candle :=
  [t; "94000.1"; close; "94100"; "93900.5"; "12.5"; "1175000"].

(** ** Historical backfill: [SpotDataFetcher.fetch_all_candles]
       (the packaged [KuCoinDataFetcher._fetch_all_candles] is the same
       code; its [market_type] only selects the host) *)

Module Fetcher.

(** [chunks.sort(key=lambda x: x[0])]: the keys are taken first, then the
    list is sorted by [<] on the key strings, equal keys keeping their
    order of arrival. *)

Fixpoint keyed (chunks : list candle) : result (list (string * candle)) :=
  match chunks with
  | [] => Ok []
  | c :: r =>
      k <- timestamp_of c ;;
      kr <- keyed r ;;
      Ok ((k, c) :: kr)
  end.

Fixpoint insert_keyed (x : string * candle) (l : list (string * candle))
  : list (string * candle) :=
  match l with
  | [] => [x]
  | y :: r =>
      if String.leb (fst x) (fst y) then x :: l else y :: insert_keyed x r
  end.

Fixpoint sort_keyed (l : list (string * candle)) : list (string * candle) :=
  match l with
  | [] => []
  | x :: r => insert_keyed x (sort_keyed r)
  end.

Definition sort_by_timestamp (chunks : list candle) : result (list candle) :=
  kl <- keyed chunks ;;
  Ok (map snd (sort_keyed kl)).

(** [[c for c in chunks if start_ts <= int(c[0]) <= end_ts]] *)
Fixpoint in_range (start_ts end_ts : Z) (chunks : list candle) : result (list candle) :=
  match chunks with
  | [] => Ok []
  | c :: r =>
      t <- openTime c ;;
      rest <- in_range start_ts end_ts r ;;
      Ok (if (start_ts <=? t) && (t <=? end_ts) then c :: rest else rest)
  end.

Section Fetch.

(** [fetch_candles_chunk], as a function of the [startAt] and [endAt]
    it sends: the [data] array of the reply, or the exception of a
    failed request or of an error envelope. *)
Variable fetch_candles_chunk : Z -> Z -> result (list candle).

(** [time.mktime(time.strptime(time.strftime(fmt, time.gmtime(t)), fmt))]:
    the epoch second [t] written in UTC and read back as local time. *)
Variable utc_as_local : Z -> result Z.

(** [start_ts] and the [mktime] of [self.end_time] *)
Variables start_ts end_ts : Z.

(** The [while True] loop; [None] when the fuel runs out before a
    [break]. *)
Fixpoint fetch_loop (fuel : nat) (current_end : Z) (chunks : list candle)
  : option (result (list candle)) :=
  match fuel with
  | O => None
  | S fuel' =>
      match fetch_candles_chunk start_ts current_end with
      | Raise e => Some (Raise e)
      | Ok [] => Some (Ok chunks)
      | Ok chunk =>
          match (c <- last_item chunk ;; openTime c) with
          | Raise e => Some (Raise e)
          | Ok earliest_ts =>
              let chunks' := chunks ++ chunk in
              if earliest_ts <=? start_ts then Some (Ok chunks')
              else
                match utc_as_local (earliest_ts - 60) with
                | Raise e => Some (Raise e)
                | Ok next_end => fetch_loop fuel' next_end chunks'
                end
          end
      end
  end.

Definition merge (chunks : list candle) : result (list candle) :=
  match chunks with
  | [] => Ok []
  | _ =>
      sorted <- sort_by_timestamp chunks ;;
      in_range start_ts end_ts sorted
  end.

Definition fetch_all_candles (fuel : nat) : option (result (list candle)) :=
  match fetch_loop fuel end_ts [] with
  | None => None
  | Some (Raise e) => Some (Raise e)
  | Some (Ok chunks) => Some (merge chunks)
  end.

End Fetch.

(** A machine whose local zone is UTC. *)
Definition utc_machine (t : Z) : result Z := Ok t.

(** Two pages that overlap on the bar of 1736208060. *)
Definition overlapping_pages (_ endAt : Z) : result (list candle) :=
  if endAt =? 1736208200 then
    Ok [bar "1736208120" "94010"; bar "1736208060" "94020"]
  else
    Ok [bar "1736208060" "94021"; bar "1736208000" "94030"].

End Fetcher.

(** ** Methods: a state, and a value or a raised exception

    A method of an object is a function of the object's state that gives
    the state it leaves behind and what it returned or raised; what was
    assigned before an exception stays assigned. *)

Module Method.

Definition t (S A : Type) : Type := S -> S * result A.

Definition ret {S A : Type} (a : A) : t S A := fun s => (s, Ok a).

Definition seq {S A B : Type} (m : t S A) (k : A -> t S B) : t S B :=
  fun s =>
    match m s with
    | (s', Ok a) => k a s'
    | (s', Raise e) => (s', Raise e)
    end.

Definition lift {S A : Type} (r : result A) : t S A := fun s => (s, r).

Definition read {S A : Type} (f : S -> A) : t S A := fun s => (s, Ok (f s)).

Definition assign {S : Type} (f : S -> S) : t S unit := fun s => (f s, Ok tt).

Notation "x <~ m ;; k" := (seq m (fun x => k))
  (at level 100, m at next level, right associativity).
Notation "m ;;; k" := (seq m (fun _ => k))
  (at level 100, right associativity).

End Method.

Import Method.

(** What [get_data] hands over: the [data] object of a candle message.
    The handler adds ['time_received'] to it, so the object is never
    empty; ['candles'] may be missing. *)
Record payload : Type := {
  candles : option candle;
  time_received : string
}.

(** [data['candles']] *)
Definition getitem_candles (data : payload) : result candle :=
  match candles data with
  | Some c => Ok c
  | None => Raise KeyError
  end.

(** The frames of pandas hold the window for printing and trading: the
    timestamps (as integers) and the remaining columns. *)
Record DataFrame : Type := {
  df_index : list Z;
  df_values : list (list string)
}.

(** ** The packaged updater: [LiveDataUpdater]
       (kucoin_candle_spot/live_data_update.py) *)

Module LiveDataUpdater.

Record state : Type := {
  max_candles : Z;
  candle_list : list candle;
  open : option string;
  close : option string;
  high : option string;
  low : option string
}.

Definition set_candle_list (l : list candle) (u : state) : state :=
  {| max_candles := max_candles u; candle_list := l; open := open u;
     close := close u; high := high u; low := low u |}.

Definition set_open (v : string) (u : state) : state :=
  {| max_candles := max_candles u; candle_list := candle_list u; open := Some v;
     close := close u; high := high u; low := low u |}.

Definition set_close (v : string) (u : state) : state :=
  {| max_candles := max_candles u; candle_list := candle_list u; open := open u;
     close := Some v; high := high u; low := low u |}.

Definition set_high (v : string) (u : state) : state :=
  {| max_candles := max_candles u; candle_list := candle_list u; open := open u;
     close := close u; high := Some v; low := low u |}.

Definition set_low (v : string) (u : state) : state :=
  {| max_candles := max_candles u; candle_list := candle_list u; open := open u;
     close := close u; high := high u; low := Some v |}.

Section Methods.

(** [pd.DataFrame(rows, columns=[...])] followed by the conversion of
    the timestamp column with [astype(int)] and [to_datetime], and the
    drop of volume and turnover unless the flag is set. *)
Variable frame : bool -> list candle -> result DataFrame.

Definition add_new_candle (c : candle) : Method.t state unit :=
  assign (fun u => set_candle_list (candle_list u ++ [c]) u) ;;;
  n <~ read (fun u => Z.of_nat (List.length (candle_list u))) ;;
  cap <~ read max_candles ;;
  (if cap <? n
   then assign (fun u => set_candle_list (slice_from (- cap) (candle_list u)) u)
   else ret tt) ;;;
  window <~ read (fun u => slice_from (-100) (candle_list u)) ;;
  _ <~ lift (frame false window) ;;
  ret tt.

Definition update_last_candle (c : candle) : Method.t state unit :=
  l <~ read candle_list ;;
  l' <~ lift (set_last c l) ;;
  assign (set_candle_list l') ;;;
  tail <~ lift (last_item l') ;;
  _ <~ lift (frame false [tail]) ;;
  ret tt.

Definition process_data (data : option payload) : Method.t state unit :=
  match data with
  | None => ret tt
  | Some d =>
      c <~ lift (getitem_candles d) ;;
      o <~ lift (item 1 c) ;; assign (set_open o) ;;;
      cl <~ lift (item 2 c) ;; assign (set_close cl) ;;;
      h <~ lift (item 3 c) ;; assign (set_high h) ;;;
      lo <~ lift (item 4 c) ;; assign (set_low lo) ;;;
      l <~ read candle_list ;;
      match l with
      | [] => add_new_candle c
      | _ =>
          t <~ lift (timestamp_of c) ;;
          tail <~ lift (last_item l) ;;
          t' <~ lift (timestamp_of tail) ;;
          if negb (t =? t')%string then add_new_candle c
          else update_last_candle c
      end
  end.

(** The loop of [start] on the values [get_data] returned, in order;
    an exception leaves the loop and the method. *)
Fixpoint run (deliveries : list (option payload)) : Method.t state unit :=
  match deliveries with
  | [] => ret tt
  | d :: r => process_data d ;;; run r
  end.

End Methods.

(** [LiveDataUpdater(..., max_candles)] once the backfill has returned. *)
Definition make (max_candles : Z) (backfill : list candle) : state :=
  {| max_candles := max_candles; candle_list := backfill; open := None;
     close := None; high := None; low := None |}.

End LiveDataUpdater.

(** ** The script updater: [CandleUpdate] (live_data_update.py) *)

Module CandleUpdate.

(** *** Dates

    A [datetime] is its number of microseconds from the epoch, a
    [timedelta] a number of microseconds; both raise [OverflowError]
    outside their ranges. *)

Definition us_per_second : Z := 1000000.
Definition us_per_day : Z := 86400 * us_per_second.

(** 0001-01-01 00:00:00 and 9999-12-31 23:59:59.999999, in UTC *)
Definition datetime_min : Z := -62135596800 * us_per_second.
Definition datetime_max : Z := 253402300800 * us_per_second - 1.

Definition timedelta_min : Z := -999999999 * us_per_day.
Definition timedelta_max : Z := 1000000000 * us_per_day - 1.

Definition timedelta (unit_us n : Z) : result Z :=
  let d := n * unit_us in
  if (timedelta_min <=? d) && (d <=? timedelta_max) then Ok d
  else Raise OverflowError.

(** [k * delta] *)
Definition timedelta_mul (k delta : Z) : result Z := timedelta delta k.

(** [now - delta] *)
Definition datetime_sub (now delta : Z) : result Z :=
  let d := now - delta in
  if (datetime_min <=? d) && (d <=? datetime_max) then Ok d
  else Raise OverflowError.

(** The seconds a [strftime("%Y-%m-%d %H:%M:%S")] keeps. *)
Definition whole_seconds (dt : Z) : Z := dt / us_per_second.

Definition calculate_start_time_with_bars (timeframe : string) (bars_lookback : Z)
    (now : Z) : result Z :=
  delta <-
    (if endswith timeframe "min" then
       n <- int (drop_right 3 timeframe) ;; timedelta (60 * us_per_second) n
     else if endswith timeframe "hour" then
       n <- int (drop_right 4 timeframe) ;; timedelta (3600 * us_per_second) n
     else if endswith timeframe "day" then
       n <- int (drop_right 3 timeframe) ;; timedelta us_per_day n
     else Raise ValueError) ;;
  back <- timedelta_mul bars_lookback delta ;;
  datetime_sub now back.

(** The seven attributes that hold the last event. *)
Record fields : Type := {
  timestamp : option string;
  open : option string;
  close : option string;
  high : option string;
  low : option string;
  volume : option string;
  turnover : option string
}.

Definition no_fields : fields :=
  {| timestamp := None; open := None; close := None; high := None;
     low := None; volume := None; turnover := None |}.

Record state : Type := {
  bars_lookback : Z;
  candle_list : list candle;
  event : fields
}.

(** What the constructor does outside the process. *)
Inductive effect : Type :=
| FetchAllCandles (start_time end_time : Z).

(** [__init__]: [now] and [now'] are the two readings of the clock,
    [fetch_all] is [self.fetcher.fetch_all_candles()] for the fetcher
    built on the two time strings, from its first line on: the list it
    returns, or the exception it raises, be it of [strptime] on the
    start time before any request or of a request.  The socket client
    is only built; it connects in [start]. *)
Definition init (fetch_all : Z -> Z -> result (list candle))
    (timeframe : string) (lookback : Z) (now now' : Z)
  : list effect * result state :=
  match calculate_start_time_with_bars timeframe lookback now with
  | Raise e => ([], Raise e)
  | Ok start_time =>
      let s := whole_seconds start_time in
      let e := whole_seconds now' in
      ([FetchAllCandles s e],
       l <- fetch_all s e ;;
       Ok {| bars_lookback := lookback; candle_list := l; event := no_fields |})
  end.

Definition set_candle_list (l : list candle) (u : state) : state :=
  {| bars_lookback := bars_lookback u; candle_list := l; event := event u |}.

(** [self.<attribute> = v], by the index of the attribute in the candle. *)
Definition set_field (i : nat) (v : string) (f : fields) : fields :=
  {| timestamp := if (i =? 0)%nat then Some v else timestamp f;
     open := if (i =? 1)%nat then Some v else open f;
     close := if (i =? 2)%nat then Some v else close f;
     high := if (i =? 3)%nat then Some v else high f;
     low := if (i =? 4)%nat then Some v else low f;
     volume := if (i =? 5)%nat then Some v else volume f;
     turnover := if (i =? 6)%nat then Some v else turnover f |}.

Definition store (i : nat) (c : candle) : Method.t fields unit :=
  v <~ lift (item i c) ;; assign (set_field i v).

Definition process_fields (data : option payload) : Method.t fields (option candle) :=
  match data with
  | None => ret None
  | Some d =>
      c <~ lift (getitem_candles d) ;;
      store 0 c ;;; store 1 c ;;; store 2 c ;;; store 3 c ;;;
      store 4 c ;;; store 5 c ;;; store 6 c ;;;
      ret (Some c)
  end.

Definition process_candle_data (data : option payload) : Method.t state (option candle) :=
  fun u =>
    match process_fields data (event u) with
    | (f, r) =>
        ({| bars_lookback := bars_lookback u; candle_list := candle_list u;
            event := f |}, r)
    end.

(** [if candle:] *)
Definition truthy (c : option candle) : option candle :=
  match c with
  | Some (x :: r) => Some (x :: r)
  | _ => None
  end.

Section Methods.

Variable frame : bool -> list candle -> result DataFrame.

(** One turn of the [while True] of [start]. *)
Definition iteration (data : option payload) : Method.t state unit :=
  oc <~ process_candle_data data ;;
  match truthy oc with
  | None => ret tt
  | Some c =>
      t <~ lift (timestamp_of c) ;;
      l <~ read candle_list ;;
      tail <~ lift (last_item l) ;;
      t' <~ lift (timestamp_of tail) ;;
      if negb (t =? t')%string then
        assign (set_candle_list (l ++ [c])) ;;;
        n <~ read (fun u => Z.of_nat (List.length (candle_list u))) ;;
        (if 500 <? n
         then assign (fun u => set_candle_list (slice_from (-500) (candle_list u)) u)
         else ret tt) ;;;
        window <~ read (fun u => slice_from (-100) (candle_list u)) ;;
        _ <~ lift (frame false window) ;;
        ret tt
      else
        l' <~ lift (set_last c l) ;;
        assign (set_candle_list l') ;;;
        tail' <~ lift (last_item l') ;;
        _ <~ lift (frame false [tail']) ;;
        ret tt
  end.

Fixpoint loop (deliveries : list (option payload)) : Method.t state unit :=
  match deliveries with
  | [] => ret tt
  | d :: r => iteration d ;;; loop r
  end.

(** How [start] stands after the deliveries: still in the loop, or
    returned after [except Exception] printed the error. *)
Inductive status : Type :=
| Running
| Stopped (e : exn).

(** [start], given what [self.ws.start()] did. *)
Definition start (ws_start : result unit) (deliveries : list (option payload))
    (u : state) : state * status :=
  match ws_start with
  | Raise e => (u, Stopped e)
  | Ok _ =>
      match loop deliveries u with
      | (u', Ok _) => (u', Running)
      | (u', Raise e) => (u', Stopped e)
      end
  end.

End Methods.

Definition make (lookback : Z) (backfill : list candle) : state :=
  {| bars_lookback := lookback; candle_list := backfill; event := no_fields |}.

End CandleUpdate.

(** ** The polling updater: [CandleUpdate] of
       development/live_data_update_org.py *)

Module CandleUpdateOrg.

Record state : Type := {
  bars_lookback : Z;
  candle_list : list candle;
  df_to_trade : DataFrame;
  event : CandleUpdate.fields
}.

Definition set_candle_list (l : list candle) (u : state) : state :=
  {| bars_lookback := bars_lookback u; candle_list := l;
     df_to_trade := df_to_trade u; event := event u |}.

Definition set_df_to_trade (df : DataFrame) (u : state) : state :=
  {| bars_lookback := bars_lookback u; candle_list := candle_list u;
     df_to_trade := df; event := event u |}.

(** [process_candle_data] is the same method as in the script updater. *)
Definition process_candle_data (data : option payload) : Method.t state (option candle) :=
  fun u =>
    match CandleUpdate.process_fields data (event u) with
    | (f, r) =>
        ({| bars_lookback := bars_lookback u; candle_list := candle_list u;
            df_to_trade := df_to_trade u; event := f |}, r)
    end.

Section Methods.

Variable frame : bool -> list candle -> result DataFrame.

(** The body of the [try] of [new_candle_update]; [data] is what
    [self.ws.get_data()] returned. *)
Definition new_candle_update_body (include_vol_and_turnover : bool)
    (data : option payload) : Method.t state (option DataFrame) :=
  oc <~ process_candle_data data ;;
  match CandleUpdate.truthy oc with
  | None => ret None
  | Some c =>
      t <~ lift (timestamp_of c) ;;
      l <~ read candle_list ;;
      tail <~ lift (last_item l) ;;
      t' <~ lift (timestamp_of tail) ;;
      if negb (t =? t')%string then
        assign (set_candle_list (l ++ [c])) ;;;
        n <~ read (fun u => Z.of_nat (List.length (candle_list u))) ;;
        cap <~ read bars_lookback ;;
        (if cap <? n
         then assign (fun u => set_candle_list (slice_from (- cap) (candle_list u)) u)
         else ret tt) ;;;
        window <~ read (fun u => slice_from (- cap) (candle_list u)) ;;
        df <~ lift (frame include_vol_and_turnover window) ;;
        assign (set_df_to_trade df) ;;;
        ret (Some df)
      else
        l' <~ lift (set_last c l) ;;
        assign (set_candle_list l') ;;;
        ret None
  end.

(** [new_candle_update]: an exception is printed and the method
    returns [None]. *)
Definition new_candle_update (include_vol_and_turnover : bool)
    (data : option payload) (u : state) : state * option DataFrame :=
  match new_candle_update_body include_vol_and_turnover data u with
  | (u', Ok r) => (u', r)
  | (u', Raise _) => (u', None)
  end.

End Methods.

(** The state [__init__] leaves: the backfill and its frame. *)
Definition make (lookback : Z) (backfill : list candle) (df : DataFrame) : state :=
  {| bars_lookback := lookback; candle_list := backfill; df_to_trade := df;
     event := CandleUpdate.no_fields |}.

End CandleUpdateOrg.

(** ** The socket client: [KucoinCandlestickWebSocket]
       (kucoin_candle_spot/ws_websocket_lib.py, and the earlier
       development/ws_simple_update.py) *)

Module WebSocket.

(** What [json.loads] builds.  An object is the list of its members in
    order. *)
#[local] Unset Elimination Schemes.
Inductive json : Type :=
| JNull
| JBool (b : bool)
| JNumber (q : Q)
| JString (s : string)
| JArray (items : list json)
| JObject (members : list (string * json)).
#[local] Set Elimination Schemes.

Fixpoint lookup (k : string) (members : list (string * json)) : option json :=
  match members with
  | [] => None
  | (k', v) :: r => if (k =? k')%string then Some v else lookup k r
  end.

(** [d[k] = v] on a dict: the value of a present key is replaced in
    place, a new key goes last. *)
Fixpoint store (k : string) (v : json) (members : list (string * json))
  : list (string * json) :=
  match members with
  | [] => [(k, v)]
  | (k', v') :: r =>
      if (k =? k')%string then (k, v) :: r else (k', v') :: store k v r
  end.

(** [data.get(k)]; only a dict has the method. *)
Definition get (data : json) (k : string) : result (option json) :=
  match data with
  | JObject members => Ok (lookup k members)
  | _ => Raise AttributeError
  end.

(** [k in data], for a dict *)
Definition contains (data : json) (k : string) : bool :=
  match data with
  | JObject members =>
      match lookup k members with Some _ => true | None => false end
  | _ => false
  end.

(** [data[k]], for a dict *)
Definition getitem (data : json) (k : string) : result json :=
  match data with
  | JObject members =>
      match lookup k members with Some v => Ok v | None => Raise KeyError end
  | _ => Raise TypeError
  end.

(** [obj[k] = v] with a string key: only a dict takes it. *)
Definition setitem (obj : json) (k : string) (v : json) : result json :=
  match obj with
  | JObject members => Ok (JObject (store k v members))
  | _ => Raise TypeError
  end.

(** [v == 'message'] *)
Definition is_message (v : option json) : bool :=
  match v with
  | Some (JString s) => (s =? "message")%string
  | _ => false
  end.

Inductive log_line : Type :=
| WarningQueueFull
| ErrorParse (e : exn)
| ErrorProcessing (e : exn).

Record ConnectionMetrics : Type := {
  message_count : Z;
  error_count : Z;
  connected_at : Q;
  last_message_at : Q
}.

(** [queue.Queue(maxsize)] *)
Record Queue : Type := {
  maxsize : Z;
  items : list json
}.

Definition full (q : Queue) : bool :=
  (0 <? maxsize q) && (maxsize q <=? Z.of_nat (List.length (items q))).

Record state : Type := {
  data_queue : Queue;
  metrics : ConnectionMetrics;
  log : list log_line
}.

Definition set_metrics (m : ConnectionMetrics) (st : state) : state :=
  {| data_queue := data_queue st; metrics := m; log := log st |}.

Definition set_items (l : list json) (st : state) : state :=
  {| data_queue := {| maxsize := maxsize (data_queue st); items := l |};
     metrics := metrics st; log := log st |}.

Definition write_log (line : log_line) (st : state) : state :=
  {| data_queue := data_queue st; metrics := metrics st; log := log st ++ [line] |}.

Definition count_message (m : ConnectionMetrics) : ConnectionMetrics :=
  {| message_count := message_count m + 1; error_count := error_count m;
     connected_at := connected_at m; last_message_at := last_message_at m |}.

Definition stamp_message (now : Q) (m : ConnectionMetrics) : ConnectionMetrics :=
  {| message_count := message_count m; error_count := error_count m;
     connected_at := connected_at m; last_message_at := now |}.

Definition count_error (m : ConnectionMetrics) : ConnectionMetrics :=
  {| message_count := message_count m; error_count := error_count m + 1;
     connected_at := connected_at m; last_message_at := last_message_at m |}.

(** [put_nowait] inside its own [try]: a full queue logs the warning
    and the item is not stored. *)
Definition put_nowait_or_drop (x : json) : Method.t state unit :=
  q <~ read data_queue ;;
  if full q then assign (write_log WarningQueueFull)
  else assign (set_items (items q ++ [x])).

Section Handlers.

(** [json.loads]: the value, or [JSONDecodeError]. *)
Variable json_loads : string -> result json.

(** The [try] block of [_on_message]; [now] is [time.time()] and
    [received] is [datetime.now().isoformat()]. *)
Definition on_message_body (now : Q) (received : string) (message : string)
  : Method.t state unit :=
  data <~ lift (json_loads message) ;;
  ty <~ lift (get data "type") ;;
  if is_message ty && contains data "data" then
    assign (fun st => set_metrics (count_message (metrics st)) st) ;;;
    assign (fun st => set_metrics (stamp_message now (metrics st)) st) ;;;
    candlestick_data <~ lift (getitem data "data") ;;
    candlestick_data' <~ lift (setitem candlestick_data "time_received" (JString received)) ;;
    put_nowait_or_drop candlestick_data'
  else ret tt.

(** [_on_message] of the packaged client: a decode error is logged,
    any other exception is logged and counted. *)
Definition _on_message (now : Q) (received : string) (message : string)
    (st : state) : state :=
  match on_message_body now received message st with
  | (st', Ok _) => st'
  | (st', Raise JSONDecodeError) => write_log (ErrorParse JSONDecodeError) st'
  | (st', Raise e) =>
      let st'' := write_log (ErrorProcessing e) st' in
      set_metrics (count_error (metrics st'')) st''
  end.

(** [on_message] of development/ws_simple_update.py: one handler for
    every exception, which logs and counts; this client keeps no
    [last_message_at]. *)
Definition simple_body (received : string) (message : string)
  : Method.t state unit :=
  data <~ lift (json_loads message) ;;
  ty <~ lift (get data "type") ;;
  if is_message ty && contains data "data" then
    assign (fun st => set_metrics (count_message (metrics st)) st) ;;;
    candlestick_data <~ lift (getitem data "data") ;;
    candlestick_data' <~ lift (setitem candlestick_data "time_received" (JString received)) ;;
    put_nowait_or_drop candlestick_data'
  else ret tt.

Definition on_message (received : string) (message : string) (st : state) : state :=
  match simple_body received message st with
  | (st', Ok _) => st'
  | (st', Raise e) =>
      let st'' := write_log (ErrorProcessing e) st' in
      set_metrics (count_error (metrics st'')) st''
  end.

End Handlers.

(** [_on_error] *)
Definition _on_error (st : state) : state :=
  set_metrics (count_error (metrics st)) st.

(** The state [__init__] builds, with the queue size of the file. *)
Definition make (size : Z) : state :=
  {| data_queue := {| maxsize := size; items := [] |};
     metrics := {| message_count := 0; error_count := 0;
                   connected_at := 0%Q; last_message_at := 0%Q |};
     log := [] |}.

(** [get_data(timeout)] with a timeout: the oldest item leaves the
    queue, or [None] is returned when the queue is still empty at the
    end of the wait. *)
Definition get_data (st : state) : state * option json :=
  match items (data_queue st) with
  | [] => (st, None)
  | x :: r => (set_items r st, Some x)
  end.

(** A message as the socket hands it over, with the two readings of the
    clock the handler takes: [time.time()], [isoformat()] and the text. *)
Record arrival : Type := {
  at_time : Q;
  at_iso : string;
  text : string
}.

(** [_on_message], and [on_message] of the development client, called
    on each message in turn. *)
Fixpoint receive_all (json_loads : string -> result json)
    (arrivals : list arrival) (st : state) : state :=
  match arrivals with
  | [] => st
  | a :: r =>
      receive_all json_loads r
        (_on_message json_loads (at_time a) (at_iso a) (text a) st)
  end.

Fixpoint simple_receive_all (json_loads : string -> result json)
    (arrivals : list arrival) (st : state) : state :=
  match arrivals with
  | [] => st
  | a :: r =>
      simple_receive_all json_loads r
        (on_message json_loads (at_iso a) (text a) st)
  end.

End WebSocket.

(** ** The polling script: [inter_candle_df] and the main loop of
       development/live_data_update_org.py (the same loop is
       check_package.py) *)

Module PollingScript.

(** 00 seconds and 0 microseconds: [dt.replace(second=0, microsecond=0)] *)
Definition floor_minute (dt : Z) : Z :=
  dt - dt mod (60 * CandleUpdate.us_per_second).

(** [calculate_start_time_with_bars] of this file: the branches on the
    timeframe and the subtraction are those of the script updater; the
    start time is then cut to the minute. *)
Definition calculate_start_time_with_bars (timeframe : string) (bars_lookback : Z)
    (now : Z) : result Z :=
  start_time <- CandleUpdate.calculate_start_time_with_bars timeframe bars_lookback now ;;
  Ok (floor_minute start_time).

(** The updater with the attribute [inter_candle_df] adds on its first
    frame. *)
Record state : Type := {
  updater : CandleUpdateOrg.state;
  inter_candle_df_att : option DataFrame
}.

Definition set_updater (u : CandleUpdateOrg.state) (s : state) : state :=
  {| updater := u; inter_candle_df_att := inter_candle_df_att s |}.

Definition set_inter_candle_df_att (df : DataFrame) (s : state) : state :=
  {| updater := updater s; inter_candle_df_att := Some df |}.

(** A method of the updater, run on the updater of the script. *)
Definition on_updater {A : Type} (m : Method.t CandleUpdateOrg.state A)
  : Method.t state A :=
  fun s =>
    match m (updater s) with
    | (u, r) => (set_updater u s, r)
    end.

Section Methods.

Variable frame : bool -> list candle -> result DataFrame.

(** [new_candle_update]; it catches its exceptions. *)
Definition new_candle_update (include_vol_and_turnover : bool)
    (data : option payload) : Method.t state (option DataFrame) :=
  fun s =>
    match CandleUpdateOrg.new_candle_update frame include_vol_and_turnover data
            (updater s) with
    | (u, r) => (set_updater u s, Ok r)
    end.

(** [inter_candle_df]: no [try] here, an exception leaves the method. *)
Definition inter_candle_df (include_vol_and_turnover : bool)
    (data : option payload) : Method.t state (option DataFrame) :=
  oc <~ on_updater (CandleUpdateOrg.process_candle_data data) ;;
  match CandleUpdate.truthy oc with
  | None => ret None
  | Some c =>
      df_temp <~ lift (frame include_vol_and_turnover [c]) ;;
      assign (set_inter_candle_df_att df_temp) ;;;
      ret (Some df_temp)
  end.

(** The [while True] of the script: each of the two calls takes the
    next item of the queue ([get_data()] waits for one). *)
Fixpoint main_loop (deliveries : list payload) : Method.t state unit :=
  match deliveries with
  | [] => ret tt
  | d :: rest =>
      _ <~ new_candle_update false (Some d) ;;
      match rest with
      | [] => ret tt
      | d' :: rest' =>
          _ <~ inter_candle_df false (Some d') ;;
          main_loop rest'
      end
  end.

(** [new_candle_update] alone, called on each delivery. *)
Fixpoint poll_all (deliveries : list payload) (u : CandleUpdateOrg.state)
  : CandleUpdateOrg.state :=
  match deliveries with
  | [] => u
  | d :: rest =>
      poll_all rest (fst (CandleUpdateOrg.new_candle_update frame false (Some d) u))
  end.

End Methods.

End PollingScript.

(** ** The futures request: [KuCoinDataFetcher._fetch_futures_klines]
       (fetch_futures_spot.py) *)

Module FuturesFetcher.

Import WebSocket.

(** [if data:] on a decoded reply *)
Definition truthy (data : json) : bool :=
  match data with
  | JNull => false
  | JBool b => b
  | JNumber q => negb (Qnum q =? 0)
  | JString s => negb (s =? "")%string
  | JArray l => match l with [] => false | _ => true end
  | JObject m => match m with [] => false | _ => true end
  end.

(** [k in data]: a key of a dict, an element of a list, a part of a
    string; other values are not containers. *)
Definition is_in (k : string) (data : json) : result bool :=
  match data with
  | JObject m => Ok (match lookup k m with Some _ => true | None => false end)
  | JArray l =>
      Ok (existsb (fun v => match v with
                            | JString s => (s =? k)%string
                            | _ => false
                            end) l)
  | JString s => Ok (match index 0 k s with Some _ => true | None => false end)
  | _ => Raise TypeError
  end.

Section Request.

(** [requests.get] on the kline endpoint with the granularity and the
    two bounds in milliseconds, then [raise_for_status] and [json()]. *)
Variable get_klines : Z -> Z -> Z -> result json.

(** [start_ts] and [end_ts] are the [mktime] of the two time strings. *)
Definition _fetch_futures_klines (timeframe : string) (start_ts end_ts : Z)
  : result json :=
  let from_ms := start_ts * 1000 in
  let to_ms := end_ts * 1000 in
  granularity <- int timeframe ;;
  data <- get_klines granularity from_ms to_ms ;;
  missing <- (if truthy data then (b <- is_in "data" data ;; Ok (negb b))
              else Ok true) ;;
  if (missing : bool) then Raise (RequestError "Futures API error")
  else getitem data "data".

End Request.

End FuturesFetcher.

(** ** Vocabulary of the specification *)

(** Two candles in non-decreasing order of their timestamp strings. *)
Definition ts_le (a b : candle) : Prop :=
  exists s t, timestamp_of a = Ok s /\ timestamp_of b = Ok t /\ String.leb s t = true.

(** Two candles in non-decreasing, and in increasing, order of their open
    times. *)
Definition open_le (a b : candle) : Prop :=
  exists x y, openTime a = Ok x /\ openTime b = Ok y /\ x <= y.

Definition open_ltb (a b : candle) : bool :=
  match openTime a, openTime b with
  | Ok x, Ok y => x <? y
  | _, _ => false
  end.

(** A series whose open times are strictly increasing. *)
Fixpoint increasing (l : list candle) : bool :=
  match l with
  | a :: r =>
      match r with
      | b :: _ => open_ltb a b && increasing r
      | [] => true
      end
  | [] => true
  end.

(** A timestamp written with decimal digits only. *)
Fixpoint all_digits (s : string) : bool :=
  match s with
  | EmptyString => true
  | String c r => is_digit c && all_digits r
  end.

Definition plain_digits (s : string) : bool :=
  match s with
  | EmptyString => false
  | _ => all_digits s
  end.


(** The candle's open time lies in the requested range. *)
Definition within (start_ts end_ts : Z) (c : candle) : bool :=
  match openTime c with
  | Ok t => (start_ts <=? t) && (t <=? end_ts)
  | Raise _ => false
  end.

(** A window of pandas for well-formed rows: seven columns each and an
    integer timestamp; other rows are refused. *)
Fixpoint sample_rows (include_vol_and_turnover : bool) (rows : list candle)
  : result (list Z * list (list string)) :=
  match rows with
  | [] => Ok ([], [])
  | c :: r =>
      t <- openTime c ;;
      rest <- sample_rows include_vol_and_turnover r ;;
      if (List.length c =? 7)%nat then
        Ok (t :: fst rest,
            (if include_vol_and_turnover then tl c else firstn 4 (tl c)) :: snd rest)
      else Raise ValueError
  end.

Definition sample_frame (include_vol_and_turnover : bool) (rows : list candle)
  : result DataFrame :=
  r <- sample_rows include_vol_and_turnover rows ;;
  Ok {| df_index := fst r; df_values := snd r |}.

(** Two keyed candles in non-decreasing order of their keys. *)
Definition key_le (x y : string * candle) : Prop :=
  String.leb (fst x) (fst y) = true.

(** Each key of [keyed] is the timestamp of its candle. *)
Definition well_keyed (x : string * candle) : Prop :=
  timestamp_of (snd x) = Ok (fst x).

(** The number a list of digits writes. *)
Fixpoint digits_value (l : list ascii) : Z :=
  match l with
  | [] => 0
  | c :: r => digit_val c * 10 ^ Z.of_nat (List.length r) + digits_value r
  end.

(** Pages whose timestamps have nine and ten digits. *)
Definition long_pages (_ _ : Z) : result (list candle) :=
  Ok [bar "1000000000" "94010"; bar "999999999" "94020"].

(** Pages whose timestamps have one and two digits. *)
Definition short_pages (_ _ : Z) : result (list candle) :=
  Ok [bar "10" "94010"; bar "1" "94020"].

(** A bar appended to a series kept to its last [cap] bars. *)
Definition extend (cap : Z) (l : list candle) (c : candle) : list candle :=
  let l' := l ++ [c] in
  if cap <? Z.of_nat (List.length l') then slice_from (- cap) l' else l'.

(** The last bar replaced. *)
Definition revise (l : list candle) (c : candle) : list candle :=
  removelast l ++ [c].

(** The event's timestamp string differs from, or is, the one of the
    last bar. *)
Definition differs (c : candle) (l : list candle) : Prop :=
  exists tail t t',
    last_item l = Ok tail /\ timestamp_of c = Ok t /\
    timestamp_of tail = Ok t' /\ t <> t'.

Definition agrees (c : candle) (l : list candle) : Prop :=
  exists tail t,
    last_item l = Ok tail /\ timestamp_of c = Ok t /\ timestamp_of tail = Ok t.

(** What one delivery can do to the series of an updater that keeps
    [cap] bars. *)
Inductive transition (cap : Z) (l : list candle) (d : option payload)
  : list candle -> Prop :=
| Untouched : transition cap l d l
| Extended (p : payload) (c : candle) :
    d = Some p -> candles p = Some c -> l = [] \/ differs c l ->
    transition cap l d (extend cap l c)
| Revised (p : payload) (c : candle) :
    d = Some p -> candles p = Some c -> agrees c l ->
    transition cap l d (revise l c).

(** The states a loop goes through, one per delivery, up to the first
    exception. *)
Fixpoint trace {S : Type} (step : option payload -> Method.t S unit)
    (deliveries : list (option payload)) (u : S) : list S :=
  match deliveries with
  | [] => []
  | d :: r =>
      match step d u with
      | (u', Ok _) => u' :: trace step r u'
      | (u', Raise _) => [u']
      end
  end.

Definition same_timestamp (a b : candle) : bool :=
  match timestamp_of a, timestamp_of b with
  | Ok s, Ok t => (s =? t)%string
  | _, _ => false
  end.

(** The delivery is not stale: it carries no candle, or the series is
    empty, or the candle has the timestamp of the last bar or a later
    open time. *)
Definition fresh (l : list candle) (d : option payload) : bool :=
  match d with
  | Some p =>
      match candles p, last_item l with
      | Some c, Ok tail => same_timestamp c tail || open_ltb tail c
      | _, _ => true
      end
  | None => true
  end.

(** Every delivery of the run is fresh for the series it meets. *)
Fixpoint all_fresh {S : Type} (step : option payload -> Method.t S unit)
    (series : S -> list candle) (deliveries : list (option payload)) (u : S) : bool :=
  match deliveries with
  | [] => true
  | d :: r =>
      fresh (series u) d &&
      match step d u with
      | (u', Ok _) => all_fresh step series r u'
      | (_, Raise _) => true
      end
  end.

(** The delivery carries a candle whose timestamp string differs from
    the one of the last bar. *)
Definition extends (l : list candle) (d : option payload) : bool :=
  match d with
  | Some p =>
      match candles p, last_item l with
      | Some c, Ok tail =>
          match timestamp_of c, timestamp_of tail with
          | Ok t, Ok t' => negb (t =? t')%string
          | _, _ => false
          end
      | _, _ => false
      end
  | None => false
  end.

(** The series an updater that keeps [cap] bars leaves after an event
    with candle [c]; [on_empty] tells whether it appends to an empty
    series. *)
Definition merged (cap : Z) (on_empty : bool) (l : list candle) (c : candle)
  : list candle :=
  match l with
  | [] => if on_empty then extend cap l c else l
  | _ =>
      match last_item l, timestamp_of c with
      | Ok tail, Ok t =>
          match timestamp_of tail with
          | Ok t' => if negb (t =? t')%string then extend cap l c else revise l c
          | Raise _ => l
          end
      | _, _ => l
      end
  end.

(** Sample data: three backfilled bars and a delivery. *)
Definition backfilled : list candle :=
  [bar "1736208000" "94010"; bar "1736208060" "94020"; bar "1736208120" "94030"].

Definition delivery (t close : string) : option payload :=
  Some {| candles := Some (bar t close);
          time_received := "2025-01-07T00:02:03.000321" |}.

(** The frame [build_dataframe] makes of the three backfilled bars: the
    four prices are floats, written here as Python prints them, and
    volume and turnover are kept. *)
Definition backfilled_frame : DataFrame :=
  {| df_index := [1736208000; 1736208060; 1736208120];
     df_values := [["94000.1"; "94010.0"; "94100.0"; "93900.5"; "12.5"; "1175000"];
                   ["94000.1"; "94020.0"; "94100.0"; "93900.5"; "12.5"; "1175000"];
                   ["94000.1"; "94030.0"; "94100.0"; "93900.5"; "12.5"; "1175000"]] |}.

(** A candle message of the feed and its decoded form. *)
Definition dq : string := String (ascii_of_nat 34) EmptyString.

Definition quoted (s : string) : string := dq ++ s ++ dq.

Definition candle_message : string :=
  "{" ++ quoted "type" ++ ":" ++ quoted "message" ++ ","
      ++ quoted "topic" ++ ":" ++ quoted "/market/candles:BTC-USDT_1min" ++ ","
      ++ quoted "data" ++ ":{" ++ quoted "symbol" ++ ":" ++ quoted "BTC-USDT" ++ ","
      ++ quoted "candles" ++ ":[" ++ quoted "1736208060" ++ "," ++ quoted "94000.1" ++ ","
      ++ quoted "94020" ++ "," ++ quoted "94100" ++ "," ++ quoted "93900.5" ++ ","
      ++ quoted "12.5" ++ "," ++ quoted "1175000" ++ "]}}".

Definition candle_message_value : WebSocket.json :=
  WebSocket.JObject
    [("type", WebSocket.JString "message");
     ("topic", WebSocket.JString "/market/candles:BTC-USDT_1min");
     ("data", WebSocket.JObject
        [("symbol", WebSocket.JString "BTC-USDT");
         ("candles", WebSocket.JArray
            (map WebSocket.JString
               ["1736208060"; "94000.1"; "94020"; "94100"; "93900.5"; "12.5"; "1175000"]))])].

(** [json.loads] on the two sample texts: the candle message decodes,
    the text [not json] does not. *)
Definition sample_loads (s : string) : result WebSocket.json :=
  if (s =? candle_message)%string then Ok candle_message_value
  else Raise JSONDecodeError.

(** A client whose queue holds its thousand items. *)
Definition full_state : WebSocket.state :=
  {| WebSocket.data_queue :=
       {| WebSocket.maxsize := 1000;
          WebSocket.items := repeat (WebSocket.JObject []) 1000 |};
     WebSocket.metrics := WebSocket.metrics (WebSocket.make 1000);
     WebSocket.log := [] |}.

(** The interval units the constructor reads, with their length in
    microseconds. *)
Definition units : list (string * Z) :=
  [("min", 60 * CandleUpdate.us_per_second);
   ("hour", 3600 * CandleUpdate.us_per_second);
   ("day", CandleUpdate.us_per_day)].

(** A supported interval: a text [int] reads, followed by a unit. *)
Definition supported (timeframe : string) : Prop :=
  exists (p : string) (n : Z) (name : string) (us : Z),
    In (name, us) units /\ timeframe = (p ++ name)%string /\ int p = Ok n.

(** Text of ASCII characters, on which [int] is the interpreter's. *)
Definition ascii_text (s : string) : bool :=
  forallb (fun c => (nat_of_ascii c <? 128)%nat) (list_ascii_of_string s).

(** The start time for a count [n] of units of [us] microseconds. *)
Definition start_time_for (us n lookback now : Z) : result Z :=
  delta <- CandleUpdate.timedelta us n ;;
  back <- CandleUpdate.timedelta_mul lookback delta ;;
  CandleUpdate.datetime_sub now back.

(** A backfill of the three sample bars, whatever the range. *)
Definition sample_fetch_all (_ _ : Z) : result (list candle) := Ok backfilled.

(** Two candles in increasing order of their timestamp strings. *)
Definition ts_lt (a b : candle) : Prop :=
  exists s t, timestamp_of a = Ok s /\ timestamp_of b = Ok t /\ String.ltb s t = true.

(** The candle has an open time, and it lies between the two bounds. *)
Definition opens_within (start_ts end_ts : Z) (c : candle) : Prop :=
  exists t, openTime c = Ok t /\ start_ts <= t <= end_ts.

(** The client after a candle message was counted, and after an
    exception was logged and counted. *)
Definition counted (now : Q) (st : WebSocket.state) : WebSocket.state :=
  WebSocket.set_metrics
    (WebSocket.stamp_message now (WebSocket.count_message (WebSocket.metrics st))) st.

Definition errored (e : exn) (st : WebSocket.state) : WebSocket.state :=
  WebSocket.set_metrics
    (WebSocket.count_error (WebSocket.metrics st))
    (WebSocket.write_log (WebSocket.ErrorProcessing e) st).

(** The data object of a message with the time of receipt written in. *)
Definition stamped (received : string) (obj : list (string * WebSocket.json))
  : WebSocket.json :=
  WebSocket.JObject (WebSocket.store "time_received" (WebSocket.JString received) obj).

(** The text is one [json.loads] cannot decode. *)
Definition undecodable (json_loads : string -> result WebSocket.json)
    (a : WebSocket.arrival) : bool :=
  match json_loads (WebSocket.text a) with
  | Raise JSONDecodeError => true
  | _ => false
  end.

(** A decoded message is a candle message with the data object [obj]. *)
Definition candle_data (v : WebSocket.json) (obj : list (string * WebSocket.json))
  : Prop :=
  exists members,
    v = WebSocket.JObject members /\
    WebSocket.lookup "type" members = Some (WebSocket.JString "message") /\
    WebSocket.lookup "data" members = Some (WebSocket.JObject obj).

(** A candle message whose data is an empty array, its decoded form,
    and [json.loads] on this text. *)
Definition array_message : string :=
  "{" ++ quoted "type" ++ ":" ++ quoted "message" ++ ","
      ++ quoted "data" ++ ":[]}".

Definition array_message_value : WebSocket.json :=
  WebSocket.JObject
    [("type", WebSocket.JString "message"); ("data", WebSocket.JArray [])].

Definition array_loads (s : string) : result WebSocket.json :=
  if (s =? array_message)%string then Ok array_message_value
  else Raise JSONDecodeError.

(** The candle message as it arrives at the handler. *)
Definition candle_arrival : WebSocket.arrival :=
  {| WebSocket.at_time := 17362080605 # 10;
     WebSocket.at_iso := "2025-01-07T00:01:00.500000";
     WebSocket.text := candle_message |}.

(** The candles a list of deliveries carries. *)
Fixpoint delivered_candles (deliveries : list (option payload)) : list candle :=
  match deliveries with
  | [] => []
  | Some p :: r =>
      match candles p with
      | Some c => c :: delivered_candles r
      | None => delivered_candles r
      end
  | None :: r => delivered_candles r
  end.

(** The attribute of the last event that holds field [i] of a candle. *)
Definition field_at (i : nat) (f : CandleUpdate.fields) : option string :=
  match i with
  | 0%nat => CandleUpdate.timestamp f
  | 1%nat => CandleUpdate.open f
  | 2%nat => CandleUpdate.close f
  | 3%nat => CandleUpdate.high f
  | 4%nat => CandleUpdate.low f
  | 5%nat => CandleUpdate.volume f
  | _ => CandleUpdate.turnover f
  end.

(** The first, third, fifth, ... delivery. *)
Fixpoint odds {A : Type} (l : list A) : list A :=
  match l with
  | [] => []
  | x :: r =>
      x :: match r with
           | [] => []
           | _ :: r' => odds r'
           end
  end.

(** The series [new_candle_update] leaves for a payload. *)
Definition poll_series (cap : Z) (l : list candle) (p : payload) : list candle :=
  match candles p with
  | Some c => if (7 <=? List.length c)%nat then merged cap false l c else l
  | None => l
  end.

(** Two polling updaters with the same capacity and the same series. *)
Definition same_window (u u' : CandleUpdateOrg.state) : Prop :=
  CandleUpdateOrg.bars_lookback u = CandleUpdateOrg.bars_lookback u' /\
  CandleUpdateOrg.candle_list u = CandleUpdateOrg.candle_list u'.

(** The payload of a delivery, and the script on the three backfilled
    bars. *)
Definition sample_payload (t close : string) : payload :=
  {| candles := Some (bar t close);
     time_received := "2025-01-07T00:02:03.000321" |}.

Definition sample_script : PollingScript.state :=
  {| PollingScript.updater := CandleUpdateOrg.make 3 backfilled backfilled_frame;
     PollingScript.inter_candle_df_att := None |}.

(** A frame builder that fails on every window. *)
Definition failing_frame (_ : bool) (_ : list candle) : result DataFrame :=
  Raise ValueError.

(** A futures endpoint that answers every request with no klines. *)
Definition sample_klines (_ _ _ : Z) : result WebSocket.json :=
  Ok (WebSocket.JObject [("code", WebSocket.JString "200000");
                         ("data", WebSocket.JArray [])]).

(** * Properties *)

Example int_plain : int "1736208060" = Ok 1736208060.
Proof. reflexivity. Qed.

Example int_decorated : int "  -1_000 " = Ok (-1000).
Proof. reflexivity. Qed.

Example int_refused : int "12a" = Raise ValueError /\ int "" = Raise ValueError /\ int "1__0" = Raise ValueError.
Proof. repeat split. Qed.

(** The file separator is white space for [str.strip], not for [int]. *)
Example int_separator_refused :
  int (String (ascii_of_nat 28) "15") = Raise ValueError /\
  int (String (ascii_of_nat 9) "15") = Ok 15.
Proof. split; reflexivity. Qed.

Example slice_from_last_two : slice_from (-2) [1; 2; 3] = [2; 3].
Proof. reflexivity. Qed.

Example slice_from_minus_zero : slice_from (- 0) [1; 2; 3] = [1; 2; 3].
Proof. reflexivity. Qed.

Example drop_right_unit : drop_right 3 "15min" = "15" /\ endswith "15min" "min" = true.
Proof. split; reflexivity. Qed.

Example overlapping_pages_merged :
  Fetcher.fetch_all_candles Fetcher.overlapping_pages Fetcher.utc_machine 1736208000 1736208200 5
  = Some (Ok [bar "1736208000" "94030"; bar "1736208060" "94020";
              bar "1736208060" "94021"; bar "1736208120" "94010"]).
Proof. vm_compute. reflexivity. Qed.


(** ** Order of strings *)




Lemma string_leb_trans (a b c : string) :
  String.leb a b = true -> String.leb b c = true -> String.leb a c = true.
Proof.
  unfold String.leb.
  revert b c.
  induction a as [|x a IH]; intros [|y b] [|z c]; simpl; try congruence.
  unfold Ascii.compare.
  destruct (N.compare_spec (N_of_ascii x) (N_of_ascii y)) as [Hxy|Hxy|Hxy];
    destruct (N.compare_spec (N_of_ascii y) (N_of_ascii z)) as [Hyz|Hyz|Hyz];
    destruct (N.compare_spec (N_of_ascii x) (N_of_ascii z)) as [Hxz|Hxz|Hxz];
    try congruence; try lia; intros; auto.
  now apply (IH b c).
Qed.

Lemma string_leb_false_flip (a b : string) :
  String.leb a b = false -> String.leb b a = true.
Proof.
  intros H. destruct (String.leb_total a b) as [H1|H1]; congruence.
Qed.

(** ** The sort of the backfill *)

Module FetcherFacts.

Import Fetcher.

Lemma insert_keyed_perm (x : string * candle) (l : list (string * candle)) :
  Permutation (insert_keyed x l) (x :: l).
Proof.
  induction l as [|y r IH]; simpl; [apply Permutation_refl|].
  destruct (String.leb (fst x) (fst y)); [apply Permutation_refl|].
  eapply perm_trans; [apply perm_skip, IH | apply perm_swap].
Qed.

Lemma sort_keyed_perm (l : list (string * candle)) :
  Permutation (sort_keyed l) l.
Proof.
  induction l as [|x r IH]; simpl; [constructor|].
  eapply perm_trans; [apply insert_keyed_perm | now apply perm_skip].
Qed.

Lemma insert_keyed_sorted (x : string * candle) (l : list (string * candle)) :
  StronglySorted key_le l -> StronglySorted key_le (insert_keyed x l).
Proof.
  induction 1 as [|y r Hs IH Hall]; simpl.
  - repeat constructor.
  - destruct (String.leb (fst x) (fst y)) eqn:E.
    + constructor; [now constructor|].
      constructor; [exact E|].
      eapply Forall_impl; [|exact Hall].
      intros z Hz. unfold key_le in *. eapply string_leb_trans; eauto.
    + constructor; [exact IH|].
      eapply Permutation_Forall; [apply Permutation_sym, insert_keyed_perm|].
      constructor; [|exact Hall].
      unfold key_le. now apply string_leb_false_flip.
Qed.

Lemma sort_keyed_sorted (l : list (string * candle)) :
  StronglySorted key_le (sort_keyed l).
Proof.
  induction l as [|x r IH]; simpl; [constructor|].
  now apply insert_keyed_sorted.
Qed.




Lemma filter_strongly_sorted {A : Type} (R : A -> A -> Prop) (p : A -> bool)
    (l : list A) :
  StronglySorted R l -> StronglySorted R (filter p l).
Proof.
  induction 1 as [|x l Hs IH Hall]; simpl; [constructor|].
  destruct (p x); [|exact IH].
  constructor; [exact IH|].
  apply Forall_forall. intros y Hy. apply filter_In in Hy.
  rewrite Forall_forall in Hall. now apply Hall.
Qed.


Lemma keyed_ok (chunks : list candle) (kl : list (string * candle)) :
  keyed chunks = Ok kl -> map snd kl = chunks /\ Forall well_keyed kl.
Proof.
  revert kl. induction chunks as [|c r IH]; simpl; intros kl H.
  - inversion H. split; constructor.
  - destruct (timestamp_of c) as [k|e] eqn:Hk; simpl in H; [|discriminate].
    destruct (keyed r) as [kr|e]; simpl in H; [|discriminate].
    inversion H; subst. destruct (IH kr eq_refl) as [Hm Hf].
    split; [simpl; now rewrite Hm|]. constructor; [exact Hk|exact Hf].
Qed.

Lemma in_range_ok (start_ts end_ts : Z) (l l' : list candle) :
  in_range start_ts end_ts l = Ok l' -> l' = filter (within start_ts end_ts) l.
Proof.
  revert l'. induction l as [|c r IH]; simpl; intros l' H.
  - now inversion H.
  - unfold within at 1.
    destruct (openTime c) as [t|e]; simpl in H; [|discriminate].
    destruct (in_range start_ts end_ts r) as [rest|e]; simpl in H; [|discriminate].
    inversion H; subst. rewrite (IH rest eq_refl).
    now destruct ((start_ts <=? t) && (t <=? end_ts)).
Qed.

Lemma merge_ok (start_ts end_ts : Z) (chunks l : list candle) :
  merge start_ts end_ts chunks = Ok l ->
  exists kl, keyed chunks = Ok kl /\
             l = filter (within start_ts end_ts) (map snd (sort_keyed kl)).
Proof.
  destruct chunks as [|c r].
  - simpl. intros H. inversion H. exists []. now split.
  - unfold merge, sort_by_timestamp.
    destruct (keyed (c :: r)) as [kl|e]; simpl; [|discriminate].
    intros H. apply in_range_ok in H. exists kl. now split.
Qed.

Lemma fetch_all_candles_ok (server : Z -> Z -> result (list candle))
    (tz : Z -> result Z) (start_ts end_ts : Z) (fuel : nat) (l : list candle) :
  fetch_all_candles server tz start_ts end_ts fuel = Some (Ok l) ->
  exists chunks,
    fetch_loop server tz start_ts fuel end_ts [] = Some (Ok chunks) /\
    merge start_ts end_ts chunks = Ok l.
Proof.
  unfold fetch_all_candles.
  destruct (fetch_loop server tz start_ts fuel end_ts []) as [[chunks|e]|];
    try discriminate.
  intros H. exists chunks. split; [reflexivity|]. now inversion H.
Qed.

Lemma sorted_keys_sorted_candles (kl : list (string * candle)) :
  Forall well_keyed kl -> StronglySorted key_le kl ->
  StronglySorted ts_le (map snd kl).
Proof.
  intros Hk Hs. induction Hs as [|x l Hs IH Hall]; simpl; [constructor|].
  inversion Hk as [|? ? Hx Hl]; subst.
  constructor; [now apply IH|].
  apply Forall_forall. intros c Hc. apply in_map_iff in Hc.
  destruct Hc as [y [<- Hy]].
  rewrite Forall_forall in Hall, Hl.
  exists (fst x), (fst y). repeat split; [exact Hx|now apply Hl|now apply Hall].
Qed.

End FetcherFacts.

(** ** [int] on plain digit strings *)

Module IntFacts.

Lemma all_digits_forallb (s : string) :
  all_digits s = forallb is_digit (list_ascii_of_string s).
Proof. induction s as [|c s IH]; simpl; [reflexivity|now rewrite IH]. Qed.

Lemma length_list_ascii (s : string) :
  List.length (list_ascii_of_string s) = String.length s.
Proof. induction s as [|c s IH]; simpl; [reflexivity|now rewrite IH]. Qed.

Lemma digit_val_bounds (c : ascii) : is_digit c = true -> 0 <= digit_val c <= 9.
Proof.
  unfold is_digit, digit_val. generalize (nat_of_ascii c) as n. intros n H.
  apply andb_true_iff in H. destruct H as [H1 H2].
  apply Nat.leb_le in H1, H2. lia.
Qed.

Lemma digit_not_space (c : ascii) : is_digit c = true -> is_space c = false.
Proof.
  unfold is_digit, is_space. generalize (nat_of_ascii c) as n. intros n H.
  apply andb_true_iff in H. destruct H as [H1 H2].
  apply Nat.leb_le in H1, H2.
  apply orb_false_iff. split.
  - apply andb_false_iff. right. apply Nat.leb_gt. lia.
  - apply Nat.eqb_neq. lia.
Qed.

Lemma digit_not_sign (c : ascii) :
  is_digit c = true -> Ascii.eqb c "-" = false /\ Ascii.eqb c "+" = false.
Proof.
  intros H. split.
  - destruct (Ascii.eqb_spec c "-") as [->|]; [discriminate H|reflexivity].
  - destruct (Ascii.eqb_spec c "+") as [->|]; [discriminate H|reflexivity].
Qed.

Lemma value_bounds (l : list ascii) :
  forallb is_digit l = true -> 0 <= digits_value l < 10 ^ Z.of_nat (List.length l).
Proof.
  induction l as [|c r IH]; simpl digits_value; intros H.
  - simpl. lia.
  - simpl in H. apply andb_true_iff in H. destruct H as [Hc Hr].
    specialize (IH Hr). pose proof (digit_val_bounds c Hc) as Hd.
    cbn [List.length]. rewrite Nat2Z.inj_succ, Z.pow_succ_r by lia.
    nia.
Qed.

Lemma digits_from_plain (l : list ascii) (acc : Z) (n : nat) :
  forallb is_digit l = true ->
  digits_from acc n l
  = Some (acc * 10 ^ Z.of_nat (List.length l) + digits_value l, (n + List.length l)%nat).
Proof.
  revert acc n. induction l as [|c r IH]; intros acc n H.
  - simpl. f_equal. f_equal; [lia|]. lia.
  - simpl in H. apply andb_true_iff in H. destruct H as [Hc Hr].
    cbn [digits_from]. rewrite Hc, (IH _ _ Hr).
    cbn [List.length digits_value]. rewrite Nat2Z.inj_succ, Z.pow_succ_r by lia.
    f_equal. f_equal; [ring|lia].
Qed.

Lemma lstrip_digit (c : ascii) (r : list ascii) :
  is_digit c = true -> lstrip (c :: r) = c :: r.
Proof. intros H. simpl. now rewrite (digit_not_space c H). Qed.

Lemma strip_plain (l : list ascii) :
  forallb is_digit l = true -> strip l = l.
Proof.
  intros H. unfold strip.
  assert (Hl : lstrip l = l).
  { destruct l as [|c r]; [reflexivity|]. simpl in H.
    apply andb_true_iff in H. now apply lstrip_digit. }
  rewrite Hl.
  assert (Hr : lstrip (rev l) = rev l).
  { assert (Hd : forallb is_digit (rev l) = true).
    { apply forallb_forall. intros x Hx. apply in_rev in Hx.
      rewrite forallb_forall in H. now apply H. }
    destruct (rev l) as [|c r]; [reflexivity|]. simpl in Hd.
    apply andb_true_iff in Hd. now apply lstrip_digit. }
  rewrite Hr. apply rev_involutive.
Qed.

(** [int] of a plain digit string is the number it writes. *)
Lemma int_plain_digits (s : string) (z : Z) :
  plain_digits s = true -> int s = Ok z -> z = digits_value (list_ascii_of_string s).
Proof.
  intros Hp. unfold int, int_opt.
  destruct s as [|c s]; [discriminate Hp|].
  simpl in Hp. rewrite all_digits_forallb in Hp.
  apply andb_true_iff in Hp. destruct Hp as [Hc Hs].
  assert (Hall : forallb is_digit (list_ascii_of_string (String c s)) = true).
  { simpl. now rewrite Hc, Hs. }
  rewrite (strip_plain _ Hall). simpl list_ascii_of_string.
  destruct (digit_not_sign c Hc) as [-> ->].
  unfold magnitude. rewrite Hc, (digits_from_plain _ _ _ Hs).
  destruct (_ <=? int_max_str_digits)%nat; intros H; inversion H.
  reflexivity.
Qed.

Lemma digit_val_compare (c d : ascii) :
  match Ascii.compare c d with
  | Eq => c = d
  | Lt => digit_val c < digit_val d
  | Gt => digit_val d < digit_val c
  end.
Proof.
  destruct (Ascii.compare c d) eqn:E.
  - now apply Ascii.compare_eq_iff.
  - unfold Ascii.compare in E.
    unfold digit_val, nat_of_ascii. rewrite !N_nat_Z.
    revert E. generalize (N_of_ascii c), (N_of_ascii d).
    intros n m E. change (n < m)%N in E. lia.
  - unfold Ascii.compare in E.
    unfold digit_val, nat_of_ascii. rewrite !N_nat_Z.
    revert E. generalize (N_of_ascii c), (N_of_ascii d).
    intros n m E. change (n > m)%N in E. lia.
Qed.

(** On digit strings of one length the order of the strings is the
    order of the numbers. *)
Lemma leb_value (s t : string) :
  all_digits s = true -> all_digits t = true ->
  String.length s = String.length t ->
  String.leb s t = true ->
  digits_value (list_ascii_of_string s) <= digits_value (list_ascii_of_string t).
Proof.
  unfold String.leb. revert t.
  induction s as [|c s IH]; intros [|d t]; simpl; try discriminate; try lia.
  intros Hs Ht Hlen Hcmp.
  apply andb_true_iff in Hs, Ht. destruct Hs as [Hc Hs], Ht as [Hd Ht].
  injection Hlen as Hlen.
  rewrite !length_list_ascii, Hlen.
  rewrite all_digits_forallb in Hs, Ht.
  pose proof (value_bounds _ Hs) as Bs. pose proof (value_bounds _ Ht) as Bt.
  rewrite length_list_ascii in Bs, Bt. rewrite Hlen in Bs.
  rewrite <- all_digits_forallb in Hs, Ht.
  pose proof (digit_val_compare c d) as Hcd.
  destruct (Ascii.compare c d).
  - subst d. specialize (IH t Hs Ht Hlen Hcmp). lia.
  - nia.
  - discriminate Hcmp.
Qed.

Lemma plain_digits_all (s : string) : plain_digits s = true -> all_digits s = true.
Proof. destruct s; [discriminate|auto]. Qed.

Lemma int_order_plain (s t : string) (x y : Z) :
  plain_digits s = true -> plain_digits t = true ->
  String.length s = String.length t ->
  int s = Ok x -> int t = Ok y ->
  String.leb s t = true -> x <= y.
Proof.
  intros Hs Ht Hlen Hx Hy Hle.
  rewrite (int_plain_digits s x Hs Hx), (int_plain_digits t y Ht Hy).
  apply leb_value; auto using plain_digits_all.
Qed.

End IntFacts.

(** ** The backfill against the specification *)

Module Backfill.

Import Fetcher FetcherFacts.

Lemma strongly_sorted_impl_in {A : Type} (R R' : A -> A -> Prop) (l : list A) :
  (forall a b, In a l -> In b l -> R a b -> R' a b) ->
  StronglySorted R l -> StronglySorted R' l.
Proof.
  intros Himp Hs. induction Hs as [|x l Hs IH Hall]; [constructor|].
  constructor.
  - apply IH. intros a b Ha Hb. apply Himp; now right.
  - apply Forall_forall. intros y Hy. rewrite Forall_forall in Hall.
    apply Himp; [now left|now right|now apply Hall].
Qed.

Lemma merged_sorted (start_ts end_ts : Z) (chunks l : list candle) :
  merge start_ts end_ts chunks = Ok l -> StronglySorted ts_le l.
Proof.
  intros H. apply merge_ok in H. destruct H as [kl [Hk ->]].
  apply keyed_ok in Hk. destruct Hk as [_ Hk].
  apply filter_strongly_sorted, sorted_keys_sorted_candles.
  - eapply Permutation_Forall; [apply Permutation_sym, sort_keyed_perm|exact Hk].
  - apply sort_keyed_sorted.
Qed.

Lemma merged_within (start_ts end_ts : Z) (chunks l : list candle) (c : candle) :
  merge start_ts end_ts chunks = Ok l -> In c l ->
  exists t, openTime c = Ok t.
Proof.
  intros H Hc. apply merge_ok in H. destruct H as [kl [_ ->]].
  apply filter_In in Hc. destruct Hc as [_ Hw]. unfold within in Hw.
  destruct (openTime c) as [t|e]; [now exists t|discriminate].
Qed.

(** C10 (amended): whenever [fetch_all_candles] returns, the list is in
    non-decreasing lexicographic order of the timestamp strings; it is
    then in non-decreasing order of the open times too whenever all the
    timestamps are plain digit strings of one length. *)
Theorem fetch_all_candles_sorted_by_string :
  forall (server : Z -> Z -> result (list candle)) (tz : Z -> result Z)
         (start_ts end_ts : Z) (fuel : nat) (l : list candle),
    fetch_all_candles server tz start_ts end_ts fuel = Some (Ok l) ->
    StronglySorted ts_le l /\
    (forall n : nat,
        Forall (fun c => exists s, timestamp_of c = Ok s /\
                                   plain_digits s = true /\
                                   String.length s = n) l ->
        StronglySorted open_le l).
Proof.
  intros server tz start_ts end_ts fuel l H.
  apply fetch_all_candles_ok in H. destruct H as [chunks [_ Hm]].
  pose proof (merged_sorted _ _ _ _ Hm) as Hs.
  split; [exact Hs|].
  intros n Hn. rewrite Forall_forall in Hn.
  apply (strongly_sorted_impl_in ts_le); [|exact Hs].
  intros a b Ha Hb [s [t [Hsa [Htb Hle]]]].
  destruct (merged_within _ _ _ _ a Hm Ha) as [x Hx].
  destruct (merged_within _ _ _ _ b Hm Hb) as [y Hy].
  exists x, y. repeat split; auto.
  destruct (Hn a Ha) as [s' [Hs' [Ps Ls]]].
  destruct (Hn b Hb) as [t' [Ht' [Pt Lt]]].
  rewrite Hsa in Hs'. rewrite Htb in Ht'. inversion Hs'; inversion Ht'; subst s' t'.
  unfold openTime in Hx, Hy. rewrite Hsa in Hx. rewrite Htb in Hy. simpl in Hx, Hy.
  apply (IntFacts.int_order_plain s t); auto. congruence.
Qed.

Lemma fetch_all_candles_sorted_by_string_witness :
  StronglySorted ts_le
    [bar "1736208000" "94030"; bar "1736208060" "94020";
     bar "1736208060" "94021"; bar "1736208120" "94010"].
Proof.
  apply (fetch_all_candles_sorted_by_string overlapping_pages utc_machine
           1736208000 1736208200 5).
  vm_compute. reflexivity.
Defined.

(** C10, as stated, fails: a returned list can be in numeric order
    although its timestamps differ in length. *)
Lemma numeric_order_with_mixed_lengths :
  fetch_all_candles short_pages utc_machine 1 100 5
  = Some (Ok [bar "1" "94020"; bar "10" "94010"]) /\
  StronglySorted open_le [bar "1" "94020"; bar "10" "94010"] /\
  ~ (exists n : nat,
        Forall (fun c => exists s, timestamp_of c = Ok s /\ String.length s = n)
               [bar "1" "94020"; bar "10" "94010"]).
Proof.
  split; [vm_compute; reflexivity|]. split.
  - repeat constructor. exists 1, 10. repeat split. lia.
  - intros [n Hn]. inversion Hn as [|? ? [s [Hs Ls]] Hr]; subst.
    inversion Hr as [|? ? [t [Ht Lt]] _]; subst.
    inversion Hs; inversion Ht; subst. discriminate.
Qed.

(** With nine and ten digits the order of the strings is not the order
    of the numbers: the bar of 1000000000 is returned before the bar of
    999999999. *)
Example mixed_lengths_can_disagree :
  fetch_all_candles long_pages utc_machine 999999999 1000000000 5
  = Some (Ok [bar "1000000000" "94010"; bar "999999999" "94020"]) /\
  ~ StronglySorted open_le [bar "1000000000" "94010"; bar "999999999" "94020"].
Proof.
  split; [vm_compute; reflexivity|].
  intros H. inversion H as [|? ? _ Hall]; subst.
  inversion Hall as [|? ? [x [y [Hx [Hy Hle]]]] _]; subst.
  vm_compute in Hx, Hy. inversion Hx; inversion Hy; subst. lia.
Qed.




End Backfill.

(** ** The series under the live updaters *)

Module LiveFacts.

Import LiveDataUpdater.

Ltac run_method :=
  unfold Method.seq, Method.lift, Method.assign, Method.read, Method.ret; simpl.

Lemma last_item_snoc {A : Type} (l : list A) (x : A) : last_item (l ++ [x]) = Ok x.
Proof.
  induction l as [|y r IH]; [reflexivity|].
  simpl. destruct (r ++ [x]) eqn:E; [now destruct r|exact IH].
Qed.

Lemma add_new_candle_state (frame : bool -> list candle -> result DataFrame)
    (c : candle) (u : state) :
  fst (add_new_candle frame c u)
  = set_candle_list (extend (max_candles u) (candle_list u) c) u.
Proof.
  unfold add_new_candle, extend. run_method.
  destruct (max_candles u <? Z.of_nat (List.length (candle_list u ++ [c]))); simpl;
    match goal with |- context [frame ?b ?w] => destruct (frame b w) end;
    reflexivity.
Qed.

Lemma update_last_candle_state (frame : bool -> list candle -> result DataFrame)
    (c : candle) (u : state) :
  candle_list u <> [] ->
  fst (update_last_candle frame c u)
  = set_candle_list (revise (candle_list u) c) u.
Proof.
  intros Hne. unfold update_last_candle, revise, set_last.
  unfold Method.seq, Method.lift, Method.assign, Method.read, Method.ret.
  destruct (candle_list u) as [|x r] eqn:E; [contradiction|].
  remember (removelast (x :: r)) as front. simpl.
  rewrite last_item_snoc.
  match goal with |- context [frame ?b ?w] => destruct (frame b w) end; reflexivity.
Qed.

(** [process_data] on an event whose candle has its five first fields. *)
Lemma process_data_valid (frame : bool -> list candle -> result DataFrame)
    (p : payload) (c0 c1 c2 c3 c4 : string) (r : list string) (u : state) :
  candles p = Some (c0 :: c1 :: c2 :: c3 :: c4 :: r) ->
  process_data frame (Some p) u
  = let c := c0 :: c1 :: c2 :: c3 :: c4 :: r in
    let u4 := set_low c4 (set_high c3 (set_close c2 (set_open c1 u))) in
    match candle_list u with
    | [] => add_new_candle frame c u4
    | _ =>
        match last_item (candle_list u) with
        | Raise e => (u4, Raise e)
        | Ok tail =>
            match timestamp_of tail with
            | Raise e => (u4, Raise e)
            | Ok t' =>
                if negb (c0 =? t')%string then add_new_candle frame c u4
                else update_last_candle frame c u4
            end
        end
    end.
Proof.
  intros Hc. unfold process_data, getitem_candles. rewrite Hc.
  unfold Method.seq, Method.lift, Method.assign, Method.read, Method.ret.
  cbn [item nth_error timestamp_of candle_list set_low set_high set_close set_open].
  destruct (candle_list u) as [|x l]; [reflexivity|].
  destruct (last_item (x :: l)) as [tail|e]; [|reflexivity].
  destruct (timestamp_of tail) as [t'|e]; [|reflexivity].
  now destruct (negb (c0 =? t')%string).
Qed.

(** A candle with fewer than five fields raises before the series is
    touched. *)
Lemma process_data_short (frame : bool -> list candle -> result DataFrame)
    (p : payload) (c : candle) (u : state) :
  candles p = Some c -> (List.length c < 5)%nat ->
  candle_list (fst (process_data frame (Some p) u)) = candle_list u /\
  max_candles (fst (process_data frame (Some p) u)) = max_candles u /\
  snd (process_data frame (Some p) u) = Raise IndexError.
Proof.
  intros Hc Hlen. unfold process_data, getitem_candles. rewrite Hc.
  destruct c as [|c0 [|c1 [|c2 [|c3 [|c4 r]]]]]; simpl in Hlen; try lia;
    repeat split; reflexivity.
Qed.

Lemma process_data_transition (frame : bool -> list candle -> result DataFrame)
    (d : option payload) (u : state) :
  max_candles (fst (process_data frame d u)) = max_candles u /\
  transition (max_candles u) (candle_list u) d
    (candle_list (fst (process_data frame d u))).
Proof.
  destruct d as [p|]; [|split; [reflexivity|constructor]].
  destruct (candles p) as [c|] eqn:Hc.
  2:{ unfold process_data, getitem_candles. rewrite Hc. split; [reflexivity|constructor]. }
  destruct (Nat.lt_ge_cases (List.length c) 5) as [Hlen|Hlen].
  { destruct (process_data_short frame p c u Hc Hlen) as [-> [-> _]].
    split; [reflexivity|constructor]. }
  destruct c as [|c0 [|c1 [|c2 [|c3 [|c4 r]]]]]; simpl in Hlen; try lia.
  rewrite (process_data_valid frame p c0 c1 c2 c3 c4 r u Hc). cbv zeta.
  set (c := c0 :: c1 :: c2 :: c3 :: c4 :: r) in *.
  set (u4 := set_low c4 (set_high c3 (set_close c2 (set_open c1 u)))).
  assert (Hadd : candle_list u = [] \/ differs c (candle_list u) ->
            max_candles (fst (add_new_candle frame c u4)) = max_candles u /\
            transition (max_candles u) (candle_list u) (Some p)
              (candle_list (fst (add_new_candle frame c u4)))).
  { intros Hd. rewrite add_new_candle_state. split; [reflexivity|].
    apply (Extended _ _ _ p c); auto. }
  destruct (candle_list u) as [|x l] eqn:El; [apply Hadd; now left|].
  destruct (last_item (x :: l)) as [tail|e] eqn:Hl;
    [|split; [reflexivity|subst u4; simpl; rewrite El; constructor]].
  destruct (timestamp_of tail) as [t'|e] eqn:Ht;
    [|split; [reflexivity|subst u4; simpl; rewrite El; constructor]].
  destruct (String.eqb_spec c0 t') as [Heq|Hne]; simpl.
  - rewrite update_last_candle_state by (subst u4; simpl; rewrite El; discriminate).
    split; [reflexivity|]. subst u4. simpl. rewrite El.
    apply (Revised _ _ _ p c); auto. exists tail, c0. subst t'. auto.
  - apply Hadd. right. exists tail, c0, t'. auto.
Qed.

End LiveFacts.

Module ScriptFacts.

Import CandleUpdate.

Lemma process_candle_data_keeps (data : option payload) (u : state) :
  candle_list (fst (process_candle_data data u)) = candle_list u /\
  bars_lookback (fst (process_candle_data data u)) = bars_lookback u.
Proof.
  unfold process_candle_data.
  destruct (process_fields data (event u)); split; reflexivity.
Qed.

Lemma process_fields_some (data : option payload) (f f' : fields) (c : candle) :
  process_fields data f = (f', Ok (Some c)) ->
  exists p, data = Some p /\ candles p = Some c /\ (7 <= List.length c)%nat.
Proof.
  destruct data as [p|]; [|discriminate].
  unfold process_fields, getitem_candles.
  destruct (candles p) as [c'|] eqn:Hc; [|discriminate].
  destruct c' as [|c0 [|c1 [|c2 [|c3 [|c4 [|c5 [|c6 r]]]]]]]; try discriminate.
  intros H. inversion H; subst. exists p. repeat split; auto. simpl. lia.
Qed.

Lemma process_fields_valid (p : payload) (c : candle) (f : fields) :
  candles p = Some c -> (7 <= List.length c)%nat ->
  snd (process_fields (Some p) f) = Ok (Some c).
Proof.
  intros Hc Hlen. unfold process_fields, getitem_candles. rewrite Hc.
  destruct c as [|c0 [|c1 [|c2 [|c3 [|c4 [|c5 [|c6 r]]]]]]]; simpl in Hlen; try lia.
  reflexivity.
Qed.

Lemma truthy_some (oc : option candle) (c : candle) :
  truthy oc = Some c -> oc = Some c /\ c <> [].
Proof.
  destruct oc as [[|x r]|]; simpl; try discriminate.
  intros H. inversion H. split; [reflexivity|discriminate].
Qed.

(** What a turn of the loop does once the event is read: [u1] is the
    state [process_candle_data] left. *)
Lemma iteration_after_read (frame : bool -> list candle -> result DataFrame)
    (data : option payload) (u u1 : state) (c : candle) (t : string) :
  process_candle_data data u = (u1, Ok (Some c)) ->
  timestamp_of c = Ok t ->
  fst (iteration frame data u)
  = match last_item (candle_list u1) with
    | Raise _ => u1
    | Ok tail =>
        match timestamp_of tail with
        | Raise _ => u1
        | Ok t' =>
            if negb (t =? t')%string
            then set_candle_list (extend 500 (candle_list u1) c) u1
            else set_candle_list (revise (candle_list u1) c) u1
        end
    end /\
  (last_item (candle_list u1) = Raise IndexError ->
   snd (iteration frame data u) = Raise IndexError).
Proof.
  intros Hp Ht.
  assert (Htr : truthy (Some c) = Some c).
  { destruct c; [discriminate Ht|reflexivity]. }
  unfold iteration, Method.seq, Method.lift, Method.assign, Method.read, Method.ret.
  rewrite Hp. cbv beta iota. rewrite Htr, Ht. cbv beta iota.
  destruct (last_item (candle_list u1)) as [tail|e] eqn:Hl.
  2:{ split; [reflexivity|]. intros He. injection He as ->. reflexivity. }
  split; [|discriminate].
  destruct (timestamp_of tail) as [t'|e]; [|reflexivity].
  destruct (negb (t =? t')%string).
  - unfold extend. cbn [candle_list set_candle_list fst].
    destruct (500 <? Z.of_nat (List.length (candle_list u1 ++ [c])));
      cbn [candle_list set_candle_list fst];
      match goal with |- context [frame ?b ?w] => destruct (frame b w) end;
      reflexivity.
  - unfold revise, set_last.
    destruct (candle_list u1) as [|x r] eqn:E; [discriminate Hl|].
    remember (removelast (x :: r)) as front.
    cbn [candle_list set_candle_list fst].
    rewrite LiveFacts.last_item_snoc.
    match goal with |- context [frame ?b ?w] => destruct (frame b w) end;
      reflexivity.
Qed.

Lemma iteration_no_candle (frame : bool -> list candle -> result DataFrame)
    (data : option payload) (u u1 : state) (r : result (option candle)) :
  process_candle_data data u = (u1, r) ->
  (forall c, r <> Ok (Some c)) ->
  fst (iteration frame data u) = u1.
Proof.
  intros Hp Hr. unfold iteration, Method.seq at 1. rewrite Hp.
  destruct r as [[c|]|e]; try reflexivity.
  now elim (Hr c).
Qed.

Lemma iteration_transition (frame : bool -> list candle -> result DataFrame)
    (d : option payload) (u : state) :
  bars_lookback (fst (iteration frame d u)) = bars_lookback u /\
  transition 500 (candle_list u) d (candle_list (fst (iteration frame d u))).
Proof.
  destruct (process_candle_data_keeps d u) as [Hl Hb].
  destruct (process_candle_data d u) as [u1 r] eqn:Hp. simpl in Hl, Hb.
  assert (Hc : (exists c, r = Ok (Some c)) \/ (forall c, r <> Ok (Some c))).
  { destruct r as [[c|]|e]; [left; now exists c| |]; right; discriminate. }
  destruct Hc as [[c ->]|Hno].
  2:{ rewrite (iteration_no_candle frame d u u1 r Hp Hno), Hl, Hb.
      split; [reflexivity|constructor]. }
  assert (Hf : exists p, d = Some p /\ candles p = Some c /\ (7 <= List.length c)%nat).
  { unfold process_candle_data in Hp.
    destruct (process_fields d (event u)) as [f r'] eqn:Hpf.
    inversion Hp; subst. eapply process_fields_some; eauto. }
  destruct Hf as [p [-> [Hcp Hlen]]].
  assert (Ht : exists t, timestamp_of c = Ok t).
  { destruct c as [|t c']; [simpl in Hlen; lia|now exists t]. }
  destruct Ht as [t Ht].
  destruct (iteration_after_read frame (Some p) u u1 c t Hp Ht) as [-> _].
  rewrite Hl.
  destruct (last_item (candle_list u)) as [tail|e] eqn:Hlast;
    [|rewrite Hl, Hb; split; [reflexivity|constructor]].
  destruct (timestamp_of tail) as [t'|e] eqn:Ht';
    [|rewrite Hl, Hb; split; [reflexivity|constructor]].
  destruct (String.eqb_spec t t') as [Heq|Hne]; simpl.
  - split; [exact Hb|]. apply (Revised _ _ _ p c); auto.
    exists tail, t. subst t'. auto.
  - split; [exact Hb|]. apply (Extended _ _ _ p c); auto.
    right. exists tail, t, t'. auto.
Qed.

End ScriptFacts.

(** ** Runs of deliveries *)

Module SeriesFacts.

Lemma increasing_cons (a : candle) (l : list candle) :
  increasing (a :: l) = true -> increasing l = true.
Proof.
  destruct l as [|b r]; [reflexivity|].
  cbn [increasing]. intros H. apply andb_true_iff in H. tauto.
Qed.

Lemma increasing_skipn (n : nat) (l : list candle) :
  increasing l = true -> increasing (skipn n l) = true.
Proof.
  revert l. induction n as [|n IH]; intros l H; [exact H|].
  destruct l as [|a r]; [reflexivity|].
  simpl skipn. apply IH. now apply increasing_cons in H.
Qed.

Lemma increasing_slice_from (i : Z) (l : list candle) :
  increasing l = true -> increasing (slice_from i l) = true.
Proof. unfold slice_from. apply increasing_skipn. Qed.

Lemma increasing_snoc (l : list candle) (tail c : candle) :
  increasing l = true -> last_item l = Ok tail -> open_ltb tail c = true ->
  increasing (l ++ [c]) = true.
Proof.
  induction l as [|a r IH]; [discriminate|].
  intros Hi Hl Hlt. destruct r as [|b r'].
  - simpl in Hl. inversion Hl; subst. simpl. now rewrite Hlt.
  - change (increasing (a :: b :: r' ++ [c]) = true).
    cbn [increasing] in Hi |- *. apply andb_true_iff in Hi. destruct Hi as [Hab Hr].
    rewrite Hab. simpl. apply IH; auto.
Qed.

Lemma open_ltb_same_timestamp (a c tail : candle) (t : string) :
  timestamp_of c = Ok t -> timestamp_of tail = Ok t ->
  open_ltb a c = open_ltb a tail.
Proof.
  intros Hc Ht. unfold open_ltb, openTime. now rewrite Hc, Ht.
Qed.

Lemma increasing_revise (l : list candle) (tail c : candle) (t : string) :
  increasing l = true -> last_item l = Ok tail ->
  timestamp_of c = Ok t -> timestamp_of tail = Ok t ->
  increasing (revise l c) = true.
Proof.
  unfold revise. induction l as [|a r IH]; [discriminate|].
  intros Hi Hl Hc Ht. destruct r as [|b r'].
  - reflexivity.
  - assert (Hr : last_item (b :: r') = Ok tail) by exact Hl.
    assert (Hi' : increasing (b :: r') = true) by (now apply increasing_cons in Hi).
    specialize (IH Hi' Hr Hc Ht).
    change (removelast (a :: b :: r')) with (a :: removelast (b :: r')).
    cbn [increasing] in Hi. apply andb_true_iff in Hi. destruct Hi as [Hab _].
    destruct r' as [|b' r''].
    + simpl in Hl. inversion Hl; subst. simpl.
      now rewrite (open_ltb_same_timestamp a c tail t Hc Ht), Hab.
    + change (removelast (b :: b' :: r'')) with (b :: removelast (b' :: r'')) in *.
      simpl app in *. cbn [increasing]. rewrite Hab. exact IH.
Qed.

Lemma increasing_extend (cap : Z) (l : list candle) (c : candle) :
  increasing l = true ->
  (forall tail, last_item l = Ok tail -> open_ltb tail c = true) ->
  increasing (extend cap l c) = true.
Proof.
  intros Hi Hl. unfold extend.
  assert (H : increasing (l ++ [c]) = true).
  { destruct l as [|a r]; [reflexivity|].
    destruct (last_item (a :: r)) as [tail|e] eqn:E.
    - eapply increasing_snoc; eauto.
    - exfalso. clear - E. revert a E. induction r as [|b r IH]; intros a E; [discriminate|].
      now apply (IH b). }
  destruct (cap <? _); [now apply increasing_slice_from|exact H].
Qed.

(** A fresh delivery keeps the series increasing. *)
Lemma transition_increasing (cap : Z) (l l' : list candle) (d : option payload) :
  transition cap l d l' -> increasing l = true -> fresh l d = true ->
  increasing l' = true.
Proof.
  intros [|p c Hd Hc Hdiff|p c Hd Hc Hag] Hi Hf.
  - exact Hi.
  - apply increasing_extend; [exact Hi|].
    intros tail Hl. subst d. unfold fresh in Hf. rewrite Hc, Hl in Hf.
    destruct Hdiff as [->|[tail' [t [t' [Hl' [Ht [Ht' Hne]]]]]]]; [discriminate|].
    rewrite Hl in Hl'. inversion Hl'; subst tail'.
    unfold same_timestamp in Hf. rewrite Ht, Ht' in Hf.
    apply String.eqb_neq in Hne. rewrite Hne in Hf. exact Hf.
  - destruct Hag as [tail [t [Hl [Ht Ht']]]].
    eapply increasing_revise; eauto.
Qed.

Lemma length_snoc (l : list candle) (c : candle) :
  Z.of_nat (List.length (l ++ [c])) = Z.of_nat (List.length l) + 1.
Proof. rewrite length_app. simpl. lia. Qed.

(** With a capacity of at least one, [extend] keeps the last [cap] bars
    of the appended series. *)
Lemma extend_as_skipn (cap : Z) (l : list candle) (c : candle) :
  1 <= cap ->
  extend cap l c
  = skipn (Z.to_nat (Z.of_nat (List.length l) + 1 - cap)) (l ++ [c]).
Proof.
  intros Hcap. unfold extend, slice_from. rewrite length_snoc.
  destruct (Z.ltb_spec cap (Z.of_nat (List.length l) + 1)) as [H|H].
  - destruct (Z.ltb_spec (- cap) 0) as [_|H0]; [|lia].
    f_equal. lia.
  - replace (Z.to_nat (Z.of_nat (List.length l) + 1 - cap)) with 0%nat by lia.
    reflexivity.
Qed.


Lemma length_revise (l : list candle) (c : candle) :
  l <> [] -> List.length (revise l c) = List.length l.
Proof.
  intros Hne. unfold revise. rewrite length_app.
  destruct l as [|a r]; [contradiction|].
  assert (H : List.length (removelast (a :: r)) = List.length r).
  { clear. revert a. induction r as [|b r IH]; intros a; [reflexivity|].
    change (removelast (a :: b :: r)) with (a :: removelast (b :: r)).
    cbn [List.length]. now rewrite IH. }
  rewrite H. cbn [List.length]. lia.
Qed.



Lemma trace_fresh_forall {S : Type} (step : option payload -> Method.t S unit)
    (series : S -> list candle) (I : S -> Prop) :
  (forall d u, I u -> fresh (series u) d = true -> I (fst (step d u))) ->
  forall ds u, I u -> all_fresh step series ds u = true ->
               Forall I (trace step ds u).
Proof.
  intros Hstep ds. induction ds as [|d r IH]; intros u Hu Hf; [constructor|].
  simpl in Hf |- *. apply andb_true_iff in Hf. destruct Hf as [Hd Hr].
  specialize (Hstep d u Hu Hd).
  destruct (step d u) as [u' [[]|e]]; simpl in Hstep.
  - constructor; [exact Hstep|now apply IH].
  - constructor; [exact Hstep|constructor].
Qed.

(** A later open time is another timestamp string. *)
Lemma stale_differs (c tail : candle) (x y : Z) (l : list candle) :
  last_item l = Ok tail -> openTime c = Ok x -> openTime tail = Ok y ->
  x <> y -> differs c l.
Proof.
  intros Hl Hx Hy Hxy. unfold openTime in Hx, Hy.
  destruct (timestamp_of c) as [t|e] eqn:Ht; [|discriminate].
  destruct (timestamp_of tail) as [t'|e] eqn:Ht'; [|discriminate].
  simpl in Hx, Hy. exists tail, t, t'. repeat split; auto.
  intros ->. rewrite Hx in Hy. inversion Hy. contradiction.
Qed.

End SeriesFacts.

(** ** The series after one valid event *)

Module MergeFacts.

Lemma process_data_series (frame : bool -> list candle -> result DataFrame)
    (p : payload) (c : candle) (u : LiveDataUpdater.state) :
  candles p = Some c -> (5 <= List.length c)%nat ->
  LiveDataUpdater.candle_list (fst (LiveDataUpdater.process_data frame (Some p) u))
  = merged (LiveDataUpdater.max_candles u) true (LiveDataUpdater.candle_list u) c.
Proof.
  intros Hc Hlen.
  destruct c as [|c0 [|c1 [|c2 [|c3 [|c4 r]]]]]; simpl in Hlen; try lia.
  rewrite (LiveFacts.process_data_valid frame p c0 c1 c2 c3 c4 r u Hc). cbv zeta.
  set (c := c0 :: c1 :: c2 :: c3 :: c4 :: r).
  unfold merged.
  destruct (LiveDataUpdater.candle_list u) as [|x l] eqn:El.
  - rewrite LiveFacts.add_new_candle_state. simpl. now rewrite El.
  - destruct (last_item (x :: l)) as [tail|e]; [|simpl; now rewrite El].
    change (timestamp_of c) with (Ok (A:=string) c0). cbv iota.
    destruct (timestamp_of tail) as [t'|e]; [|simpl; now rewrite El].
    destruct (negb (c0 =? t')%string).
    + rewrite LiveFacts.add_new_candle_state. simpl. now rewrite El.
    + rewrite LiveFacts.update_last_candle_state; simpl; rewrite El;
        [reflexivity|discriminate].
Qed.

Lemma iteration_series (frame : bool -> list candle -> result DataFrame)
    (p : payload) (c : candle) (u : CandleUpdate.state) :
  candles p = Some c -> (7 <= List.length c)%nat ->
  CandleUpdate.candle_list (fst (CandleUpdate.iteration frame (Some p) u))
  = merged 500 false (CandleUpdate.candle_list u) c.
Proof.
  intros Hc Hlen.
  destruct (ScriptFacts.process_candle_data_keeps (Some p) u) as [Hl _].
  destruct (CandleUpdate.process_candle_data (Some p) u) as [u1 r] eqn:Hp.
  assert (Hr : r = Ok (Some c)).
  { unfold CandleUpdate.process_candle_data in Hp.
    pose proof (ScriptFacts.process_fields_valid p c (CandleUpdate.event u) Hc Hlen) as Hv.
    destruct (CandleUpdate.process_fields (Some p) (CandleUpdate.event u)).
    simpl in Hv. inversion Hp. congruence. }
  subst r. simpl in Hl.
  assert (Ht : exists t, timestamp_of c = Ok t).
  { destruct c as [|t c']; [simpl in Hlen; lia|now exists t]. }
  destruct Ht as [t Ht].
  destruct (ScriptFacts.iteration_after_read frame (Some p) u u1 c t Hp Ht) as [-> _].
  rewrite Hl. unfold merged. rewrite Ht.
  destruct (CandleUpdate.candle_list u) as [|x l] eqn:El; [simpl; congruence|].
  destruct (last_item (x :: l)) as [tail|e]; [|congruence].
  destruct (timestamp_of tail) as [t'|e]; [|congruence].
  now destruct (negb (t =? t')%string).
Qed.

(** An event with another open time than the last bar is appended. *)
Lemma merged_other_time (cap : Z) (b : bool) (l : list candle)
    (c tail : candle) (x y : Z) :
  last_item l = Ok tail -> openTime c = Ok x -> openTime tail = Ok y ->
  x <> y -> merged cap b l c = extend cap l c.
Proof.
  intros Hl Hx Hy Hxy.
  destruct (SeriesFacts.stale_differs c tail x y l Hl Hx Hy Hxy)
    as [tail' [t [t' [Hl' [Ht [Ht' Hne]]]]]].
  unfold merged. destruct l as [|a r]; [discriminate Hl|].
  rewrite Hl', Ht, Ht'. apply String.eqb_neq in Hne. now rewrite Hne.
Qed.

End MergeFacts.

(** ** The live merge against the specification *)

Module LiveMerge.

(** C1 (amended): an event whose open time is strictly less than the
    open time of the last bar is not discarded: both updaters append it
    to the series, which is then cut to its last bars ([max_candles] in
    the packaged updater, 500 in the script). *)
Theorem stale_event_extends :
  forall (frame : bool -> list candle -> result DataFrame)
         (p : payload) (c tail : candle) (x y : Z),
    candles p = Some c ->
    openTime c = Ok x -> openTime tail = Ok y -> x < y ->
    (forall u : LiveDataUpdater.state,
        (5 <= List.length c)%nat ->
        last_item (LiveDataUpdater.candle_list u) = Ok tail ->
        LiveDataUpdater.candle_list
          (fst (LiveDataUpdater.process_data frame (Some p) u))
        = extend (LiveDataUpdater.max_candles u) (LiveDataUpdater.candle_list u) c) /\
    (forall u : CandleUpdate.state,
        (7 <= List.length c)%nat ->
        last_item (CandleUpdate.candle_list u) = Ok tail ->
        CandleUpdate.candle_list (fst (CandleUpdate.iteration frame (Some p) u))
        = extend 500 (CandleUpdate.candle_list u) c).
Proof.
  intros frame p c tail x y Hc Hx Hy Hxy. split; intros u Hlen Hl.
  - rewrite (MergeFacts.process_data_series frame p c u Hc Hlen).
    apply (MergeFacts.merged_other_time _ _ _ c tail x y); auto; lia.
  - rewrite (MergeFacts.iteration_series frame p c u Hc Hlen).
    apply (MergeFacts.merged_other_time _ _ _ c tail x y); auto; lia.
Qed.

Lemma stale_event_extends_witness :
  LiveDataUpdater.candle_list
    (fst (LiveDataUpdater.process_data sample_frame
            (delivery "1736207940" "93990") (LiveDataUpdater.make 500 backfilled)))
  = extend 500 backfilled (bar "1736207940" "93990").
Proof.
  refine (proj1 (stale_event_extends sample_frame
            {| candles := Some (bar "1736207940" "93990");
               time_received := "2025-01-07T00:02:03.000321" |}
            (bar "1736207940" "93990") (bar "1736208120" "94030")
            1736207940 1736208120 _ _ _ _)
          (LiveDataUpdater.make 500 backfilled) _ _);
    try reflexivity.
  simpl. lia.
Defined.

(** C1, as stated, fails: after the bars of 1736208000, ...060 and
    ...120, the event of 1736207940 is appended by both updaters. *)
Lemma stale_event_is_appended :
  openTime (bar "1736207940" "93990") = Ok 1736207940 /\
  (c <- last_item backfilled ;; openTime c) = Ok 1736208120 /\
  LiveDataUpdater.process_data sample_frame (delivery "1736207940" "93990")
    (LiveDataUpdater.make 500 backfilled)
  = ({| LiveDataUpdater.max_candles := 500;
        LiveDataUpdater.candle_list := backfilled ++ [bar "1736207940" "93990"];
        LiveDataUpdater.open := Some "94000.1";
        LiveDataUpdater.close := Some "93990";
        LiveDataUpdater.high := Some "94100";
        LiveDataUpdater.low := Some "93900.5" |}, Ok tt) /\
  CandleUpdate.candle_list
    (fst (CandleUpdate.iteration sample_frame (delivery "1736207940" "93990")
            (CandleUpdate.make 100 backfilled)))
  = backfilled ++ [bar "1736207940" "93990"] /\
  backfilled ++ [bar "1736207940" "93990"] <> backfilled.
Proof.
  repeat split; try (vm_compute; reflexivity).
  discriminate.
Qed.

(** C3 (amended): from a series with strictly increasing open times, the
    series stays strictly increasing after every delivery of a run, as
    long as each delivered candle carries the timestamp of the last bar
    or a later open time. *)
Theorem series_stays_increasing :
  forall (frame : bool -> list candle -> result DataFrame)
         (deliveries : list (option payload)),
    (forall u : LiveDataUpdater.state,
        increasing (LiveDataUpdater.candle_list u) = true ->
        all_fresh (LiveDataUpdater.process_data frame) LiveDataUpdater.candle_list
                  deliveries u = true ->
        Forall (fun s => increasing (LiveDataUpdater.candle_list s) = true)
               (trace (LiveDataUpdater.process_data frame) deliveries u)) /\
    (forall u : CandleUpdate.state,
        increasing (CandleUpdate.candle_list u) = true ->
        all_fresh (CandleUpdate.iteration frame) CandleUpdate.candle_list
                  deliveries u = true ->
        Forall (fun s => increasing (CandleUpdate.candle_list s) = true)
               (trace (CandleUpdate.iteration frame) deliveries u)).
Proof.
  intros frame deliveries. split; intros u Hi Hf.
  - apply (SeriesFacts.trace_fresh_forall _ LiveDataUpdater.candle_list); auto.
    intros d s Hs Hd.
    destruct (LiveFacts.process_data_transition frame d s) as [_ Ht].
    eapply SeriesFacts.transition_increasing; eauto.
  - apply (SeriesFacts.trace_fresh_forall _ CandleUpdate.candle_list); auto.
    intros d s Hs Hd.
    destruct (ScriptFacts.iteration_transition frame d s) as [_ Ht].
    eapply SeriesFacts.transition_increasing; eauto.
Qed.

Lemma series_stays_increasing_witness :
  Forall (fun s => increasing (LiveDataUpdater.candle_list s) = true)
    (trace (LiveDataUpdater.process_data sample_frame)
       [delivery "1736208120" "94031"; None; delivery "1736208180" "94040"]
       (LiveDataUpdater.make 3 backfilled)).
Proof.
  apply (proj1 (series_stays_increasing sample_frame
           [delivery "1736208120" "94031"; None; delivery "1736208180" "94040"])).
  - reflexivity.
  - vm_compute. reflexivity.
Defined.

(** C3, as stated, fails: the stale event of 1736207940 leaves a series
    that is no longer increasing. *)
Lemma stale_event_breaks_order :
  increasing backfilled = true /\
  increasing
    (LiveDataUpdater.candle_list
       (fst (LiveDataUpdater.process_data sample_frame
               (delivery "1736207940" "93990")
               (LiveDataUpdater.make 500 backfilled)))) = false /\
  increasing
    (CandleUpdate.candle_list
       (fst (CandleUpdate.iteration sample_frame (delivery "1736207940" "93990")
               (CandleUpdate.make 100 backfilled)))) = false.
Proof. repeat split; vm_compute; reflexivity. Qed.

Lemma iteration_on_empty (frame : bool -> list candle -> result DataFrame)
    (d : option payload) (u : CandleUpdate.state) :
  CandleUpdate.candle_list u = [] ->
  CandleUpdate.candle_list (fst (CandleUpdate.iteration frame d u)) = [].
Proof.
  intros He.
  destruct (ScriptFacts.process_candle_data_keeps d u) as [Hl _].
  destruct (CandleUpdate.process_candle_data d u) as [u1 r] eqn:Hp. simpl in Hl.
  assert (Hc : (exists c, r = Ok (Some c)) \/ (forall c, r <> Ok (Some c))).
  { destruct r as [[c|]|e]; [left; now exists c| |]; right; discriminate. }
  destruct Hc as [[c ->]|Hno].
  - assert (Hf : exists p, d = Some p /\ candles p = Some c /\ (7 <= List.length c)%nat).
    { unfold CandleUpdate.process_candle_data in Hp.
      destruct (CandleUpdate.process_fields d (CandleUpdate.event u)) as [f r'] eqn:Hpf.
      inversion Hp; subst. eapply ScriptFacts.process_fields_some; eauto. }
    destruct Hf as [p [-> [Hcp Hlen]]].
    rewrite (MergeFacts.iteration_series frame p c u Hcp Hlen), He. reflexivity.
  - rewrite (ScriptFacts.iteration_no_candle frame d u u1 r Hp Hno). congruence.
Qed.

Lemma loop_on_empty (frame : bool -> list candle -> result DataFrame)
    (ds : list (option payload)) (u : CandleUpdate.state) :
  CandleUpdate.candle_list u = [] ->
  CandleUpdate.candle_list (fst (CandleUpdate.loop frame ds u)) = [].
Proof.
  revert u. induction ds as [|d r IH]; intros u He; [exact He|].
  cbn [CandleUpdate.loop]. unfold Method.seq.
  pose proof (iteration_on_empty frame d u He) as Hi.
  destruct (CandleUpdate.iteration frame d u) as [u' [[]|e]]; simpl in Hi.
  - now apply IH.
  - exact Hi.
Qed.

Lemma iteration_raises_on_empty (frame : bool -> list candle -> result DataFrame)
    (p : payload) (c : candle) (u : CandleUpdate.state) :
  candles p = Some c -> (7 <= List.length c)%nat ->
  CandleUpdate.candle_list u = [] ->
  snd (CandleUpdate.iteration frame (Some p) u) = Raise IndexError.
Proof.
  intros Hc Hlen He.
  destruct (ScriptFacts.process_candle_data_keeps (Some p) u) as [Hl _].
  destruct (CandleUpdate.process_candle_data (Some p) u) as [u1 r] eqn:Hp.
  assert (Hr : r = Ok (Some c)).
  { unfold CandleUpdate.process_candle_data in Hp.
    pose proof (ScriptFacts.process_fields_valid p c (CandleUpdate.event u) Hc Hlen) as Hv.
    destruct (CandleUpdate.process_fields (Some p) (CandleUpdate.event u)).
    simpl in Hv. inversion Hp. congruence. }
  subst r. simpl in Hl.
  assert (Ht : exists t, timestamp_of c = Ok t).
  { destruct c as [|t c']; [simpl in Hlen; lia|now exists t]. }
  destruct Ht as [t Ht].
  apply (ScriptFacts.iteration_after_read frame (Some p) u u1 c t Hp Ht).
  rewrite Hl, He. reflexivity.
Qed.

(** C9: in the loop of [CandleUpdate.start], a valid event that meets an
    empty series raises [IndexError] at [candle_list[-1]] and ends the
    loop; whatever is delivered, the series stays empty.  The packaged
    [process_data] appends the event to an empty series. *)
Theorem empty_series_is_never_extended :
  forall (frame : bool -> list candle -> result DataFrame),
    (forall (p : payload) (c : candle) (rest : list (option payload))
            (u : CandleUpdate.state),
        candles p = Some c -> (7 <= List.length c)%nat ->
        CandleUpdate.candle_list u = [] ->
        snd (CandleUpdate.iteration frame (Some p) u) = Raise IndexError /\
        snd (CandleUpdate.start frame (Ok tt) (Some p :: rest) u)
        = CandleUpdate.Stopped IndexError) /\
    (forall (ws_start : result unit) (deliveries : list (option payload))
            (u : CandleUpdate.state),
        CandleUpdate.candle_list u = [] ->
        CandleUpdate.candle_list
          (fst (CandleUpdate.start frame ws_start deliveries u)) = []) /\
    (forall (p : payload) (c : candle) (u : LiveDataUpdater.state),
        candles p = Some c -> (5 <= List.length c)%nat ->
        LiveDataUpdater.candle_list u = [] ->
        LiveDataUpdater.candle_list
          (fst (LiveDataUpdater.process_data frame (Some p) u))
        = extend (LiveDataUpdater.max_candles u) [] c /\
        (0 <= LiveDataUpdater.max_candles u ->
         LiveDataUpdater.candle_list
           (fst (LiveDataUpdater.process_data frame (Some p) u)) = [c])).
Proof.
  intros frame. split; [|split].
  - intros p c rest u Hc Hlen He.
    pose proof (iteration_raises_on_empty frame p c u Hc Hlen He) as Hr.
    split; [exact Hr|].
    unfold CandleUpdate.start. cbn [CandleUpdate.loop]. unfold Method.seq.
    destruct (CandleUpdate.iteration frame (Some p) u) as [u' r]. simpl in Hr.
    subst r. reflexivity.
  - intros ws_start deliveries u He. unfold CandleUpdate.start.
    destruct ws_start as [[]|e]; [|exact He].
    pose proof (loop_on_empty frame deliveries u He) as Hl.
    destruct (CandleUpdate.loop frame deliveries u) as [u' [[]|e]]; exact Hl.
  - intros p c u Hc Hlen He.
    rewrite (MergeFacts.process_data_series frame p c u Hc Hlen), He.
    split; [reflexivity|]. intros Hcap.
    unfold merged, extend, slice_from. simpl.
    destruct (Z.ltb_spec (LiveDataUpdater.max_candles u) 1) as [H1|H1]; [|reflexivity].
    replace (LiveDataUpdater.max_candles u) with 0 by lia. reflexivity.
Qed.

Lemma empty_series_is_never_extended_witness :
  (snd (CandleUpdate.iteration sample_frame (delivery "1736208060" "94020")
          (CandleUpdate.make 100 [])) = Raise IndexError /\
   snd (CandleUpdate.start sample_frame (Ok tt)
          [delivery "1736208060" "94020"; delivery "1736208120" "94030"]
          (CandleUpdate.make 100 []))
   = CandleUpdate.Stopped IndexError) /\
  LiveDataUpdater.candle_list
    (fst (LiveDataUpdater.process_data sample_frame (delivery "1736208060" "94020")
            (LiveDataUpdater.make 500 [])))
  = [bar "1736208060" "94020"].
Proof.
  split.
  - apply (proj1 (empty_series_is_never_extended sample_frame)
             {| candles := Some (bar "1736208060" "94020");
                time_received := "2025-01-07T00:02:03.000321" |}
             (bar "1736208060" "94020")
             [delivery "1736208120" "94030"] (CandleUpdate.make 100 []));
      [reflexivity|simpl; lia|reflexivity].
  - apply (proj2 (proj2 (empty_series_is_never_extended sample_frame))
             {| candles := Some (bar "1736208060" "94020");
                time_received := "2025-01-07T00:02:03.000321" |}
             (bar "1736208060" "94020") (LiveDataUpdater.make 500 []));
      [reflexivity|simpl; lia|reflexivity|simpl; lia].
Defined.




End LiveMerge.

(** ** The completed-bar poll against the specification *)

Module Poll.

Import CandleUpdateOrg.

Lemma poll_keeps_series (data : option payload) (u : state) :
  candle_list (fst (process_candle_data data u)) = candle_list u.
Proof.
  unfold process_candle_data.
  destruct (CandleUpdate.process_fields data (event u)); reflexivity.
Qed.

Lemma poll_reads_candle (data : option payload) (u u1 : state) (c : candle) :
  process_candle_data data u = (u1, Ok (Some c)) ->
  exists p, data = Some p /\ candles p = Some c.
Proof.
  unfold process_candle_data.
  destruct (CandleUpdate.process_fields data (event u)) as [f r] eqn:Hpf.
  intros H. inversion H; subst.
  destruct (ScriptFacts.process_fields_some data (event u) f c Hpf) as [p [Hd [Hc _]]].
  now exists p.
Qed.

(** A frame is returned only from the branch that appends, and it is
    the frame stored in [df_to_trade]. *)
Lemma new_candle_update_some (frame : bool -> list candle -> result DataFrame)
    (flag : bool) (d : option payload) (u : state) (df : DataFrame) :
  snd (new_candle_update frame flag d u) = Some df ->
  extends (candle_list u) d = true /\
  df_to_trade (fst (new_candle_update frame flag d u)) = df.
Proof.
  pose proof (poll_keeps_series d u) as Hl.
  unfold new_candle_update, new_candle_update_body.
  unfold Method.seq, Method.lift, Method.assign, Method.read, Method.ret.
  destruct (process_candle_data d u) as [u1 [oc|e]] eqn:Hp; [|discriminate].
  simpl in Hl.
  destruct (CandleUpdate.truthy oc) as [c|] eqn:Htr; [|discriminate].
  apply ScriptFacts.truthy_some in Htr. destruct Htr as [-> _].
  destruct (poll_reads_candle d u u1 c Hp) as [p [-> Hc]].
  unfold extends. rewrite Hc, <- Hl.
  destruct (timestamp_of c) as [t|e]; [|discriminate].
  destruct (last_item (candle_list u1)) as [tail|e] eqn:Hlast; [|discriminate].
  destruct (timestamp_of tail) as [t'|e]; [|discriminate].
  destruct (negb (t =? t')%string).
  - cbn [candle_list set_candle_list fst bars_lookback].
    destruct (bars_lookback u1 <? Z.of_nat (List.length (candle_list u1 ++ [c])));
      cbn [candle_list set_candle_list fst bars_lookback];
      match goal with |- context [frame ?b ?w] => destruct (frame b w) end;
      simpl; intros H; inversion H; auto.
  - unfold set_last. destruct (candle_list u1); discriminate.
Qed.

(** C5 (amended): [new_candle_update] returns a frame only on a call
    whose event carries another timestamp string than the last bar (the
    strings are compared as they were delivered, not the open times they
    write), and the frame is then the one stored in [df_to_trade]; of
    two calls in a row, the second returns nothing unless its own event
    carries another timestamp string than the last bar the first call
    left. *)
Theorem new_candle_update_one_shot :
  forall (frame : bool -> list candle -> result DataFrame)
         (flag flag' : bool) (d d' : option payload) (u : state),
    (forall df, snd (new_candle_update frame flag d u) = Some df ->
                extends (candle_list u) d = true /\
                df_to_trade (fst (new_candle_update frame flag d u)) = df) /\
    (extends (candle_list (fst (new_candle_update frame flag d u))) d' = false ->
     snd (new_candle_update frame flag' d'
            (fst (new_candle_update frame flag d u))) = None).
Proof.
  intros frame flag flag' d d' u. split.
  - intros df. apply new_candle_update_some.
  - intros Hno.
    destruct (snd (new_candle_update frame flag' d'
                     (fst (new_candle_update frame flag d u)))) as [df|] eqn:E;
      [|reflexivity].
    apply new_candle_update_some in E. destruct E as [E _]. congruence.
Qed.

Lemma new_candle_update_one_shot_witness :
  snd (new_candle_update sample_frame false (delivery "1736208180" "94040")
         (make 3 backfilled backfilled_frame))
  = Some {| df_index := [1736208060; 1736208120; 1736208180];
            df_values := [["94000.1"; "94020"; "94100"; "93900.5"];
                          ["94000.1"; "94030"; "94100"; "93900.5"];
                          ["94000.1"; "94040"; "94100"; "93900.5"]] |} /\
  snd (new_candle_update sample_frame false (delivery "1736208180" "94041")
         (fst (new_candle_update sample_frame false (delivery "1736208180" "94040")
                 (make 3 backfilled backfilled_frame))))
  = None.
Proof.
  split; [vm_compute; reflexivity|].
  apply (proj2 (new_candle_update_one_shot sample_frame false false
                  (delivery "1736208180" "94040") (delivery "1736208180" "94041")
                  (make 3 backfilled backfilled_frame))).
  vm_compute. reflexivity.
Defined.

(** C5, as stated, fails: an event that writes the open time of the last
    bar with a leading zero has the same open time and another timestamp
    string; it is appended and its frame is returned, on a first call
    and on the second of two calls in a row. *)
Lemma equal_open_time_returns_a_frame :
  (tail <- last_item (candle_list (make 3 backfilled backfilled_frame)) ;; openTime tail)
  = Ok 1736208120 /\
  openTime (bar "01736208120" "94031") = Ok 1736208120 /\
  snd (new_candle_update sample_frame false (delivery "01736208120" "94031")
         (make 3 backfilled backfilled_frame))
  = Some {| df_index := [1736208060; 1736208120; 1736208120];
            df_values := [["94000.1"; "94020"; "94100"; "93900.5"];
                          ["94000.1"; "94030"; "94100"; "93900.5"];
                          ["94000.1"; "94031"; "94100"; "93900.5"]] |} /\
  (tail <- last_item
             (candle_list
                (fst (new_candle_update sample_frame false (delivery "1736208180" "94040")
                        (make 3 backfilled backfilled_frame)))) ;;
   openTime tail)
  = Ok 1736208180 /\
  openTime (bar "01736208180" "94041") = Ok 1736208180 /\
  snd (new_candle_update sample_frame false (delivery "01736208180" "94041")
         (fst (new_candle_update sample_frame false (delivery "1736208180" "94040")
                 (make 3 backfilled backfilled_frame))))
  = Some {| df_index := [1736208120; 1736208180; 1736208180];
            df_values := [["94000.1"; "94030"; "94100"; "93900.5"];
                          ["94000.1"; "94040"; "94100"; "93900.5"];
                          ["94000.1"; "94041"; "94100"; "93900.5"]] |}.
Proof. repeat split; vm_compute; reflexivity. Qed.

End Poll.

(** ** The message handler against the specification *)

Module Handler.

Import WebSocket.

Lemma on_message_body_enqueue (json_loads : string -> result json)
    (now : Q) (received message : string)
    (members obj : list (string * json)) (st : state) :
  json_loads message = Ok (JObject members) ->
  lookup "type" members = Some (JString "message") ->
  lookup "data" members = Some (JObject obj) ->
  on_message_body json_loads now received message st
  = put_nowait_or_drop (JObject (store "time_received" (JString received) obj))
      (set_metrics (stamp_message now (count_message (metrics st))) st).
Proof.
  intros Hl Ht Hd. unfold on_message_body.
  unfold Method.seq, Method.lift, Method.assign, Method.read, Method.ret.
  rewrite Hl. cbn [get contains getitem is_message]. rewrite Ht, Hd.
  reflexivity.
Qed.

(** C6 (amended): when the queue is full, [_on_message] drops the
    incoming event without blocking: the queue is unchanged and a
    warning is logged.  The metrics it leaves are those of a stored
    message (one more message counted, the time of the message, no
    error): no counter of dropped messages exists. *)
Theorem full_queue_drops_newest :
  forall (json_loads : string -> result json) (now : Q)
         (received message : string)
         (members obj : list (string * json)) (st : state),
    json_loads message = Ok (JObject members) ->
    lookup "type" members = Some (JString "message") ->
    lookup "data" members = Some (JObject obj) ->
    metrics (_on_message json_loads now received message st)
    = stamp_message now (count_message (metrics st)) /\
    (full (data_queue st) = true ->
     data_queue (_on_message json_loads now received message st) = data_queue st /\
     log (_on_message json_loads now received message st)
     = log st ++ [WarningQueueFull]) /\
    (full (data_queue st) = false ->
     items (data_queue (_on_message json_loads now received message st))
     = items (data_queue st)
       ++ [JObject (store "time_received" (JString received) obj)] /\
     log (_on_message json_loads now received message st) = log st).
Proof.
  intros json_loads now received message members obj st Hl Ht Hd.
  unfold _on_message.
  rewrite (on_message_body_enqueue json_loads now received message members obj st Hl Ht Hd).
  unfold put_nowait_or_drop.
  unfold Method.seq, Method.lift, Method.assign, Method.read, Method.ret.
  cbn [data_queue set_metrics].
  destruct (full (data_queue st)); cbn; repeat split; intros; try discriminate;
    reflexivity.
Qed.

Lemma full_queue_drops_newest_witness :
  data_queue (_on_message sample_loads (17362080605 # 10)
                "2025-01-07T00:01:00.500000" candle_message full_state)
  = data_queue full_state /\
  log (_on_message sample_loads (17362080605 # 10)
         "2025-01-07T00:01:00.500000" candle_message full_state)
  = [WarningQueueFull].
Proof.
  refine (proj1 (proj2 (full_queue_drops_newest sample_loads (17362080605 # 10)
            "2025-01-07T00:01:00.500000" candle_message _ _ full_state _ _ _)) _);
    try (vm_compute; reflexivity).
Defined.

(** C6, as stated, fails: the metrics after a dropped message are the
    metrics after a stored one; no field counts the drop. *)
Lemma drop_leaves_no_count :
  full (data_queue full_state) = true /\
  full (data_queue (make 1000)) = false /\
  metrics full_state = metrics (make 1000) /\
  items (data_queue (_on_message sample_loads (17362080605 # 10)
                       "2025-01-07T00:01:00.500000" candle_message full_state))
  = items (data_queue full_state) /\
  List.length (items (data_queue (_on_message sample_loads (17362080605 # 10)
                        "2025-01-07T00:01:00.500000" candle_message (make 1000))))
  = 1%nat /\
  metrics (_on_message sample_loads (17362080605 # 10)
             "2025-01-07T00:01:00.500000" candle_message full_state)
  = {| message_count := 1; error_count := 0;
       connected_at := 0%Q; last_message_at := 17362080605 # 10 |} /\
  metrics (_on_message sample_loads (17362080605 # 10)
             "2025-01-07T00:01:00.500000" candle_message full_state)
  = metrics (_on_message sample_loads (17362080605 # 10)
               "2025-01-07T00:01:00.500000" candle_message (make 1000)).
Proof. repeat split; vm_compute; reflexivity. Qed.

(** C7 (the code departs from it): a message that [json.loads] cannot
    decode is caught by [_on_message], logged, and nothing is stored,
    but the error counter is left as it was; the one handler of
    development/ws_simple_update.py counts it. *)
Theorem decode_error_is_not_counted :
  forall (json_loads : string -> result json) (now : Q)
         (received message : string) (st : state),
    json_loads message = Raise JSONDecodeError ->
    _on_message json_loads now received message st
    = write_log (ErrorParse JSONDecodeError) st /\
    error_count (metrics (_on_message json_loads now received message st))
    = error_count (metrics st) /\
    data_queue (_on_message json_loads now received message st) = data_queue st /\
    error_count (metrics (on_message json_loads received message st))
    = error_count (metrics st) + 1.
Proof.
  intros json_loads now received message st Hl.
  unfold _on_message, on_message, on_message_body, simple_body.
  unfold Method.seq, Method.lift. rewrite Hl. repeat split.
Qed.

Lemma decode_error_is_not_counted_witness :
  error_count (metrics (_on_message sample_loads (17362080605 # 10)
                          "2025-01-07T00:01:00.500000" "not json" (make 1000)))
  = 0.
Proof.
  refine (eq_trans
            (proj1 (proj2 (decode_error_is_not_counted sample_loads (17362080605 # 10)
                             "2025-01-07T00:01:00.500000" "not json" (make 1000) _)))
            _);
    reflexivity.
Defined.

End Handler.

(** ** The constructor against the specification *)

Module StringFacts.

Lemma length_app (s t : string) :
  String.length (s ++ t)%string = (String.length s + String.length t)%nat.
Proof. induction s as [|c s IH]; simpl; [reflexivity|now rewrite IH]. Qed.

Lemma substring_skip (p s : string) (k : nat) :
  substring (String.length p) k (p ++ s)%string = substring 0 k s.
Proof. induction p as [|c p IH]; simpl; [reflexivity|exact IH]. Qed.

Lemma substring_all (s : string) : substring 0 (String.length s) s = s.
Proof. induction s as [|c s IH]; simpl; [reflexivity|now rewrite IH]. Qed.

Lemma substring_prefix (p s : string) :
  substring 0 (String.length p) (p ++ s)%string = p.
Proof.
  induction p as [|c p IH]; simpl; [now destruct s|now rewrite IH].
Qed.

Lemma substring_split (s : string) (k : nat) :
  (k <= String.length s)%nat ->
  (substring 0 k s ++ substring k (String.length s - k) s)%string = s.
Proof.
  revert k. induction s as [|c s IH]; intros k Hk.
  - simpl in Hk. assert (k = 0)%nat by lia. subst. reflexivity.
  - destruct k as [|k].
    + simpl. now rewrite substring_all.
    + simpl in Hk |- *. rewrite IH by lia. reflexivity.
Qed.

Lemma endswith_app (p suffix : string) : endswith (p ++ suffix)%string suffix = true.
Proof.
  unfold endswith. rewrite length_app.
  replace (String.length p + String.length suffix - String.length suffix)%nat
    with (String.length p) by lia.
  rewrite substring_skip, substring_all, String.eqb_refl.
  apply andb_true_iff. split; [apply Nat.leb_le; lia|reflexivity].
Qed.

Lemma drop_right_app (p suffix : string) :
  drop_right (String.length suffix) (p ++ suffix)%string = p.
Proof.
  unfold drop_right. rewrite length_app.
  replace (String.length p + String.length suffix - String.length suffix)%nat
    with (String.length p) by lia.
  apply substring_prefix.
Qed.

Lemma endswith_inv (s suffix : string) :
  endswith s suffix = true -> s = (drop_right (String.length suffix) s ++ suffix)%string.
Proof.
  unfold endswith, drop_right. intros H.
  apply andb_true_iff in H. destruct H as [Hle Heq].
  apply Nat.leb_le in Hle. apply String.eqb_eq in Heq.
  pose proof (substring_split s (String.length s - String.length suffix)) as Hs.
  replace (String.length s - (String.length s - String.length suffix))%nat
    with (String.length suffix) in Hs by lia.
  rewrite Heq in Hs. symmetry. apply Hs. lia.
Qed.

Lemma list_ascii_app (s t : string) :
  list_ascii_of_string (s ++ t)%string = (list_ascii_of_string s ++ list_ascii_of_string t)%list.
Proof. induction s as [|c s IH]; simpl; [reflexivity|now rewrite IH]. Qed.

(** The last character of a string that ends with a given one. *)
Lemma last_of_app (p front : string) (c d : ascii) :
  last (list_ascii_of_string (p ++ front ++ String c EmptyString)%string) d = c.
Proof.
  rewrite !list_ascii_app. simpl. rewrite app_assoc. apply last_last.
Qed.

Lemma endswith_other (p front front' : string) (c c' : ascii) :
  c <> c' ->
  endswith (p ++ front ++ String c EmptyString)%string (front' ++ String c' EmptyString)%string
  = false.
Proof.
  intros Hne.
  destruct (endswith _ _) eqn:E; [|reflexivity].
  apply endswith_inv in E.
  pose proof (last_of_app p front c "000"%char) as H1.
  rewrite E, last_of_app in H1. congruence.
Qed.

End StringFacts.

Module Construction.

Import CandleUpdate StringFacts.

Lemma int_raises_value_error (s : string) (e : exn) : int s = Raise e -> e = ValueError.
Proof. unfold int. destruct (int_opt s); intros H; inversion H. reflexivity. Qed.

Lemma calculate_supported (p name : string) (n us lookback now : Z) :
  In (name, us) units -> int p = Ok n ->
  calculate_start_time_with_bars (p ++ name)%string lookback now
  = start_time_for us n lookback now.
Proof.
  intros Hin Hn. unfold calculate_start_time_with_bars, start_time_for.
  destruct Hin as [H|[H|[H|[]]]]; inversion H; subst name us; clear H.
  - rewrite (endswith_app p "min").
    change 3%nat with (String.length "min"). rewrite drop_right_app, Hn.
    reflexivity.
  - assert (H1 : endswith (p ++ "hour")%string "min" = false)
      by (apply (endswith_other p "hou" "mi" "r" "n"); discriminate).
    rewrite H1, (endswith_app p "hour").
    change 4%nat with (String.length "hour"). rewrite drop_right_app, Hn.
    reflexivity.
  - assert (H1 : endswith (p ++ "day")%string "min" = false)
      by (apply (endswith_other p "da" "mi" "y" "n"); discriminate).
    assert (H2 : endswith (p ++ "day")%string "hour" = false)
      by (apply (endswith_other p "da" "hou" "y" "r"); discriminate).
    rewrite H1, H2, (endswith_app p "day").
    change 3%nat with (String.length "day"). rewrite drop_right_app, Hn.
    reflexivity.
Qed.

Lemma calculate_unsupported (timeframe : string) (lookback now : Z) :
  ~ supported timeframe ->
  calculate_start_time_with_bars timeframe lookback now = Raise ValueError.
Proof.
  intros Hno. unfold calculate_start_time_with_bars.
  assert (Hint : forall (name : string) (us : Z) (k : nat),
            In (name, us) units -> k = String.length name ->
            endswith timeframe name = true ->
            int (drop_right k timeframe) = Raise ValueError).
  { intros name us k Hin -> He. apply endswith_inv in He.
    destruct (int (drop_right (String.length name) timeframe)) as [n|e] eqn:Hn.
    - exfalso. apply Hno.
      exists (drop_right (String.length name) timeframe), n, name, us. auto.
    - now rewrite (int_raises_value_error _ _ Hn). }
  destruct (endswith timeframe "min") eqn:E1.
  { rewrite (Hint "min" (60 * us_per_second) 3%nat); simpl; auto. }
  destruct (endswith timeframe "hour") eqn:E2.
  { rewrite (Hint "hour" (3600 * us_per_second) 4%nat); simpl; auto. }
  destruct (endswith timeframe "day") eqn:E3.
  { rewrite (Hint "day" us_per_day 3%nat); simpl; auto. }
  reflexivity.
Qed.

Lemma start_time_for_raises (us n lookback now : Z) (e : exn) :
  start_time_for us n lookback now = Raise e -> e = OverflowError.
Proof.
  unfold start_time_for, timedelta_mul, timedelta, datetime_sub.
  repeat match goal with
         | |- context [if ?b then _ else _] => destruct b; simpl
         end;
    intros H; inversion H; reflexivity.
Qed.

(** C8 (amended): the constructor checks the timeframe and nothing
    else, in [calculate_start_time_with_bars].  A timeframe of ASCII
    characters that is not a text [int] reads followed by [min], [hour]
    or [day] makes it raise [ValueError] before the fetcher is called.
    For a supported timeframe and any lookback, positive or not, the
    start time is [now - lookback * delta]: the constructor raises
    [OverflowError], before the fetcher is called, when a duration or
    the date leaves its range, and otherwise calls [fetch_all_candles]
    on that start time once; what the call returns or raises is what
    the constructor leaves or raises. *)
Theorem configuration_checked_at_construction :
  forall (fetch_all : Z -> Z -> result (list candle))
         (timeframe : string) (lookback now now' : Z),
    (ascii_text timeframe = true -> ~ supported timeframe ->
     init fetch_all timeframe lookback now now' = ([], Raise ValueError)) /\
    (forall (p name : string) (n us : Z),
        In (name, us) units -> int p = Ok n -> timeframe = (p ++ name)%string ->
        calculate_start_time_with_bars timeframe lookback now
        = start_time_for us n lookback now /\
        match start_time_for us n lookback now with
        | Raise e =>
            e = OverflowError /\
            init fetch_all timeframe lookback now now' = ([], Raise OverflowError)
        | Ok start =>
            init fetch_all timeframe lookback now now'
            = ([FetchAllCandles (whole_seconds start) (whole_seconds now')],
               l <- fetch_all (whole_seconds start) (whole_seconds now') ;;
               Ok (make lookback l))
        end).
Proof.
  intros fetch_all timeframe lookback now now'. split.
  - intros _ Hno. unfold init. now rewrite calculate_unsupported.
  - intros p name n us Hin Hn ->.
    pose proof (calculate_supported p name n us lookback now Hin Hn) as Hc.
    split; [exact Hc|]. unfold init. rewrite Hc.
    destruct (start_time_for us n lookback now) as [start|e] eqn:Hs.
    + reflexivity.
    + rewrite (start_time_for_raises _ _ _ _ _ Hs). split; reflexivity.
Qed.

Lemma configuration_checked_at_construction_witness :
  init sample_fetch_all "1week" 100 1736208200000000 1736208200000500
  = ([], Raise ValueError) /\
  calculate_start_time_with_bars "15min" 100 1736208200000000
  = Ok 1736118200000000 /\
  init sample_fetch_all "15min" 100 1736208200000000 1736208200000500
  = ([FetchAllCandles 1736118200 1736208200], Ok (make 100 backfilled)).
Proof.
  split; [|split].
  - apply (proj1 (configuration_checked_at_construction sample_fetch_all
                    "1week" 100 1736208200000000 1736208200000500)).
    + reflexivity.
    + intros [p [n [name [us [Hin [Htf Hn]]]]]].
      destruct Hin as [H|[H|[H|[]]]]; inversion H; subst name us; clear H.
      * pose proof (endswith_app p "min") as He. rewrite <- Htf in He. discriminate.
      * pose proof (endswith_app p "hour") as He. rewrite <- Htf in He. discriminate.
      * pose proof (endswith_app p "day") as He. rewrite <- Htf in He. discriminate.
  - refine (eq_trans
              (proj1 (proj2 (configuration_checked_at_construction sample_fetch_all
                               "15min" 100 1736208200000000 1736208200000500)
                        "15" "min" 15 (60 * us_per_second) _ _ _)) _).
    + left. reflexivity.
    + reflexivity.
    + reflexivity.
    + reflexivity.
  - exact (proj2 (proj2 (configuration_checked_at_construction sample_fetch_all
                           "15min" 100 1736208200000000 1736208200000500)
                    "15" "min" 15 (60 * us_per_second)
                    (or_introl eq_refl) eq_refl eq_refl)).
Defined.

(** An interval that starts with the file separator is refused, as
    [int] refuses its count. *)
Example separator_interval_is_refused :
  calculate_start_time_with_bars (String (ascii_of_nat 28) "15min") 100 1736208200000000
  = Raise ValueError.
Proof. reflexivity. Qed.

(** C8, as stated, fails: a lookback of zero, and a negative one, pass
    the constructor, which goes on to the fetch. *)
Lemma non_positive_lookback_is_accepted :
  init sample_fetch_all "1min" 0 1736208200000000 1736208200000500
  = ([FetchAllCandles 1736208200 1736208200], Ok (make 0 backfilled)) /\
  init sample_fetch_all "1min" (-5) 1736208200000000 1736208200000500
  = ([FetchAllCandles 1736208500 1736208200], Ok (make (-5) backfilled)).
Proof. split; vm_compute; reflexivity. Qed.

End Construction.

(** ** More on the backfill *)

Module BackfillOrder.

Import Fetcher FetcherFacts.

Lemma within_opens (start_ts end_ts : Z) (c : candle) :
  within start_ts end_ts c = true <-> opens_within start_ts end_ts c.
Proof.
  unfold within, opens_within. split.
  - destruct (openTime c) as [t|e]; [|discriminate].
    intros H. apply andb_true_iff in H. destruct H as [H1 H2].
    apply Z.leb_le in H1, H2. exists t. split; [reflexivity|lia].
  - intros [t [-> [H1 H2]]]. apply andb_true_iff. split; apply Z.leb_le; assumption.
Qed.

Lemma in_range_all_within (start_ts end_ts : Z) (l : list candle) :
  Forall (fun c => within start_ts end_ts c = true) l ->
  in_range start_ts end_ts l = Ok l.
Proof.
  induction 1 as [|c r Hc _ IH]; [reflexivity|].
  simpl. unfold within in Hc.
  destruct (openTime c) as [t|e]; [|discriminate]. simpl.
  rewrite IH. simpl. now rewrite Hc.
Qed.

Lemma keyed_map (l : list candle) (kl : list (string * candle)) :
  keyed l = Ok kl ->
  Forall2 (fun c x => x = (fst x, c) /\ timestamp_of c = Ok (fst x)) l kl.
Proof.
  revert kl. induction l as [|c r IH]; simpl; intros kl H.
  - inversion H. constructor.
  - destruct (timestamp_of c) as [k|e] eqn:Hk; simpl in H; [|discriminate].
    destruct (keyed r) as [kr|e]; simpl in H; [|discriminate].
    inversion H; subst. constructor; [now split|now apply IH].
Qed.

Lemma sort_keyed_sorted_id (kl : list (string * candle)) :
  StronglySorted key_le kl -> sort_keyed kl = kl.
Proof.
  induction 1 as [|x r Hs IH Hall]; [reflexivity|].
  simpl. rewrite IH. destruct r as [|y r']; [reflexivity|].
  simpl. inversion Hall as [|? ? Hxy _]; subst.
  unfold key_le in Hxy. now rewrite Hxy.
Qed.

Lemma keyed_of_timestamps (l : list candle) :
  Forall (fun c => exists s, timestamp_of c = Ok s) l ->
  exists kl, keyed l = Ok kl /\ map snd kl = l /\ Forall well_keyed kl.
Proof.
  induction 1 as [|c r [s Hs] _ [kr [Hk [Hm Hw]]]].
  - exists []. repeat split; constructor.
  - exists ((s, c) :: kr). simpl. rewrite Hs, Hk. simpl.
    repeat split; [now rewrite Hm|constructor; [exact Hs|exact Hw]].
Qed.

Lemma sorted_candles_sorted_keys (kl : list (string * candle)) :
  Forall well_keyed kl -> StronglySorted ts_le (map snd kl) ->
  StronglySorted key_le kl.
Proof.
  induction kl as [|x r IH]; intros Hw Hs; [constructor|].
  inversion Hw as [|? ? Hx Hr]; subst. simpl in Hs.
  inversion Hs as [|? ? Hs' Hall]; subst.
  constructor; [now apply IH|].
  apply Forall_forall. intros y Hy.
  rewrite Forall_forall in Hall, Hr.
  destruct (Hall (snd y) (in_map snd _ _ Hy)) as [s [t [H1 [H2 Hle]]]].
  unfold well_keyed in Hx. rewrite Hx in H1.
  pose proof (Hr y Hy) as Hy'. unfold well_keyed in Hy'. rewrite Hy' in H2.
  inversion H1; inversion H2; subst. exact Hle.
Qed.

Lemma merged_in_range (start_ts end_ts : Z) (chunks l : list candle) :
  merge start_ts end_ts chunks = Ok l -> Forall (opens_within start_ts end_ts) l.
Proof.
  intros Hm. apply merge_ok in Hm. destruct Hm as [kl [_ ->]].
  apply Forall_forall. intros c Hc. apply filter_In in Hc.
  now apply within_opens.
Qed.

(** A merged list is a fixed point of the merge. *)
Lemma merge_merged (start_ts end_ts : Z) (chunks l : list candle) :
  merge start_ts end_ts chunks = Ok l -> merge start_ts end_ts l = Ok l.
Proof.
  intros H.
  pose proof (Backfill.merged_sorted _ _ _ _ H) as Hs.
  pose proof (merged_in_range _ _ _ _ H) as Hin.
  assert (Hw : Forall (fun c => within start_ts end_ts c = true) l).
  { eapply Forall_impl; [|exact Hin]. intros c. apply within_opens. }
  assert (Ht : Forall (fun c => exists s, timestamp_of c = Ok s) l).
  { eapply Forall_impl; [|exact Hin]. intros c [t [Ho _]].
    unfold openTime in Ho. destruct (timestamp_of c) as [s|e]; [now exists s|discriminate]. }
  destruct (keyed_of_timestamps l Ht) as [kl [Hk [Hm Hwk]]].
  destruct l as [|c r]; [reflexivity|].
  unfold merge, sort_by_timestamp. rewrite Hk. simpl bind.
  rewrite sort_keyed_sorted_id, Hm.
  - now apply in_range_all_within.
  - apply sorted_candles_sorted_keys; [exact Hwk|now rewrite Hm].
Qed.

(** X1: whenever [fetch_all_candles] returns, every candle of the list
    has an integer open time between [start_ts] and the end time. *)
Theorem fetched_candles_in_range :
  forall (server : Z -> Z -> result (list candle)) (tz : Z -> result Z)
         (start_ts end_ts : Z) (fuel : nat) (l : list candle),
    fetch_all_candles server tz start_ts end_ts fuel = Some (Ok l) ->
    Forall (opens_within start_ts end_ts) l.
Proof.
  intros server tz start_ts end_ts fuel l H.
  apply fetch_all_candles_ok in H. destruct H as [chunks [_ Hm]].
  eapply merged_in_range; eauto.
Qed.

Lemma fetched_candles_in_range_witness :
  Forall (opens_within 1736208000 1736208200)
    [bar "1736208000" "94030"; bar "1736208060" "94020";
     bar "1736208060" "94021"; bar "1736208120" "94010"].
Proof.
  apply (fetched_candles_in_range overlapping_pages utc_machine
           1736208000 1736208200 5).
  vm_compute. reflexivity.
Defined.

(** X2: the list [fetch_all_candles] returns is left as it is by the
    sort and the range filter: merging it again changes nothing. *)
Theorem fetched_list_is_merged :
  forall (server : Z -> Z -> result (list candle)) (tz : Z -> result Z)
         (start_ts end_ts : Z) (fuel : nat) (l : list candle),
    fetch_all_candles server tz start_ts end_ts fuel = Some (Ok l) ->
    merge start_ts end_ts l = Ok l.
Proof.
  intros server tz start_ts end_ts fuel l H.
  apply fetch_all_candles_ok in H. destruct H as [chunks [_ Hm]].
  eapply merge_merged; eauto.
Qed.

Lemma fetched_list_is_merged_witness :
  merge 1736208000 1736208200
    [bar "1736208000" "94030"; bar "1736208060" "94020";
     bar "1736208060" "94021"; bar "1736208120" "94010"]
  = Ok [bar "1736208000" "94030"; bar "1736208060" "94020";
        bar "1736208060" "94021"; bar "1736208120" "94010"].
Proof.
  apply (fetched_list_is_merged overlapping_pages utc_machine
           1736208000 1736208200 5).
  vm_compute. reflexivity.
Defined.

(** The key [keyed] pairs with a candle. *)
Lemma keyed_as_map (l : list candle) (kl : list (string * candle)) :
  keyed l = Ok kl ->
  kl = map (fun c => (match timestamp_of c with Ok k => k | Raise _ => "" end, c)) l.
Proof.
  revert kl. induction l as [|c r IH]; simpl; intros kl H.
  - now inversion H.
  - destruct (timestamp_of c) as [k|e]; simpl in H; [|discriminate].
    destruct (keyed r) as [kr|e]; simpl in H; [|discriminate].
    inversion H; subst. now rewrite (IH kr eq_refl).
Qed.

Lemma keyed_raises (l : list candle) (e : exn) :
  keyed l = Raise e ->
  e = IndexError /\ ~ Forall (fun c => exists s, timestamp_of c = Ok s) l.
Proof.
  induction l as [|c r IH]; simpl; [discriminate|].
  destruct (timestamp_of c) as [k|e'] eqn:Hk; simpl.
  - destruct (keyed r) as [kr|e'']; simpl; [discriminate|].
    intros H. inversion H; subst. destruct (IH eq_refl) as [-> Hn].
    split; [reflexivity|]. intros Hf. inversion Hf; subst. contradiction.
  - intros H. inversion H; subst. split.
    + unfold timestamp_of, item in Hk. destruct (nth_error c 0); now inversion Hk.
    + intros Hf. inversion Hf as [|? ? [s Hs] _]; subst. congruence.
Qed.

Lemma keyed_permutation (l l' : list candle) :
  Permutation l l' ->
  match keyed l, keyed l' with
  | Ok kl, Ok kl' => Permutation kl kl'
  | Raise e, Raise e' => e = e'
  | _, _ => False
  end.
Proof.
  intros Hp.
  destruct (keyed l) as [kl|e] eqn:Hk; destruct (keyed l') as [kl'|e'] eqn:Hk'.
  - rewrite (keyed_as_map _ _ Hk), (keyed_as_map _ _ Hk'). now apply Permutation_map.
  - apply keyed_raises in Hk'. destruct Hk' as [_ Hn]. apply Hn.
    apply keyed_ok in Hk. destruct Hk as [Hm Hw].
    eapply Permutation_Forall; [exact Hp|]. rewrite <- Hm.
    apply Forall_forall. intros c Hc. apply in_map_iff in Hc.
    destruct Hc as [x [<- Hx]]. rewrite Forall_forall in Hw. exists (fst x). now apply Hw.
  - apply keyed_raises in Hk. destruct Hk as [_ Hn]. apply Hn.
    apply keyed_ok in Hk'. destruct Hk' as [Hm Hw].
    eapply Permutation_Forall; [apply Permutation_sym; exact Hp|]. rewrite <- Hm.
    apply Forall_forall. intros c Hc. apply in_map_iff in Hc.
    destruct Hc as [x [<- Hx]]. rewrite Forall_forall in Hw. exists (fst x). now apply Hw.
  - apply keyed_raises in Hk, Hk'. destruct Hk as [-> _], Hk' as [-> _]. reflexivity.
Qed.

(** Two sorted lists with the same elements and distinct keys are one
    list. *)
Lemma sorted_permutation_unique (l1 l2 : list (string * candle)) :
  StronglySorted key_le l1 -> StronglySorted key_le l2 ->
  Permutation l1 l2 -> NoDup (map fst l1) -> l1 = l2.
Proof.
  revert l2. induction l1 as [|x r1 IH]; intros l2 H1 H2 Hp Hn.
  - now apply Permutation_nil in Hp.
  - destruct l2 as [|y r2]; [apply Permutation_sym, Permutation_nil in Hp; discriminate|].
    inversion H1 as [|? ? Hs1 Ha1]; subst. inversion H2 as [|? ? Hs2 Ha2]; subst.
    assert (Hxy : x = y).
    { assert (Hx : In x (y :: r2)) by (eapply Permutation_in; [exact Hp|now left]).
      assert (Hy : In y (x :: r1))
        by (eapply Permutation_in; [apply Permutation_sym; exact Hp|now left]).
      destruct Hx as [Hx|Hx]; [now symmetry|].
      destruct Hy as [Hy|Hy]; [exact Hy|].
      rewrite Forall_forall in Ha1, Ha2.
      pose proof (Ha1 y Hy) as Hle1. pose proof (Ha2 x Hx) as Hle2.
      pose proof (String.leb_antisym _ _ Hle1 Hle2) as Hk.
      simpl in Hn. inversion Hn as [|? ? Hnot _]; subst.
      exfalso. apply Hnot. rewrite Hk. now apply in_map. }
    subst y. f_equal. apply IH; auto.
    + eapply Permutation_cons_inv; eauto.
    + simpl in Hn. now inversion Hn.
Qed.

(** X3: when the fetched candles carry pairwise distinct timestamps, the
    order in which the pages arrived does not matter: the sort and the
    range filter give the same list, or raise the same exception, for
    any rearrangement of the collected candles. *)
Theorem merge_ignores_arrival_order :
  forall (start_ts end_ts : Z) (chunks chunks' : list candle),
    Permutation chunks chunks' ->
    NoDup (map timestamp_of chunks) ->
    merge start_ts end_ts chunks = merge start_ts end_ts chunks'.
Proof.
  intros start_ts end_ts chunks chunks' Hp Hn.
  destruct chunks as [|c r].
  { apply Permutation_nil in Hp. now subst. }
  destruct chunks' as [|c' r'].
  { apply Permutation_sym, Permutation_nil in Hp. discriminate. }
  unfold merge, sort_by_timestamp.
  pose proof (keyed_permutation _ _ Hp) as Hk.
  destruct (keyed (c :: r)) as [kl|e] eqn:E1;
    destruct (keyed (c' :: r')) as [kl'|e'] eqn:E2; try contradiction.
  2:{ subst. reflexivity. }
  simpl bind.
  assert (Heq : sort_keyed kl = sort_keyed kl').
  { apply sorted_permutation_unique; try apply sort_keyed_sorted.
    - eapply perm_trans; [apply sort_keyed_perm|].
      eapply perm_trans; [exact Hk|apply Permutation_sym, sort_keyed_perm].
    - eapply Permutation_NoDup;
        [apply Permutation_map, Permutation_sym, sort_keyed_perm|].
      apply keyed_ok in E1. destruct E1 as [Hm Hw]. rewrite <- Hm in Hn.
      rewrite map_map in Hn.
      apply (NoDup_map_inv (fun k => @Ok string k)).
      rewrite map_map.
      erewrite map_ext_in; [exact Hn|].
      intros x Hx. rewrite Forall_forall in Hw. symmetry. now apply Hw. }
  now rewrite Heq.
Qed.

Lemma merge_ignores_arrival_order_witness :
  merge 1736208000 1736208200
    [bar "1736208120" "94010"; bar "1736208060" "94020"; bar "1736208000" "94030"]
  = merge 1736208000 1736208200
      [bar "1736208060" "94020"; bar "1736208000" "94030"; bar "1736208120" "94010"].
Proof.
  apply merge_ignores_arrival_order.
  - apply Permutation_cons_app with (l1 := [bar "1736208060" "94020"; bar "1736208000" "94030"])
                                    (l2 := []).
    rewrite app_nil_r. apply Permutation_refl.
  - repeat constructor; simpl; intuition discriminate.
Defined.

Lemma in_range_parsed (start_ts end_ts : Z) (l : list candle) :
  Forall (fun c => exists t, openTime c = Ok t) l ->
  in_range start_ts end_ts l = Ok (filter (within start_ts end_ts) l).
Proof.
  induction 1 as [|c r [t Ht] _ IH]; [reflexivity|].
  simpl. unfold within at 1. rewrite Ht, IH. simpl.
  now destruct ((start_ts <=? t) && (t <=? end_ts)).
Qed.

Lemma insert_keyed_last (x : string * candle) (l : list (string * candle)) :
  Forall (fun y => String.ltb (fst y) (fst x) = true) l ->
  insert_keyed x l = l ++ [x].
Proof.
  induction 1 as [|y r Hy _ IH]; [reflexivity|].
  simpl. rewrite IH.
  assert (Hle : String.leb (fst x) (fst y) = false).
  { unfold String.ltb in Hy. unfold String.leb. rewrite String.compare_antisym.
    destruct (String.compare (fst y) (fst x)); try discriminate. reflexivity. }
  now rewrite Hle.
Qed.

Lemma sort_keyed_descending (kl : list (string * candle)) :
  StronglySorted (fun a b => String.ltb (fst b) (fst a) = true) kl ->
  sort_keyed kl = rev kl.
Proof.
  induction 1 as [|x r Hs IH Hall]; [reflexivity|].
  simpl. rewrite IH. apply insert_keyed_last.
  apply Forall_forall. intros y Hy. apply in_rev in Hy.
  rewrite Forall_forall in Hall. now apply Hall.
Qed.

(** X4: a single page that arrives newest first, with strictly
    decreasing timestamp strings, and reaches back to [start_ts] is
    returned oldest first: the result is the page reversed, without the
    candles outside the range. *)
Theorem newest_first_page_is_reversed :
  forall (server : Z -> Z -> result (list candle)) (tz : Z -> result Z)
         (start_ts end_ts : Z) (fuel : nat) (page : list candle) (earliest : Z),
    server start_ts end_ts = Ok page ->
    StronglySorted (fun a b => ts_lt b a) page ->
    Forall (fun c => exists t, openTime c = Ok t) page ->
    (c <- last_item page ;; openTime c) = Ok earliest ->
    earliest <= start_ts ->
    fetch_all_candles server tz start_ts end_ts (S fuel)
    = Some (Ok (rev (filter (within start_ts end_ts) page))).
Proof.
  intros server tz start_ts end_ts fuel page earliest Hsrv Hdesc Hparse Hlast Hle.
  unfold fetch_all_candles. cbn [fetch_loop]. rewrite Hsrv.
  destruct page as [|c r]; [discriminate Hlast|].
  rewrite Hlast. apply Z.leb_le in Hle. rewrite Hle. f_equal.
  cbn [app]. unfold merge, sort_by_timestamp.
  assert (Ht : Forall (fun c => exists s, timestamp_of c = Ok s) (c :: r)).
  { eapply Forall_impl; [|exact Hparse]. intros a [t Ho].
    unfold openTime in Ho. destruct (timestamp_of a) as [s|e]; [now exists s|discriminate]. }
  destruct (keyed_of_timestamps _ Ht) as [kl [Hk [Hm Hw]]].
  rewrite Hk. simpl bind.
  assert (Hd : StronglySorted (fun a b => String.ltb (fst b) (fst a) = true) kl).
  { clear - Hdesc Hm Hw. revert Hdesc. rewrite <- Hm. clear Hm.
    induction kl as [|x k IH]; intros Hd; [constructor|].
    simpl in Hd. inversion Hd as [|? ? Hs Hall]; subst.
    inversion Hw as [|? ? Hx Hk]; subst.
    constructor; [now apply IH|].
    apply Forall_forall. intros y Hy. rewrite Forall_forall in Hall, Hk.
    destruct (Hall (snd y) (in_map snd _ _ Hy)) as [s [t [H1 [H2 Hlt]]]].
    pose proof (Hk y Hy) as Hy'. unfold well_keyed in Hx, Hy'.
    rewrite Hy' in H1. rewrite Hx in H2. inversion H1; inversion H2; subst.
    exact Hlt. }
  rewrite (sort_keyed_descending kl Hd), map_rev, Hm.
  rewrite in_range_parsed.
  - now rewrite filter_rev.
  - apply Forall_forall. intros a Ha. apply in_rev in Ha.
    rewrite Forall_forall in Hparse. now apply Hparse.
Qed.

Lemma newest_first_page_is_reversed_witness :
  fetch_all_candles overlapping_pages utc_machine 1736208060 1736208200 1
  = Some (Ok (rev (filter (within 1736208060 1736208200)
                     [bar "1736208120" "94010"; bar "1736208060" "94020"]))).
Proof.
  apply (newest_first_page_is_reversed overlapping_pages utc_machine
           1736208060 1736208200 0
           [bar "1736208120" "94010"; bar "1736208060" "94020"] 1736208060).
  - reflexivity.
  - repeat constructor. exists "1736208060", "1736208120". repeat split.
  - repeat constructor; eexists; reflexivity.
  - reflexivity.
  - lia.
Defined.

End BackfillOrder.

(** ** More on the message handler and its queue *)

Module Queueing.

Import WebSocket.

Lemma is_message_inv (v : option json) :
  is_message v = true -> v = Some (JString "message").
Proof.
  destruct v as [[| | |s| |]|]; simpl; try discriminate.
  intros H. apply String.eqb_eq in H. now subst.
Qed.

(** What [_on_message] can leave. *)
Lemma on_message_cases (json_loads : string -> result json) (now : Q)
    (received message : string) (st : state) :
  let st' := _on_message json_loads now received message st in
  (json_loads message = Raise JSONDecodeError /\
   st' = write_log (ErrorParse JSONDecodeError) st) \/
  (exists e, json_loads message = Raise e /\ e <> JSONDecodeError /\
             st' = errored e st) \/
  (exists v, json_loads message = Ok v /\ (forall obj, ~ candle_data v obj) /\
             (st' = st \/ exists e, st' = errored e st \/ st' = errored e (counted now st))) \/
  (exists v obj, json_loads message = Ok v /\ candle_data v obj /\
                 full (data_queue st) = true /\
                 st' = write_log WarningQueueFull (counted now st)) \/
  (exists v obj, json_loads message = Ok v /\ candle_data v obj /\
                 full (data_queue st) = false /\
                 st' = set_items (items (data_queue st) ++ [stamped received obj])
                         (counted now st)).
Proof.
  cbv zeta. unfold _on_message, on_message_body.
  unfold Method.seq, Method.lift, Method.assign, Method.read, Method.ret.
  destruct (json_loads message) as [v|e] eqn:Hl.
  2:{ destruct e;
        try (left; split; reflexivity);
        right; left; eexists; (split; [reflexivity|split; [discriminate|reflexivity]]). }
  right. right.
  destruct v as [| b | q | s | l | members];
    try (left; eexists; split; [reflexivity|]; split;
         [intros obj [m [Hm _]]; discriminate
         |right; exists AttributeError; left; reflexivity]).
  cbn [get contains].
  destruct (is_message (lookup "type" members)) eqn:Hty.
  2:{ left. eexists. split; [reflexivity|]. split; [|left; reflexivity].
      intros obj [m [Hm [Ht _]]]. inversion Hm; subst m.
      rewrite Ht in Hty. discriminate. }
  apply is_message_inv in Hty.
  destruct (lookup "data" members) as [d|] eqn:Hd.
  2:{ left. eexists. split; [reflexivity|]. split; [|left; reflexivity].
      intros obj [m [Hm [_ Hdd]]]. inversion Hm; subst m. congruence. }
  cbn [andb getitem]. rewrite Hd.
  destruct d as [| b | q | s | l | obj];
    try (left; eexists; split; [reflexivity|]; split;
         [intros obj [m [Hm [_ Hdd]]]; inversion Hm; subst m; congruence
         |right; exists TypeError; right; reflexivity]).
  right. cbn [setitem]. unfold put_nowait_or_drop.
  unfold Method.seq, Method.lift, Method.assign, Method.read, Method.ret.
  cbn [data_queue set_metrics].
  destruct (full (data_queue st)) eqn:Hf.
  - left. exists (JObject members), obj. repeat split; auto. exists members. auto.
  - right. exists (JObject members), obj. repeat split; auto. exists members. auto.
Qed.

Lemma step_keeps_bound (json_loads : string -> result json) (now : Q)
    (received message : string) (st : state) :
  0 < maxsize (data_queue st) ->
  Z.of_nat (List.length (items (data_queue st))) <= maxsize (data_queue st) ->
  maxsize (data_queue (_on_message json_loads now received message st))
  = maxsize (data_queue st) /\
  Z.of_nat (List.length
              (items (data_queue (_on_message json_loads now received message st))))
  <= maxsize (data_queue st).
Proof.
  intros Hpos Hlen.
  destruct (on_message_cases json_loads now received message st)
    as [[_ ->]|[[e [_ [_ ->]]]|[[v [_ [_ [->|[e [->| ->]]]]]]
       |[[v [obj [_ [_ [_ ->]]]]]|[v [obj [_ [_ [Hf ->]]]]]]]]];
    try (split; [reflexivity|exact Hlen]).
  split; [reflexivity|]. cbn. rewrite length_app. cbn.
  unfold full in Hf. apply andb_false_iff in Hf.
  destruct Hf as [Hf|Hf]; [apply Z.ltb_ge in Hf|apply Z.leb_gt in Hf]; lia.
Qed.

(** X5: with a positive [maxsize], the queue never holds more than
    [maxsize] items, whatever messages arrive. *)
Theorem queue_stays_within_maxsize :
  forall (json_loads : string -> result json) (arrivals : list arrival) (st : state),
    0 < maxsize (data_queue st) ->
    Z.of_nat (List.length (items (data_queue st))) <= maxsize (data_queue st) ->
    maxsize (data_queue (receive_all json_loads arrivals st)) = maxsize (data_queue st) /\
    Z.of_nat (List.length (items (data_queue (receive_all json_loads arrivals st))))
    <= maxsize (data_queue st).
Proof.
  intros json_loads arrivals. induction arrivals as [|a r IH]; intros st Hpos Hlen.
  - split; [reflexivity|exact Hlen].
  - cbn [receive_all].
    destruct (step_keeps_bound json_loads (at_time a) (at_iso a) (text a) st Hpos Hlen)
      as [Hm Hl].
    rewrite <- Hm in Hl |- *. apply IH; [now rewrite Hm|exact Hl].
Qed.

Lemma step_appends (json_loads : string -> result json) (now : Q)
    (received message : string) (st : state) :
  exists suffix,
    items (data_queue (_on_message json_loads now received message st))
    = items (data_queue st) ++ suffix /\ (List.length suffix <= 1)%nat.
Proof.
  destruct (on_message_cases json_loads now received message st)
    as [[_ ->]|[[e [_ [_ ->]]]|[[v [_ [_ [->|[e [->| ->]]]]]]
       |[[v [obj [_ [_ [_ ->]]]]]|[v [obj [_ [_ [Hf ->]]]]]]]]];
    try (exists []; split; [cbn; now rewrite app_nil_r|simpl; lia]).
  exists [stamped received obj]. split; [reflexivity|simpl; lia].
Qed.

(** X6: the handler never removes or reorders what is queued: after any
    messages the queue is the old queue followed by at most one item per
    message, so [get_data] still returns the item that was the oldest. *)
Theorem queue_is_first_in_first_out :
  forall (json_loads : string -> result json) (arrivals : list arrival) (st : state),
    (exists suffix,
        items (data_queue (receive_all json_loads arrivals st))
        = items (data_queue st) ++ suffix /\
        (List.length suffix <= List.length arrivals)%nat) /\
    (forall x rest, items (data_queue st) = x :: rest ->
                    snd (get_data (receive_all json_loads arrivals st)) = Some x).
Proof.
  intros json_loads arrivals st.
  assert (H : exists suffix,
             items (data_queue (receive_all json_loads arrivals st))
             = items (data_queue st) ++ suffix /\
             (List.length suffix <= List.length arrivals)%nat).
  { revert st. induction arrivals as [|a r IH]; intros st.
    - exists []. split; [cbn; now rewrite app_nil_r|simpl; lia].
    - cbn [receive_all].
      destruct (step_appends json_loads (at_time a) (at_iso a) (text a) st)
        as [s1 [H1 L1]].
      destruct (IH (_on_message json_loads (at_time a) (at_iso a) (text a) st))
        as [s2 [H2 L2]].
      exists (s1 ++ s2). split.
      + rewrite H2, H1. now rewrite app_assoc.
      + rewrite length_app. simpl. lia. }
  split; [exact H|].
  intros x rest Hx. destruct H as [suffix [H _]].
  unfold get_data. rewrite H, Hx. reflexivity.
Qed.

Lemma queue_is_first_in_first_out_witness :
  snd (get_data
         (receive_all sample_loads
            [{| at_time := 17362080605 # 10; at_iso := "2025-01-07T00:01:00.500000";
                text := candle_message |};
             {| at_time := 17362080611 # 10; at_iso := "2025-01-07T00:01:01.100000";
                text := "not json" |}]
            (set_items [JObject [("symbol", JString "ETH-USDT")]] (make 1000))))
  = Some (JObject [("symbol", JString "ETH-USDT")]).
Proof.
  eapply (proj2 (queue_is_first_in_first_out sample_loads _ _)).
  reflexivity.
Defined.

Lemma lookup_store_same (k : string) (v : json) (m : list (string * json)) :
  lookup k (store k v m) = Some v.
Proof.
  induction m as [|[k' v'] r IH]; simpl.
  - now rewrite String.eqb_refl.
  - destruct (String.eqb_spec k k') as [->|Hne]; simpl.
    + now rewrite String.eqb_refl.
    + destruct (String.eqb_spec k k'); [contradiction|exact IH].
Qed.

Lemma lookup_store_other (k k' : string) (v : json) (m : list (string * json)) :
  k' <> k -> lookup k' (store k v m) = lookup k' m.
Proof.
  intros Hne. induction m as [|[k0 v0] r IH]; simpl.
  - destruct (String.eqb_spec k' k); [contradiction|reflexivity].
  - destruct (String.eqb_spec k k0) as [->|Hk]; simpl.
    + destruct (String.eqb_spec k' k0); [contradiction|reflexivity].
    + destruct (String.eqb_spec k' k0); [reflexivity|exact IH].
Qed.

(** X7: a candle message that meets an empty queue is what [get_data]
    returns next: its data object with ['time_received'] set to the time
    of receipt and every other member as it was sent; the queue is empty
    again afterwards. *)
Theorem message_round_trip :
  forall (json_loads : string -> result json) (now : Q)
         (received message : string) (v : json) (obj : list (string * json))
         (st : state),
    json_loads message = Ok v -> candle_data v obj ->
    items (data_queue st) = [] ->
    exists queued,
      get_data (_on_message json_loads now received message st)
      = (set_items [] (counted now st), Some (JObject queued)) /\
      lookup "time_received" queued = Some (JString received) /\
      (forall k, k <> "time_received" -> lookup k queued = lookup k obj).
Proof.
  intros json_loads now received message v obj st Hl Hc He.
  exists (store "time_received" (JString received) obj).
  split; [|split; [apply lookup_store_same|intros k Hk; now apply lookup_store_other]].
  assert (Hf : full (data_queue st) = false).
  { unfold full. rewrite He. simpl.
    destruct (Z.ltb_spec 0 (maxsize (data_queue st))); simpl; [|reflexivity].
    apply Z.leb_gt. lia. }
  destruct (on_message_cases json_loads now received message st)
    as [[Hx _]|[[e [Hx _]]|[[v' [Hx [Hn _]]]
       |[[v' [obj' [_ [_ [Hf' _]]]]]|[v' [obj' [Hx [Hc' [_ ->]]]]]]]]];
    try congruence.
  - rewrite Hl in Hx. inversion Hx; subst v'. now elim (Hn obj).
  - rewrite Hl in Hx. inversion Hx; subst v'.
    destruct Hc as [m [Hv [_ Hd]]], Hc' as [m' [Hv' [_ Hd']]].
    rewrite Hv in Hv'. inversion Hv'; subst m'. rewrite Hd in Hd'.
    inversion Hd'; subst obj'.
    unfold get_data. cbn. rewrite He. reflexivity.
Qed.

Lemma message_round_trip_witness :
  exists queued,
    get_data (_on_message sample_loads (17362080605 # 10)
                "2025-01-07T00:01:00.500000" candle_message (make 1000))
    = (set_items [] (counted (17362080605 # 10) (make 1000)), Some (JObject queued)) /\
    lookup "time_received" queued = Some (JString "2025-01-07T00:01:00.500000") /\
    (forall k, k <> "time_received" ->
               lookup k queued
               = lookup k [("symbol", JString "BTC-USDT");
                           ("candles", JArray
                              (map JString
                                 ["1736208060"; "94000.1"; "94020"; "94100";
                                  "93900.5"; "12.5"; "1175000"]))]).
Proof.
  apply (message_round_trip sample_loads (17362080605 # 10)
           "2025-01-07T00:01:00.500000" candle_message candle_message_value).
  - reflexivity.
  - eexists. repeat split.
  - reflexivity.
Defined.

Lemma queue_stays_within_maxsize_witness :
  Z.of_nat (List.length
              (items (data_queue
                        (receive_all sample_loads
                           [{| at_time := 17362080605 # 10;
                               at_iso := "2025-01-07T00:01:00.500000";
                               text := candle_message |};
                            {| at_time := 17362080611 # 10;
                               at_iso := "2025-01-07T00:01:01.100000";
                               text := candle_message |}]
                           (make 1)))))
  <= 1.
Proof.
  apply (queue_stays_within_maxsize sample_loads _ (make 1)); simpl; lia.
Defined.

Lemma step_metrics (json_loads : string -> result json) (now : Q)
    (received message : string) (st : state) :
  let st' := _on_message json_loads now received message st in
  message_count (metrics st) <= message_count (metrics st')
  <= message_count (metrics st) + 1 /\
  error_count (metrics st) <= error_count (metrics st')
  <= error_count (metrics st) + 1 /\
  connected_at (metrics st') = connected_at (metrics st).
Proof.
  cbv zeta.
  destruct (on_message_cases json_loads now received message st)
    as [[_ ->]|[[e [_ [_ ->]]]|[[v [_ [_ [->|[e [->| ->]]]]]]
       |[[v [obj [_ [_ [_ ->]]]]]|[v [obj [_ [_ [_ ->]]]]]]]]];
    cbn; repeat split; lia.
Qed.

(** X8: the counters of the metrics only grow, by at most one per
    message each, and the handler never touches [connected_at]. *)
Theorem counters_only_grow :
  forall (json_loads : string -> result json) (arrivals : list arrival) (st : state),
    message_count (metrics st)
    <= message_count (metrics (receive_all json_loads arrivals st))
    <= message_count (metrics st) + Z.of_nat (List.length arrivals) /\
    error_count (metrics st)
    <= error_count (metrics (receive_all json_loads arrivals st))
    <= error_count (metrics st) + Z.of_nat (List.length arrivals) /\
    connected_at (metrics (receive_all json_loads arrivals st))
    = connected_at (metrics st).
Proof.
  intros json_loads arrivals. induction arrivals as [|a r IH]; intros st.
  - cbn. repeat split; lia.
  - cbn [receive_all List.length].
    pose proof (step_metrics json_loads (at_time a) (at_iso a) (text a) st) as Hs.
    cbv zeta in Hs. destruct Hs as [Hm [He Hc]].
    destruct (IH (_on_message json_loads (at_time a) (at_iso a) (text a) st))
      as [Hm' [He' Hc']].
    rewrite Hc'. repeat split; try exact Hc; lia.
Qed.

(** X9: only a candle message with a data object can change the queue:
    an undecodable text, a value that is not an object, a message of
    another type and a candle message whose data is not an object all
    leave the queue as it was. *)
Theorem other_messages_leave_the_queue :
  forall (json_loads : string -> result json) (now : Q)
         (received message : string) (st : state),
    (forall v obj, json_loads message = Ok v -> ~ candle_data v obj) ->
    data_queue (_on_message json_loads now received message st) = data_queue st.
Proof.
  intros json_loads now received message st Hno.
  destruct (on_message_cases json_loads now received message st)
    as [[_ ->]|[[e [_ [_ ->]]]|[[v [_ [_ [->|[e [->| ->]]]]]]
       |[[v [obj [Hl [Hc _]]]]|[v [obj [Hl [Hc _]]]]]]]];
    try reflexivity; now elim (Hno v obj).
Qed.

Lemma other_messages_leave_the_queue_witness :
  data_queue (_on_message sample_loads (17362080605 # 10)
                "2025-01-07T00:01:00.500000" "not json" full_state)
  = data_queue full_state.
Proof.
  apply other_messages_leave_the_queue.
  intros v obj Hl. vm_compute in Hl. discriminate.
Defined.

(** X10: a candle message whose data is not an object is counted twice:
    as a message, and as an error when the time of receipt cannot be
    written into it; nothing is queued. *)
Theorem bad_data_counts_twice :
  forall (json_loads : string -> result json) (now : Q)
         (received message : string) (members : list (string * json))
         (d : json) (st : state),
    json_loads message = Ok (JObject members) ->
    lookup "type" members = Some (JString "message") ->
    lookup "data" members = Some d ->
    (forall obj, d <> JObject obj) ->
    _on_message json_loads now received message st
    = errored TypeError (counted now st) /\
    message_count (metrics (_on_message json_loads now received message st))
    = message_count (metrics st) + 1 /\
    error_count (metrics (_on_message json_loads now received message st))
    = error_count (metrics st) + 1 /\
    data_queue (_on_message json_loads now received message st) = data_queue st.
Proof.
  intros json_loads now received message members d st Hl Ht Hd Hno.
  assert (H : _on_message json_loads now received message st
              = errored TypeError (counted now st)).
  { unfold _on_message, on_message_body.
    unfold Method.seq, Method.lift, Method.assign, Method.read, Method.ret.
    rewrite Hl. cbn [get contains getitem]. rewrite Ht, Hd.
    change (is_message (Some (JString "message"))) with true. cbn [andb].
    destruct d as [| b | q | s | l | obj]; try reflexivity.
    now elim (Hno obj). }
  rewrite H. repeat split.
Qed.

Lemma bad_data_counts_twice_witness :
  error_count
    (metrics (_on_message array_loads (17362080605 # 10)
                "2025-01-07T00:01:00.500000" array_message (make 1000)))
  = 0 + 1.
Proof.
  refine (proj1 (proj2 (proj2 (bad_data_counts_twice array_loads (17362080605 # 10)
            "2025-01-07T00:01:00.500000" array_message _ (JArray []) (make 1000)
            eq_refl _ _ _)))).
  - reflexivity.
  - reflexivity.
  - discriminate.
Defined.

(** A full queue, for a positive [maxsize]. *)
Lemma full_at (q : Queue) (m : Z) :
  maxsize q = m -> 0 < m ->
  full q = (m <=? Z.of_nat (List.length (items q))).
Proof.
  intros Hm Hpos. unfold full. rewrite Hm.
  assert (H : (0 <? m) = true) by (apply Z.ltb_lt; exact Hpos).
  now rewrite H.
Qed.

(** One [put_nowait] on a queue of a thousand and on the queue of a
    hundred that holds its first items. *)
Lemma cut_step (pkg dev : list json) (x : json) :
  dev = firstn 100 pkg ->
  (if 100 <=? Z.of_nat (List.length dev) then dev else dev ++ [x])
  = firstn 100
      (if 1000 <=? Z.of_nat (List.length pkg) then pkg else pkg ++ [x]).
Proof.
  intros ->.
  pose proof (length_firstn 100 pkg) as Hlen.
  destruct (100 <=? Z.of_nat (List.length (firstn 100 pkg))) eqn:Hd;
    destruct (1000 <=? Z.of_nat (List.length pkg)) eqn:Hp;
    try reflexivity.
  - apply Z.leb_le in Hd.
    rewrite firstn_app.
    replace (100 - List.length pkg)%nat with 0%nat by lia.
    cbn [firstn]. now rewrite app_nil_r.
  - apply Z.leb_gt in Hd. apply Z.leb_le in Hp. lia.
  - apply Z.leb_gt in Hd.
    assert (Hshort : (List.length pkg < 100)%nat) by lia.
    rewrite (firstn_all2 pkg) by lia.
    rewrite firstn_all2; [reflexivity|]. rewrite length_app. cbn. lia.
Qed.

Lemma handlers_step (json_loads : string -> result json) (a : arrival)
    (st st' : state) :
  maxsize (data_queue st) = 1000 -> maxsize (data_queue st') = 100 ->
  items (data_queue st') = firstn 100 (items (data_queue st)) ->
  message_count (metrics st') = message_count (metrics st) ->
  maxsize (data_queue (_on_message json_loads (at_time a) (at_iso a) (text a) st))
  = 1000 /\
  maxsize (data_queue (on_message json_loads (at_iso a) (text a) st')) = 100 /\
  items (data_queue (on_message json_loads (at_iso a) (text a) st'))
  = firstn 100
      (items (data_queue (_on_message json_loads (at_time a) (at_iso a) (text a) st))) /\
  message_count (metrics (on_message json_loads (at_iso a) (text a) st'))
  = message_count (metrics (_on_message json_loads (at_time a) (at_iso a) (text a) st)) /\
  error_count (metrics (on_message json_loads (at_iso a) (text a) st'))
  - error_count (metrics (_on_message json_loads (at_time a) (at_iso a) (text a) st))
  = error_count (metrics st') - error_count (metrics st)
    + (if undecodable json_loads a then 1 else 0).
Proof.
  intros Hs Hs' Hq Hm.
  pose proof (full_at (data_queue st) 1000 Hs eq_refl) as Hf.
  pose proof (full_at (data_queue st') 100 Hs' eq_refl) as Hf'.
  pose proof (cut_step (items (data_queue st)) (items (data_queue st'))) as Hcut.
  unfold undecodable, _on_message, on_message, on_message_body, simple_body.
  unfold Method.seq, Method.lift, Method.assign, Method.read, Method.ret.
  destruct (json_loads (text a)) as [v|e].
  2:{ destruct e; cbn; repeat split; auto; lia. }
  destruct v as [| b | q | s | l | members]; try (cbn; repeat split; auto; lia).
  cbn [get contains].
  destruct (is_message (lookup "type" members));
    [|cbn; repeat split; auto; lia].
  destruct (lookup "data" members) as [d|] eqn:Hd; [|cbn; repeat split; auto; lia].
  cbn [andb getitem]. rewrite Hd.
  destruct d as [| b | q | s | l | obj]; try (cbn; repeat split; auto; lia).
  cbn [setitem]. unfold put_nowait_or_drop.
  unfold Method.seq, Method.lift, Method.assign, Method.read, Method.ret.
  cbn [data_queue set_metrics].
  specialize (Hcut (JObject (store "time_received" (JString (at_iso a)) obj)) Hq).
  rewrite Hf, Hf'.
  destruct (100 <=? Z.of_nat (List.length (items (data_queue st'))));
    destruct (1000 <=? Z.of_nat (List.length (items (data_queue st))));
    cbn; repeat split; auto; lia.
Qed.

(** X11: the packaged client queues up to a thousand items and the
    client of development/ws_simple_update.py up to a hundred.  Started
    on the same items and counters, the development client holds, after
    every sequence of arrivals, the first hundred items of the packaged
    queue, which is the whole of it as long as it holds no more.  Both
    count the same messages; their error counters differ by the number
    of undecodable texts, which only the development handler counts. *)
Theorem development_queue_is_the_first_hundred :
  forall (json_loads : string -> result json) (arrivals : list arrival)
         (st st' : state),
    maxsize (data_queue st) = 1000 -> maxsize (data_queue st') = 100 ->
    items (data_queue st') = firstn 100 (items (data_queue st)) ->
    message_count (metrics st') = message_count (metrics st) ->
    error_count (metrics st') = error_count (metrics st) ->
    items (data_queue (simple_receive_all json_loads arrivals st'))
    = firstn 100 (items (data_queue (receive_all json_loads arrivals st))) /\
    message_count (metrics (simple_receive_all json_loads arrivals st'))
    = message_count (metrics (receive_all json_loads arrivals st)) /\
    error_count (metrics (simple_receive_all json_loads arrivals st'))
    = error_count (metrics (receive_all json_loads arrivals st))
      + Z.of_nat (List.length (filter (undecodable json_loads) arrivals)).
Proof.
  intros json_loads arrivals st st' Hs Hs' Hq Hm He.
  assert (H : forall st1 st2,
             maxsize (data_queue st1) = 1000 -> maxsize (data_queue st2) = 100 ->
             items (data_queue st2) = firstn 100 (items (data_queue st1)) ->
             message_count (metrics st2) = message_count (metrics st1) ->
             items (data_queue (simple_receive_all json_loads arrivals st2))
             = firstn 100 (items (data_queue (receive_all json_loads arrivals st1))) /\
             message_count (metrics (simple_receive_all json_loads arrivals st2))
             = message_count (metrics (receive_all json_loads arrivals st1)) /\
             error_count (metrics (simple_receive_all json_loads arrivals st2))
             - error_count (metrics (receive_all json_loads arrivals st1))
             = error_count (metrics st2) - error_count (metrics st1)
               + Z.of_nat (List.length (filter (undecodable json_loads) arrivals))).
  { clear. induction arrivals as [|a r IH]; intros st1 st2 Hs Hs' Hq Hm.
    - cbn. repeat split; auto; lia.
    - cbn [receive_all simple_receive_all filter].
      destruct (handlers_step json_loads a st1 st2 Hs Hs' Hq Hm)
        as [Hs1 [Hs2 [Hq' [Hm' He']]]].
      destruct (IH _ _ Hs1 Hs2 Hq' Hm') as [Hq'' [Hm'' He'']].
      repeat split; auto.
      rewrite He'', He'. destruct (undecodable json_loads a); cbn [List.length]; lia. }
  destruct (H st st' Hs Hs' Hq Hm) as [Hq' [Hm' He']].
  repeat split; auto. lia.
Qed.

Lemma development_queue_is_the_first_hundred_witness :
  items (data_queue (simple_receive_all sample_loads (repeat candle_arrival 101)
                       (make 100)))
  = firstn 100
      (items (data_queue (receive_all sample_loads (repeat candle_arrival 101)
                            (make 1000)))).
Proof.
  refine (proj1 (development_queue_is_the_first_hundred sample_loads
                   (repeat candle_arrival 101) (make 1000) (make 100) _ _ _ _ _));
    reflexivity.
Defined.

(** After a hundred and one candle messages that nobody takes out, the
    packaged queue holds them all and the development queue a hundred. *)
Example queues_part_at_a_hundred :
  List.length (items (data_queue (receive_all sample_loads (repeat candle_arrival 101)
                                    (make 1000)))) = 101%nat /\
  List.length (items (data_queue (simple_receive_all sample_loads
                                    (repeat candle_arrival 101) (make 100)))) = 100%nat.
Proof. split; vm_compute; reflexivity. Qed.

End Queueing.

(** ** More on the series of the live updaters *)

Module SeriesLaws.

Lemma removelast_snoc (l : list candle) (c : candle) : removelast (l ++ [c]) = l.
Proof. apply removelast_last. Qed.

Lemma last_item_nonempty {A : Type} (x : A) (r : list A) :
  exists tail, last_item (x :: r) = Ok tail /\ In tail (x :: r).
Proof.
  revert x. induction r as [|y r IH]; intros x.
  - exists x. split; [reflexivity|now left].
  - destruct (IH y) as [tail [Ht Hin]]. exists tail. split; [exact Ht|now right].
Qed.

(** With a capacity of at least one, the appended bar is the last bar
    kept. *)
Lemma extend_ends (cap : Z) (l : list candle) (c : candle) :
  1 <= cap -> exists front, extend cap l c = front ++ [c] /\ incl front l.
Proof.
  intros Hcap. rewrite SeriesFacts.extend_as_skipn by exact Hcap.
  set (k := Z.to_nat (Z.of_nat (List.length l) + 1 - cap)).
  assert (Hk : (k <= List.length l)%nat) by (subst k; lia).
  exists (skipn k l). split.
  - rewrite skipn_app. replace (k - List.length l)%nat with 0%nat by lia. reflexivity.
  - intros x Hx. rewrite <- (firstn_skipn k l). apply in_or_app. now right.
Qed.

Lemma merged_snoc (cap : Z) (b : bool) (front : list candle) (c : candle) (t : string) :
  timestamp_of c = Ok t -> merged cap b (front ++ [c]) c = front ++ [c].
Proof.
  intros Ht. unfold merged.
  destruct (front ++ [c]) as [|x r] eqn:E; [now destruct front|].
  rewrite <- E, LiveFacts.last_item_snoc, Ht, String.eqb_refl. simpl.
  unfold revise. now rewrite removelast_snoc.
Qed.

(** The series after an event: unchanged, or ending with the event's
    candle in front of bars that were there. *)
Lemma merged_shape (cap : Z) (b : bool) (l : list candle) (c : candle) :
  1 <= cap ->
  merged cap b l c = l \/
  exists front, merged cap b l c = front ++ [c] /\ incl front l.
Proof.
  intros Hcap. unfold merged.
  destruct l as [|x r].
  { destruct b; [right; now apply extend_ends|now left]. }
  destruct (last_item (x :: r)) as [tail|e]; [|now left].
  destruct (timestamp_of c) as [t|e]; [|now left].
  destruct (timestamp_of tail) as [t'|e]; [|now left].
  destruct (negb (t =? t')%string).
  - right. now apply extend_ends.
  - right. exists (removelast (x :: r)). split; [reflexivity|].
    intros y Hy. clear - Hy. revert x Hy. induction r as [|z r IH]; intros x Hy.
    + destruct Hy.
    + change (removelast (x :: z :: r)) with (x :: removelast (z :: r)) in Hy.
      destruct Hy as [<-|Hy]; [now left|right; now apply IH].
Qed.

Lemma merged_twice (cap : Z) (b : bool) (l : list candle) (c : candle) (t : string) :
  1 <= cap -> timestamp_of c = Ok t ->
  merged cap b (merged cap b l c) c = merged cap b l c.
Proof.
  intros Hcap Ht.
  destruct (merged_shape cap b l c Hcap) as [H|[front [H _]]].
  - now rewrite !H.
  - rewrite H. now apply (merged_snoc cap b front c t).
Qed.

Lemma max_candles_kept (frame : bool -> list candle -> result DataFrame)
    (d : option payload) (u : LiveDataUpdater.state) :
  LiveDataUpdater.max_candles (fst (LiveDataUpdater.process_data frame d u))
  = LiveDataUpdater.max_candles u.
Proof. apply LiveFacts.process_data_transition. Qed.

(** X12: delivering the same valid event twice leaves the series that
    delivering it once leaves, in the packaged updater (with a capacity
    of at least one) and in the loop of the script. *)
Theorem duplicate_delivery_is_harmless :
  forall (frame : bool -> list candle -> result DataFrame)
         (p : payload) (c : candle),
    candles p = Some c ->
    (forall u : LiveDataUpdater.state,
        (5 <= List.length c)%nat -> 1 <= LiveDataUpdater.max_candles u ->
        LiveDataUpdater.candle_list
          (fst (LiveDataUpdater.process_data frame (Some p)
                  (fst (LiveDataUpdater.process_data frame (Some p) u))))
        = LiveDataUpdater.candle_list
            (fst (LiveDataUpdater.process_data frame (Some p) u))) /\
    (forall u : CandleUpdate.state,
        (7 <= List.length c)%nat ->
        CandleUpdate.candle_list
          (fst (CandleUpdate.iteration frame (Some p)
                  (fst (CandleUpdate.iteration frame (Some p) u))))
        = CandleUpdate.candle_list (fst (CandleUpdate.iteration frame (Some p) u))).
Proof.
  intros frame p c Hc. split.
  - intros u Hlen Hcap.
    assert (Ht : exists t, timestamp_of c = Ok t).
    { destruct c as [|t c']; [simpl in Hlen; lia|now exists t]. }
    destruct Ht as [t Ht].
    rewrite (MergeFacts.process_data_series frame p c _ Hc Hlen), max_candles_kept.
    rewrite (MergeFacts.process_data_series frame p c u Hc Hlen).
    now apply (merged_twice _ _ _ _ t).
  - intros u Hlen.
    assert (Ht : exists t, timestamp_of c = Ok t).
    { destruct c as [|t c']; [simpl in Hlen; lia|now exists t]. }
    destruct Ht as [t Ht].
    rewrite (MergeFacts.iteration_series frame p c _ Hc Hlen).
    rewrite (MergeFacts.iteration_series frame p c u Hc Hlen).
    apply (merged_twice _ _ _ _ t); [lia|exact Ht].
Qed.

Lemma duplicate_delivery_is_harmless_witness :
  LiveDataUpdater.candle_list
    (fst (LiveDataUpdater.process_data sample_frame (delivery "1736208180" "94040")
            (fst (LiveDataUpdater.process_data sample_frame
                    (delivery "1736208180" "94040")
                    (LiveDataUpdater.make 3 backfilled)))))
  = LiveDataUpdater.candle_list
      (fst (LiveDataUpdater.process_data sample_frame (delivery "1736208180" "94040")
              (LiveDataUpdater.make 3 backfilled))).
Proof.
  apply (proj1 (duplicate_delivery_is_harmless sample_frame
                  {| candles := Some (bar "1736208180" "94040");
                     time_received := "2025-01-07T00:02:03.000321" |}
                  (bar "1736208180" "94040") eq_refl)).
  - simpl. lia.
  - simpl. lia.
Defined.

Lemma merged_last (cap : Z) (l : list candle) (c : candle) (t : string) :
  1 <= cap -> timestamp_of c = Ok t ->
  (forall tail, last_item l = Ok tail -> tail <> []) ->
  last_item (merged cap true l c) = Ok c.
Proof.
  intros Hcap Ht Hread. unfold merged.
  destruct l as [|x r].
  { destruct (extend_ends cap [] c Hcap) as [front [-> _]].
    apply LiveFacts.last_item_snoc. }
  destruct (last_item_nonempty x r) as [tail [Hl _]]. rewrite Hl, Ht.
  destruct (timestamp_of tail) as [t'|e] eqn:Ht'.
  2:{ exfalso. apply (Hread tail Hl). unfold timestamp_of, item in Ht'.
      destruct tail; [reflexivity|discriminate]. }
  destruct (negb (t =? t')%string).
  - destruct (extend_ends cap (x :: r) c Hcap) as [front [-> _]].
    apply LiveFacts.last_item_snoc.
  - apply LiveFacts.last_item_snoc.
Qed.

Lemma process_data_attributes (frame : bool -> list candle -> result DataFrame)
    (p : payload) (c0 c1 c2 c3 c4 : string) (r : list string)
    (u : LiveDataUpdater.state) :
  candles p = Some (c0 :: c1 :: c2 :: c3 :: c4 :: r) ->
  let u' := fst (LiveDataUpdater.process_data frame (Some p) u) in
  LiveDataUpdater.open u' = Some c1 /\ LiveDataUpdater.close u' = Some c2 /\
  LiveDataUpdater.high u' = Some c3 /\ LiveDataUpdater.low u' = Some c4.
Proof.
  intros Hc. cbv zeta.
  rewrite (LiveFacts.process_data_valid frame p c0 c1 c2 c3 c4 r u Hc). cbv zeta.
  set (u4 := LiveDataUpdater.set_low c4 _).
  assert (Ha : forall c, LiveDataUpdater.open (fst (LiveDataUpdater.add_new_candle frame c u4)) = Some c1 /\
                         LiveDataUpdater.close (fst (LiveDataUpdater.add_new_candle frame c u4)) = Some c2 /\
                         LiveDataUpdater.high (fst (LiveDataUpdater.add_new_candle frame c u4)) = Some c3 /\
                         LiveDataUpdater.low (fst (LiveDataUpdater.add_new_candle frame c u4)) = Some c4).
  { intros c. rewrite LiveFacts.add_new_candle_state. repeat split. }
  destruct (LiveDataUpdater.candle_list u) as [|x l] eqn:El; [apply Ha|].
  destruct (last_item (x :: l)) as [tail|e]; [|repeat split].
  destruct (timestamp_of tail) as [t'|e]; [|repeat split].
  destruct (negb (c0 =? t')%string); [apply Ha|].
  rewrite LiveFacts.update_last_candle_state; [repeat split|].
  subst u4. simpl. rewrite El. discriminate.
Qed.

(** X13: after a valid event, the last bar of the packaged updater's
    series is the candle of the event and the attributes [open],
    [close], [high] and [low] hold its prices, for a capacity of at
    least one and a last bar that has a timestamp. *)
Theorem last_bar_is_the_latest_event :
  forall (frame : bool -> list candle -> result DataFrame)
         (p : payload) (c0 c1 c2 c3 c4 : string) (r : list string)
         (u : LiveDataUpdater.state),
    candles p = Some (c0 :: c1 :: c2 :: c3 :: c4 :: r) ->
    1 <= LiveDataUpdater.max_candles u ->
    (forall tail, last_item (LiveDataUpdater.candle_list u) = Ok tail -> tail <> []) ->
    let u' := fst (LiveDataUpdater.process_data frame (Some p) u) in
    last_item (LiveDataUpdater.candle_list u') = Ok (c0 :: c1 :: c2 :: c3 :: c4 :: r) /\
    LiveDataUpdater.open u' = Some c1 /\ LiveDataUpdater.close u' = Some c2 /\
    LiveDataUpdater.high u' = Some c3 /\ LiveDataUpdater.low u' = Some c4.
Proof.
  intros frame p c0 c1 c2 c3 c4 r u Hc Hcap Hread. cbv zeta.
  split; [|exact (process_data_attributes frame p c0 c1 c2 c3 c4 r u Hc)].
  rewrite (MergeFacts.process_data_series frame p _ u Hc) by (simpl; lia).
  now apply (merged_last _ _ _ c0).
Qed.

Lemma last_bar_is_the_latest_event_witness :
  last_item
    (LiveDataUpdater.candle_list
       (fst (LiveDataUpdater.process_data sample_frame (delivery "1736208120" "94031")
               (LiveDataUpdater.make 3 backfilled))))
  = Ok (bar "1736208120" "94031").
Proof.
  refine (proj1 (last_bar_is_the_latest_event sample_frame
                   {| candles := Some (bar "1736208120" "94031");
                      time_received := "2025-01-07T00:02:03.000321" |}
                   "1736208120" "94000.1" "94031" "94100" "93900.5"
                   ["12.5"; "1175000"] (LiveDataUpdater.make 3 backfilled)
                   eq_refl _ _)).
  - simpl. lia.
  - intros tail Ht. vm_compute in Ht. inversion Ht. discriminate.
Defined.

Lemma delivered_candles_cons (d : option payload) (r : list (option payload)) :
  delivered_candles (d :: r) = delivered_candles [d] ++ delivered_candles r.
Proof.
  destruct d as [p|]; [|reflexivity]. simpl.
  destruct (candles p); reflexivity.
Qed.

Lemma slice_from_incl (i : Z) (l : list candle) : incl (slice_from i l) l.
Proof.
  unfold slice_from. intros x Hx.
  rewrite <- (firstn_skipn (Z.to_nat (if i <? 0
                                      then Z.max 0 (Z.of_nat (List.length l) + i)
                                      else Z.min i (Z.of_nat (List.length l)))) l).
  apply in_or_app. now right.
Qed.

Lemma removelast_incl (l : list candle) : incl (removelast l) l.
Proof.
  induction l as [|x r IH]; [easy|].
  destruct r as [|y r']; [easy|].
  change (removelast (x :: y :: r')) with (x :: removelast (y :: r')).
  intros z [<-|Hz]; [now left|right; now apply IH].
Qed.

Lemma transition_incl (cap : Z) (l l' : list candle) (d : option payload) :
  transition cap l d l' -> incl l' (l ++ delivered_candles [d]).
Proof.
  intros [|p c Hd Hc _|p c Hd Hc _].
  - now apply incl_appl.
  - subst d. simpl. rewrite Hc. unfold extend.
    destruct (cap <? _); [|apply incl_refl].
    apply slice_from_incl.
  - subst d. simpl. rewrite Hc. unfold revise.
    apply incl_app; [apply incl_appl, removelast_incl|apply incl_appr, incl_refl].
Qed.

Lemma trace_incl {S : Type} (step : option payload -> Method.t S unit)
    (series : S -> list candle) :
  (forall d u, incl (series (fst (step d u))) (series u ++ delivered_candles [d])) ->
  forall ds u,
    Forall (fun s => incl (series s) (series u ++ delivered_candles ds))
           (trace step ds u).
Proof.
  intros Hstep ds. induction ds as [|d r IH]; intros u; [constructor|].
  simpl trace. specialize (Hstep d u).
  rewrite delivered_candles_cons.
  destruct (step d u) as [u' [[]|e]]; simpl in Hstep.
  - constructor.
    + rewrite app_assoc. now apply incl_appl.
    + eapply Forall_impl; [|apply (IH u')].
      intros s Hs. eapply incl_tran; [exact Hs|].
      rewrite app_assoc. apply incl_app; [now apply incl_appl|apply incl_appr, incl_refl].
  - constructor; [|constructor]. rewrite app_assoc. now apply incl_appl.
Qed.

(** X14: the live loops invent no bar: at every point of a run, each
    bar of the series is a bar of the backfill or the candle of one of
    the deliveries. *)
Theorem series_holds_only_known_bars :
  forall (frame : bool -> list candle -> result DataFrame)
         (deliveries : list (option payload)),
    (forall u : LiveDataUpdater.state,
        Forall (fun s => incl (LiveDataUpdater.candle_list s)
                              (LiveDataUpdater.candle_list u
                               ++ delivered_candles deliveries))
               (trace (LiveDataUpdater.process_data frame) deliveries u)) /\
    (forall u : CandleUpdate.state,
        Forall (fun s => incl (CandleUpdate.candle_list s)
                              (CandleUpdate.candle_list u
                               ++ delivered_candles deliveries))
               (trace (CandleUpdate.iteration frame) deliveries u)).
Proof.
  intros frame deliveries. split; intros u.
  - apply (trace_incl _ LiveDataUpdater.candle_list).
    intros d s. eapply transition_incl. apply LiveFacts.process_data_transition.
  - apply (trace_incl _ CandleUpdate.candle_list).
    intros d s. eapply transition_incl. apply ScriptFacts.iteration_transition.
Qed.

Lemma merged_same_timestamp (cap : Z) (b : bool) (l : list candle)
    (c tail : candle) (t : string) :
  last_item l = Ok tail -> timestamp_of c = Ok t -> timestamp_of tail = Ok t ->
  merged cap b l c = revise l c.
Proof.
  intros Hl Hc Ht. unfold merged. destruct l as [|x r]; [discriminate|].
  now rewrite Hl, Hc, Ht, String.eqb_refl.
Qed.

(** X15: an event that carries the timestamp of the last bar replaces
    the last bar and nothing else: the series keeps its length and every
    bar before the last. *)
Theorem revision_replaces_the_last_bar_only :
  forall (frame : bool -> list candle -> result DataFrame)
         (p : payload) (c tail : candle) (t : string),
    candles p = Some c ->
    timestamp_of c = Ok t -> timestamp_of tail = Ok t ->
    (forall u : LiveDataUpdater.state,
        (5 <= List.length c)%nat ->
        last_item (LiveDataUpdater.candle_list u) = Ok tail ->
        let l' := LiveDataUpdater.candle_list
                    (fst (LiveDataUpdater.process_data frame (Some p) u)) in
        l' = removelast (LiveDataUpdater.candle_list u) ++ [c] /\
        List.length l' = List.length (LiveDataUpdater.candle_list u)) /\
    (forall u : CandleUpdate.state,
        (7 <= List.length c)%nat ->
        last_item (CandleUpdate.candle_list u) = Ok tail ->
        let l' := CandleUpdate.candle_list
                    (fst (CandleUpdate.iteration frame (Some p) u)) in
        l' = removelast (CandleUpdate.candle_list u) ++ [c] /\
        List.length l' = List.length (CandleUpdate.candle_list u)).
Proof.
  intros frame p c tail t Hc Ht Ht'. split; intros u Hlen Hl; cbv zeta.
  - rewrite (MergeFacts.process_data_series frame p c u Hc Hlen).
    rewrite (merged_same_timestamp _ _ _ c tail t Hl Ht Ht').
    split; [reflexivity|]. apply SeriesFacts.length_revise.
    intros E. rewrite E in Hl. discriminate.
  - rewrite (MergeFacts.iteration_series frame p c u Hc Hlen).
    rewrite (merged_same_timestamp _ _ _ c tail t Hl Ht Ht').
    split; [reflexivity|]. apply SeriesFacts.length_revise.
    intros E. rewrite E in Hl. discriminate.
Qed.

Lemma revision_replaces_the_last_bar_only_witness :
  LiveDataUpdater.candle_list
    (fst (LiveDataUpdater.process_data sample_frame (delivery "1736208120" "94031")
            (LiveDataUpdater.make 3 backfilled)))
  = removelast backfilled ++ [bar "1736208120" "94031"].
Proof.
  refine (proj1 (proj1 (revision_replaces_the_last_bar_only sample_frame
                          {| candles := Some (bar "1736208120" "94031");
                             time_received := "2025-01-07T00:02:03.000321" |}
                          (bar "1736208120" "94031") (bar "1736208120" "94030")
                          "1736208120" eq_refl eq_refl eq_refl)
                   (LiveDataUpdater.make 3 backfilled) _ eq_refl)).
  simpl. lia.
Defined.

End SeriesLaws.

(** ** More on the polling updater and its script *)

Module PollLaws.

Lemma process_fields_result (p : payload) (f : CandleUpdate.fields) :
  snd (CandleUpdate.process_fields (Some p) f)
  = match candles p with
    | None => Raise KeyError
    | Some c => if (7 <=? List.length c)%nat then Ok (Some c) else Raise IndexError
    end.
Proof.
  unfold CandleUpdate.process_fields, getitem_candles.
  destruct (candles p) as [c|]; [|reflexivity].
  destruct c as [|c0 [|c1 [|c2 [|c3 [|c4 [|c5 [|c6 r]]]]]]]; reflexivity.
Qed.

Lemma org_process_candle_data (d : option payload) (u : CandleUpdateOrg.state) :
  CandleUpdateOrg.process_candle_data d u
  = ({| CandleUpdateOrg.bars_lookback := CandleUpdateOrg.bars_lookback u;
        CandleUpdateOrg.candle_list := CandleUpdateOrg.candle_list u;
        CandleUpdateOrg.df_to_trade := CandleUpdateOrg.df_to_trade u;
        CandleUpdateOrg.event := fst (CandleUpdate.process_fields d (CandleUpdateOrg.event u)) |},
     snd (CandleUpdate.process_fields d (CandleUpdateOrg.event u))).
Proof.
  unfold CandleUpdateOrg.process_candle_data.
  now destruct (CandleUpdate.process_fields d (CandleUpdateOrg.event u)).
Qed.

(** What [new_candle_update] leaves and returns. *)
Lemma new_candle_update_spec (frame : bool -> list candle -> result DataFrame)
    (flag : bool) (p : payload) (u : CandleUpdateOrg.state) :
  let u' := fst (CandleUpdateOrg.new_candle_update frame flag (Some p) u) in
  let r := snd (CandleUpdateOrg.new_candle_update frame flag (Some p) u) in
  CandleUpdateOrg.bars_lookback u' = CandleUpdateOrg.bars_lookback u /\
  CandleUpdateOrg.candle_list u'
  = poll_series (CandleUpdateOrg.bars_lookback u) (CandleUpdateOrg.candle_list u) p /\
  match r with
  | None => CandleUpdateOrg.df_to_trade u' = CandleUpdateOrg.df_to_trade u
  | Some df =>
      CandleUpdateOrg.df_to_trade u' = df /\
      frame flag (slice_from (- CandleUpdateOrg.bars_lookback u)
                    (CandleUpdateOrg.candle_list u')) = Ok df
  end.
Proof.
  cbv zeta.
  destruct (CandleUpdateOrg.new_candle_update frame flag (Some p) u) as [u' res] eqn:E.
  cbn [fst snd]. revert E.
  unfold CandleUpdateOrg.new_candle_update, CandleUpdateOrg.new_candle_update_body.
  unfold Method.seq at 1. rewrite org_process_candle_data, process_fields_result.
  unfold poll_series.
  destruct (candles p) as [c|];
    [|cbv beta iota; intros E; injection E as <- <-; repeat split].
  destruct (7 <=? List.length c)%nat eqn:Hlen;
    [|cbv beta iota; intros E; injection E as <- <-; repeat split].
  assert (Ht : exists t r, c = t :: r).
  { destruct c as [|t r]; [discriminate Hlen|now exists t, r]. }
  destruct Ht as [t [r ->]]. cbn [CandleUpdate.truthy].
  unfold Method.seq, Method.lift, Method.assign, Method.read, Method.ret.
  cbn [timestamp_of item nth_error CandleUpdateOrg.candle_list
       CandleUpdateOrg.bars_lookback CandleUpdateOrg.df_to_trade fst snd].
  unfold merged. change (timestamp_of (t :: r)) with (Ok (A:=string) t).
  destruct (CandleUpdateOrg.candle_list u) as [|x l] eqn:El;
    [cbv beta iota; intros E; injection E as <- <-; repeat split; auto|].
  destruct (last_item (x :: l)) as [tail|e] eqn:Hl;
    [|cbv beta iota; intros E; injection E as <- <-; repeat split; auto].
  destruct (timestamp_of tail) as [t'|e];
    [|cbv beta iota; intros E; injection E as <- <-; repeat split; auto].
  destruct (negb (t =? t')%string).
  - unfold extend.
    cbn [CandleUpdateOrg.candle_list CandleUpdateOrg.set_candle_list
         CandleUpdateOrg.bars_lookback].
    match goal with |- context [if (?a <? ?b) then _ else _] => destruct (a <? b) end;
      cbn [CandleUpdateOrg.candle_list CandleUpdateOrg.set_candle_list
           CandleUpdateOrg.bars_lookback CandleUpdateOrg.df_to_trade
           CandleUpdateOrg.set_df_to_trade fst snd];
      match goal with
      | |- context [match frame ?b ?w with _ => _ end] => destruct (frame b w) eqn:Hf
      end;
      cbv beta iota; intros E; injection E as <- <-;
      cbn [CandleUpdateOrg.candle_list CandleUpdateOrg.set_candle_list
           CandleUpdateOrg.bars_lookback CandleUpdateOrg.df_to_trade
           CandleUpdateOrg.set_df_to_trade fst snd];
      repeat split; auto.
  - unfold revise, set_last.
    remember (removelast (x :: l)) as front.
    cbv beta iota; intros E; injection E as <- <-.
    cbn [CandleUpdateOrg.candle_list CandleUpdateOrg.set_candle_list
         CandleUpdateOrg.bars_lookback CandleUpdateOrg.df_to_trade fst snd].
    repeat split.
Qed.

(** X16: [new_candle_update] stores in [df_to_trade] exactly the frames
    it returns: when it returns nothing, [df_to_trade] is the frame it
    was; when it returns a frame, that frame is stored and it is the
    frame of the last [bars_lookback] bars of the new series. *)
Theorem frame_is_stored_when_returned :
  forall (frame : bool -> list candle -> result DataFrame) (flag : bool)
         (d : option payload) (u : CandleUpdateOrg.state),
    let u' := fst (CandleUpdateOrg.new_candle_update frame flag d u) in
    match snd (CandleUpdateOrg.new_candle_update frame flag d u) with
    | None => CandleUpdateOrg.df_to_trade u' = CandleUpdateOrg.df_to_trade u
    | Some df =>
        CandleUpdateOrg.df_to_trade u' = df /\
        frame flag (slice_from (- CandleUpdateOrg.bars_lookback u)
                      (CandleUpdateOrg.candle_list u')) = Ok df
    end.
Proof.
  intros frame flag d u. destruct d as [p|].
  - apply (new_candle_update_spec frame flag p u).
  - cbv zeta.
    unfold CandleUpdateOrg.new_candle_update, CandleUpdateOrg.new_candle_update_body.
    unfold Method.seq. rewrite org_process_candle_data. reflexivity.
Qed.

Lemma inter_candle_df_keeps (frame : bool -> list candle -> result DataFrame)
    (flag : bool) (d : option payload) (s : PollingScript.state) :
  same_window (PollingScript.updater (fst (PollingScript.inter_candle_df frame flag d s)))
              (PollingScript.updater s).
Proof.
  unfold PollingScript.inter_candle_df, PollingScript.on_updater.
  unfold Method.seq, Method.lift, Method.assign, Method.ret.
  rewrite org_process_candle_data.
  destruct (snd (CandleUpdate.process_fields d _)) as [oc|e]; [|split; reflexivity].
  destruct (CandleUpdate.truthy oc) as [c|]; [|split; reflexivity].
  destruct (frame flag [c]); split; reflexivity.
Qed.

Lemma new_candle_update_window (frame : bool -> list candle -> result DataFrame)
    (flag : bool) (p : payload) (u u' : CandleUpdateOrg.state) :
  same_window u u' ->
  same_window (fst (CandleUpdateOrg.new_candle_update frame flag (Some p) u))
              (fst (CandleUpdateOrg.new_candle_update frame flag (Some p) u')).
Proof.
  intros [Hb Hl].
  destruct (new_candle_update_spec frame flag p u) as [Hb1 [Hl1 _]].
  destruct (new_candle_update_spec frame flag p u') as [Hb2 [Hl2 _]].
  split; congruence.
Qed.

Lemma script_new_candle_update (frame : bool -> list candle -> result DataFrame)
    (flag : bool) (d : option payload) (s : PollingScript.state) :
  PollingScript.new_candle_update frame flag d s
  = (PollingScript.set_updater
       (fst (CandleUpdateOrg.new_candle_update frame flag d (PollingScript.updater s))) s,
     Ok (snd (CandleUpdateOrg.new_candle_update frame flag d (PollingScript.updater s)))).
Proof.
  unfold PollingScript.new_candle_update.
  now destruct (CandleUpdateOrg.new_candle_update frame flag d (PollingScript.updater s)).
Qed.

Lemma main_loop_window (frame : bool -> list candle -> result DataFrame) (n : nat) :
  forall (ds : list payload) (s : PollingScript.state) (u : CandleUpdateOrg.state),
    (List.length ds <= n)%nat ->
    same_window (PollingScript.updater s) u ->
    snd (PollingScript.main_loop frame ds s) = Ok tt ->
    same_window (PollingScript.updater (fst (PollingScript.main_loop frame ds s)))
                (PollingScript.poll_all frame (odds ds) u).
Proof.
  induction n as [|n IH]; intros ds s u Hn Hw Hok.
  - destruct ds; [exact Hw|simpl in Hn; lia].
  - destruct ds as [|d [|d' rest]]; [exact Hw| |].
    + cbn [PollingScript.main_loop odds PollingScript.poll_all].
      unfold Method.seq, Method.ret. rewrite script_new_candle_update.
      cbn [fst PollingScript.updater PollingScript.set_updater].
      now apply new_candle_update_window.
    + assert (E : PollingScript.main_loop frame (d :: d' :: rest) s
                  = match PollingScript.inter_candle_df frame false (Some d')
                            (PollingScript.set_updater
                               (fst (CandleUpdateOrg.new_candle_update frame false (Some d)
                                       (PollingScript.updater s))) s) with
                    | (s2, Ok _) => PollingScript.main_loop frame rest s2
                    | (s2, Raise e) => (s2, Raise e)
                    end).
      { cbn [PollingScript.main_loop]. unfold Method.seq.
        now rewrite script_new_candle_update. }
      rewrite E in Hok |- *. clear E.
      cbn [odds PollingScript.poll_all].
      pose proof (new_candle_update_window frame false d _ _ Hw) as Hw1.
      set (u1 := fst (CandleUpdateOrg.new_candle_update frame false (Some d)
                        (PollingScript.updater s))) in *.
      pose proof (inter_candle_df_keeps frame false (Some d')
                    (PollingScript.set_updater u1 s)) as Hk.
      destruct (PollingScript.inter_candle_df frame false (Some d')
                  (PollingScript.set_updater u1 s)) as [s2 [r2|e]];
        [|discriminate].
      cbn [fst] in Hk. apply IH; [simpl in Hn; lia| |exact Hok].
      destruct Hk as [Hk1 Hk2], Hw1 as [Hw1 Hw2]. cbn in Hk1, Hk2.
      split; congruence.
Qed.

(** X17: [inter_candle_df] never changes the series, and each of the two
    calls of the script's loop takes its own item from the queue: as
    long as the loop runs, the series is the one [new_candle_update]
    builds from the first, third, fifth, ... delivery alone; the
    deliveries in between reach [inter_candle_df] only. *)
Theorem every_second_delivery_misses_the_series :
  forall (frame : bool -> list candle -> result DataFrame),
    (forall (flag : bool) (d : option payload) (s : PollingScript.state),
        CandleUpdateOrg.candle_list
          (PollingScript.updater (fst (PollingScript.inter_candle_df frame flag d s)))
        = CandleUpdateOrg.candle_list (PollingScript.updater s)) /\
    (forall (deliveries : list payload) (s : PollingScript.state),
        snd (PollingScript.main_loop frame deliveries s) = Ok tt ->
        CandleUpdateOrg.candle_list
          (PollingScript.updater (fst (PollingScript.main_loop frame deliveries s)))
        = CandleUpdateOrg.candle_list
            (PollingScript.poll_all frame (odds deliveries) (PollingScript.updater s))).
Proof.
  intros frame. split.
  - intros flag d s. apply inter_candle_df_keeps.
  - intros deliveries s Hok.
    apply (main_loop_window frame (List.length deliveries) deliveries s
             (PollingScript.updater s)); auto.
    split; reflexivity.
Qed.

Lemma every_second_delivery_misses_the_series_witness :
  CandleUpdateOrg.candle_list
    (PollingScript.updater
       (fst (PollingScript.main_loop sample_frame
               [sample_payload "1736208180" "94040";
                sample_payload "1736208240" "94050";
                sample_payload "1736208180" "94041"] sample_script)))
  = CandleUpdateOrg.candle_list
      (PollingScript.poll_all sample_frame
         (odds [sample_payload "1736208180" "94040";
                sample_payload "1736208240" "94050";
                sample_payload "1736208180" "94041"])
         (PollingScript.updater sample_script)).
Proof.
  apply (proj2 (every_second_delivery_misses_the_series sample_frame)).
  vm_compute. reflexivity.
Defined.

Example second_delivery_is_lost :
  CandleUpdateOrg.candle_list
    (PollingScript.updater
       (fst (PollingScript.main_loop sample_frame
               [sample_payload "1736208180" "94040";
                sample_payload "1736208240" "94050";
                sample_payload "1736208180" "94041"] sample_script)))
  = [bar "1736208060" "94020"; bar "1736208120" "94030"; bar "1736208180" "94041"].
Proof. vm_compute. reflexivity. Qed.

End PollLaws.

(** ** Edges of the live loops *)

Module LoopEdges.

Lemma merged_on_series (cap : Z) (l : list candle) (c : candle) :
  l <> [] -> merged cap true l c = merged cap false l c.
Proof. destruct l; [contradiction|reflexivity]. Qed.

(** X18: on a series that is not empty, a valid event leaves the same
    series in the packaged updater with [max_candles = 500], in the loop
    of the script and in the polling updater with [bars_lookback = 500],
    whatever the frame builders do. *)
Theorem three_updaters_agree :
  forall (frame frame' frame'' : bool -> list candle -> result DataFrame)
         (flag : bool) (p : payload) (c : candle)
         (u : LiveDataUpdater.state) (s : CandleUpdate.state)
         (o : CandleUpdateOrg.state),
    candles p = Some c -> (7 <= List.length c)%nat ->
    LiveDataUpdater.candle_list u <> [] ->
    LiveDataUpdater.max_candles u = 500 ->
    CandleUpdate.candle_list s = LiveDataUpdater.candle_list u ->
    CandleUpdateOrg.candle_list o = LiveDataUpdater.candle_list u ->
    CandleUpdateOrg.bars_lookback o = 500 ->
    CandleUpdate.candle_list (fst (CandleUpdate.iteration frame' (Some p) s))
    = LiveDataUpdater.candle_list (fst (LiveDataUpdater.process_data frame (Some p) u)) /\
    CandleUpdateOrg.candle_list
      (fst (CandleUpdateOrg.new_candle_update frame'' flag (Some p) o))
    = LiveDataUpdater.candle_list (fst (LiveDataUpdater.process_data frame (Some p) u)).
Proof.
  intros frame frame' frame'' flag p c u s o Hc Hlen Hne Hcap Hs Ho Hb.
  rewrite (MergeFacts.process_data_series frame p c u Hc) by lia.
  rewrite (MergeFacts.iteration_series frame' p c s Hc Hlen).
  destruct (PollLaws.new_candle_update_spec frame'' flag p o) as [_ [-> _]].
  unfold poll_series. rewrite Hc.
  apply Nat.leb_le in Hlen. rewrite Hlen, Hs, Ho, Hb, Hcap.
  rewrite (merged_on_series _ _ _ Hne). split; reflexivity.
Qed.

Lemma three_updaters_agree_witness :
  CandleUpdate.candle_list
    (fst (CandleUpdate.iteration sample_frame (delivery "1736208180" "94040")
            (CandleUpdate.make 100 backfilled)))
  = LiveDataUpdater.candle_list
      (fst (LiveDataUpdater.process_data failing_frame (delivery "1736208180" "94040")
              (LiveDataUpdater.make 500 backfilled))).
Proof.
  refine (proj1 (three_updaters_agree failing_frame sample_frame sample_frame false
                   (sample_payload "1736208180" "94040") (bar "1736208180" "94040")
                   (LiveDataUpdater.make 500 backfilled)
                   (CandleUpdate.make 100 backfilled)
                   (CandleUpdateOrg.make 500 backfilled backfilled_frame)
                   eq_refl _ _ eq_refl eq_refl eq_refl eq_refl)).
  - simpl. lia.
  - discriminate.
Defined.

(** X19: a candle with fewer than seven fields stops the loop of the
    script with [IndexError] and leaves the series as it was, but the
    attributes of the last event already hold the fields the candle
    has; the other attributes keep their values. *)
Theorem short_candle_is_half_stored :
  forall (frame : bool -> list candle -> result DataFrame)
         (p : payload) (c : candle) (u : CandleUpdate.state),
    candles p = Some c -> (List.length c < 7)%nat ->
    snd (CandleUpdate.iteration frame (Some p) u) = Raise IndexError /\
    CandleUpdate.candle_list (fst (CandleUpdate.iteration frame (Some p) u))
    = CandleUpdate.candle_list u /\
    (forall i : nat,
        (i < 7)%nat ->
        field_at i (CandleUpdate.event (fst (CandleUpdate.iteration frame (Some p) u)))
        = if (i <? List.length c)%nat then nth_error c i
          else field_at i (CandleUpdate.event u)).
Proof.
  intros frame p c u Hc Hlen.
  unfold CandleUpdate.iteration, Method.seq at 1.
  unfold CandleUpdate.process_candle_data, CandleUpdate.process_fields, getitem_candles.
  rewrite Hc.
  destruct c as [|c0 [|c1 [|c2 [|c3 [|c4 [|c5 [|c6 r]]]]]]];
    try (simpl in Hlen; lia);
    (split; [reflexivity|split; [reflexivity|]]);
    intros i Hi;
    do 7 (destruct i as [|i]; [reflexivity|]); lia.
Qed.

Lemma short_candle_is_half_stored_witness :
  snd (CandleUpdate.iteration sample_frame
         (Some {| candles := Some ["1736208180"; "94000.1"; "94040"];
                  time_received := "2025-01-07T00:02:03.000321" |})
         (CandleUpdate.make 100 backfilled))
  = Raise IndexError.
Proof.
  refine (proj1 (short_candle_is_half_stored sample_frame
                   {| candles := Some ["1736208180"; "94000.1"; "94040"];
                      time_received := "2025-01-07T00:02:03.000321" |}
                   ["1736208180"; "94000.1"; "94040"]
                   (CandleUpdate.make 100 backfilled) eq_refl _)).
  simpl. lia.
Defined.

Lemma add_new_candle_result (frame : bool -> list candle -> result DataFrame)
    (c : candle) (u : LiveDataUpdater.state) :
  snd (LiveDataUpdater.add_new_candle frame c u)
  = (_ <- frame false
            (slice_from (-100)
               (extend (LiveDataUpdater.max_candles u) (LiveDataUpdater.candle_list u) c)) ;;
     Ok tt).
Proof.
  unfold LiveDataUpdater.add_new_candle, extend.
  unfold Method.seq, Method.lift, Method.assign, Method.read, Method.ret. simpl.
  destruct (LiveDataUpdater.max_candles u
            <? Z.of_nat (List.length (LiveDataUpdater.candle_list u ++ [c]))); simpl;
    match goal with |- context [frame ?b ?w] => destruct (frame b w) end;
    reflexivity.
Qed.

(** X20: when the frame of the window cannot be built after an append,
    the packaged updater raises the exception with the bar already
    appended, and its loop ends there: the deliveries that follow are
    not processed. *)
Theorem frame_failure_comes_after_the_append :
  forall (frame : bool -> list candle -> result DataFrame)
         (p : payload) (c : candle) (rest : list (option payload))
         (u : LiveDataUpdater.state) (e : exn),
    candles p = Some c -> (5 <= List.length c)%nat ->
    LiveDataUpdater.candle_list u = [] \/ differs c (LiveDataUpdater.candle_list u) ->
    frame false
      (slice_from (-100)
         (extend (LiveDataUpdater.max_candles u) (LiveDataUpdater.candle_list u) c))
    = Raise e ->
    snd (LiveDataUpdater.run frame (Some p :: rest) u) = Raise e /\
    LiveDataUpdater.candle_list (fst (LiveDataUpdater.run frame (Some p :: rest) u))
    = extend (LiveDataUpdater.max_candles u) (LiveDataUpdater.candle_list u) c.
Proof.
  intros frame p c rest u e Hc Hlen Hext Hf.
  assert (Hp : LiveDataUpdater.process_data frame (Some p) u
               = (fst (LiveDataUpdater.process_data frame (Some p) u), Raise e) /\
               LiveDataUpdater.candle_list
                 (fst (LiveDataUpdater.process_data frame (Some p) u))
               = extend (LiveDataUpdater.max_candles u) (LiveDataUpdater.candle_list u) c).
  { destruct c as [|c0 [|c1 [|c2 [|c3 [|c4 r]]]]]; simpl in Hlen; try lia.
    rewrite (LiveFacts.process_data_valid frame p c0 c1 c2 c3 c4 r u Hc). cbv zeta.
    set (c := c0 :: c1 :: c2 :: c3 :: c4 :: r) in *.
    set (u4 := LiveDataUpdater.set_low c4 _).
    assert (Ha : LiveDataUpdater.add_new_candle frame c u4
                 = (fst (LiveDataUpdater.add_new_candle frame c u4), Raise e) /\
                 LiveDataUpdater.candle_list (fst (LiveDataUpdater.add_new_candle frame c u4))
                 = extend (LiveDataUpdater.max_candles u) (LiveDataUpdater.candle_list u) c).
    { split.
      - pose proof (add_new_candle_result frame c u4) as Hr.
        change (LiveDataUpdater.max_candles u4) with (LiveDataUpdater.max_candles u) in Hr.
        change (LiveDataUpdater.candle_list u4) with (LiveDataUpdater.candle_list u) in Hr.
        rewrite Hf in Hr. simpl in Hr.
        destruct (LiveDataUpdater.add_new_candle frame c u4) as [u' res]. simpl in Hr.
        now subst res.
      - now rewrite LiveFacts.add_new_candle_state. }
    destruct Hext as [He|[tail [t [t' [Hl [Ht [Ht' Hne]]]]]]].
    - rewrite He in *. exact Ha.
    - destruct (LiveDataUpdater.candle_list u) as [|x l] eqn:El; [discriminate Hl|].
      rewrite Hl, Ht'. inversion Ht; subst t.
      apply String.eqb_neq in Hne. rewrite Hne. exact Ha. }
  destruct Hp as [Hp Hl].
  cbn [LiveDataUpdater.run]. unfold Method.seq. rewrite Hp. cbn [fst snd].
  split; [reflexivity|exact Hl].
Qed.

Lemma frame_failure_comes_after_the_append_witness :
  snd (LiveDataUpdater.run failing_frame
         [delivery "1736208180" "94040"; delivery "1736208240" "94050"]
         (LiveDataUpdater.make 500 backfilled))
  = Raise ValueError /\
  LiveDataUpdater.candle_list
    (fst (LiveDataUpdater.run failing_frame
            [delivery "1736208180" "94040"; delivery "1736208240" "94050"]
            (LiveDataUpdater.make 500 backfilled)))
  = extend 500 backfilled (bar "1736208180" "94040").
Proof.
  apply (frame_failure_comes_after_the_append failing_frame
           (sample_payload "1736208180" "94040") (bar "1736208180" "94040")
           [delivery "1736208240" "94050"] (LiveDataUpdater.make 500 backfilled)
           ValueError).
  - reflexivity.
  - simpl. lia.
  - right. exists (bar "1736208120" "94030"), "1736208180", "1736208120".
    repeat split. discriminate.
  - reflexivity.
Defined.

End LoopEdges.

(** ** More on timeframes and start times *)

Module Timeframes.

Import CandleUpdate.




Lemma digits_from_last (k : nat) :
  forall (r : list ascii) (acc : Z) (n : nat) (c : ascii) (res : Z * nat),
    (List.length r <= k)%nat ->
    digits_from acc n (r ++ [c]) = Some res -> is_digit c = true.
Proof.
  induction k as [|k IH]; intros r acc n c res Hk H.
  - destruct r; [|simpl in Hk; lia]. simpl in H.
    destruct (is_digit c); [reflexivity|].
    destruct (Ascii.eqb c "_"); discriminate.
  - destruct r as [|x r']; simpl in H.
    + destruct (is_digit c); [reflexivity|].
      destruct (Ascii.eqb c "_"); discriminate.
    + destruct (is_digit x).
      * eapply (IH r'); [simpl in Hk; lia|exact H].
      * destruct (Ascii.eqb x "_"); [|discriminate].
        destruct r' as [|d r0]; simpl in H.
        -- destruct (is_digit c); [reflexivity|discriminate].
        -- destruct (is_digit d); [|discriminate].
           eapply (IH r0); [simpl in Hk; lia|exact H].
Qed.

Lemma magnitude_last (m : list ascii) (c : ascii) (v : Z) :
  magnitude (m ++ [c]) = Some v -> is_digit c = true.
Proof.
  destruct m as [|d r]; simpl.
  - destruct (is_digit c); [reflexivity|discriminate].
  - destruct (is_digit d); [|discriminate].
    destruct (digits_from (digit_val d) 1 (r ++ [c])) as [res|] eqn:E; [|discriminate].
    intros _. eapply (digits_from_last (List.length r)); [reflexivity|exact E].
Qed.

Lemma lstrip_snoc (l : list ascii) (c : ascii) :
  is_space c = false -> exists m, lstrip (l ++ [c]) = m ++ [c].
Proof.
  intros Hc. induction l as [|x r IH]; simpl.
  - rewrite Hc. now exists [].
  - destruct (is_space x); [exact IH|]. now exists (x :: r).
Qed.

Lemma strip_snoc (l : list ascii) (c : ascii) :
  is_space c = false -> exists m, strip (l ++ [c]) = m ++ [c].
Proof.
  intros Hc. unfold strip.
  destruct (lstrip_snoc l c Hc) as [m ->].
  rewrite rev_app_distr. simpl. rewrite Hc. simpl.
  rewrite rev_involutive. now exists m.
Qed.

(** A string [int] reads ends, white space apart, with a digit. *)
Lemma int_opt_last (s : string) (l : list ascii) (c : ascii) (z : Z) :
  int_opt s = Some z -> list_ascii_of_string s = l ++ [c] ->
  is_space c = false -> is_digit c = true.
Proof.
  unfold int_opt. intros H Hs Hc. rewrite Hs in H.
  destruct (strip_snoc l c Hc) as [m Hm]. rewrite Hm in H.
  destruct m as [|x m'].
  - simpl in H.
    destruct (Ascii.eqb c "-"); [discriminate|].
    destruct (Ascii.eqb c "+"); [discriminate|].
    destruct (is_digit c); [reflexivity|discriminate].
  - rewrite <- app_comm_cons in H. cbv beta iota in H.
    destruct (Ascii.eqb x "-").
    + destruct (magnitude (m' ++ [c])) as [v|] eqn:E; [|discriminate].
      now apply magnitude_last in E.
    + destruct (Ascii.eqb x "+").
      * now apply magnitude_last in H.
      * now apply (magnitude_last (x :: m') c) in H.
Qed.

Lemma supported_is_no_integer (timeframe : string) :
  supported timeframe -> int timeframe = Raise ValueError.
Proof.
  intros [p [n [name [us [Hin [-> _]]]]]].
  unfold int. destruct (int_opt (p ++ name)) as [z|] eqn:E; [|reflexivity].
  exfalso.
  assert (Hl : exists l c, list_ascii_of_string (p ++ name) = l ++ [c] /\
                           is_space c = false /\ is_digit c = false).
  { destruct Hin as [H|[H|[H|[]]]]; inversion H; subst name us;
      rewrite StringFacts.list_ascii_app; simpl.
    - exists (list_ascii_of_string p ++ ["m"; "i"]%char), "n"%char.
      rewrite <- app_assoc. repeat split.
    - exists (list_ascii_of_string p ++ ["h"; "o"; "u"]%char), "r"%char.
      rewrite <- app_assoc. repeat split.
    - exists (list_ascii_of_string p ++ ["d"; "a"]%char), "y"%char.
      rewrite <- app_assoc. repeat split. }
  destruct Hl as [l [c [Hs [Hsp Hd]]]].
  pose proof (int_opt_last _ l c z E Hs Hsp). congruence.
Qed.

(** X22: no timeframe serves both markets: for a timeframe the spot
    updater supports (an integer followed by [min], [hour] or [day]) the
    futures request raises [ValueError] before anything is sent, and for
    a timeframe the futures request can read (an integer) the spot
    updater raises [ValueError]. *)
Theorem timeframes_do_not_mix :
  forall (timeframe : string),
    (supported timeframe ->
     forall (get_klines : Z -> Z -> Z -> result WebSocket.json) (start_ts end_ts : Z),
       FuturesFetcher._fetch_futures_klines get_klines timeframe start_ts end_ts
       = Raise ValueError) /\
    (forall n : Z,
        int timeframe = Ok n ->
        forall lookback now : Z,
          calculate_start_time_with_bars timeframe lookback now = Raise ValueError).
Proof.
  intros timeframe. split.
  - intros Hs get_klines start_ts end_ts.
    unfold FuturesFetcher._fetch_futures_klines.
    now rewrite (supported_is_no_integer timeframe Hs).
  - intros n Hn lookback now.
    apply Construction.calculate_unsupported.
    intros Hs. rewrite (supported_is_no_integer timeframe Hs) in Hn. discriminate.
Qed.

Lemma timeframes_do_not_mix_witness :
  FuturesFetcher._fetch_futures_klines sample_klines "15min" 1736118200 1736208200
  = Raise ValueError /\
  calculate_start_time_with_bars "480" 100 1736208217000321 = Raise ValueError.
Proof.
  split.
  - apply (proj1 (timeframes_do_not_mix "15min")).
    exists "15", 15, "min", (60 * us_per_second).
    split; [now left|split; reflexivity].
  - apply (proj2 (timeframes_do_not_mix "480") 480).
    reflexivity.
Defined.

Example futures_request_with_minutes :
  FuturesFetcher._fetch_futures_klines sample_klines "480" 1736118200 1736208200
  = Ok (WebSocket.JArray []).
Proof. reflexivity. Qed.

End Timeframes.
